(** * helm-optimize: the deduplication and cleanup engines

    A shallow embedding of [pkg/dedup] and [pkg/cleanup] over a model of the
    file system, and the properties of the two engines.

    Conventions of the model.
    - A path is the list of components of a cleaned absolute path
      ([[]] is "/"); [filepath.Abs] is the identity on such paths, and the
      root chart path given to an engine is such a path.
    - The file system is a finite map from paths to directories and regular
      files, without symbolic links. A regular file is represented by
      whether it can be read and by what unmarshalling its bytes gives.
      A path below a regular file does not resolve: the calls of the os
      package fail on it with ENOTDIR, and with ENOENT on a path that has
      no entry otherwise. Removal fails on entries marked immutable.
    - The recursive traversals take a recursion bound; the entry points
      pass a bound that a tree never exhausts (section "The recursion bound
      is never reached").
    - The deduplicator carries a ghost history of what the traversal did;
      the algorithm never reads it.
    - Printing ([fmt.Printf]) is not modelled: the [Verbose] and
      [ShowDeleted] options only guard printing in the source. *)

From Stdlib Require Import String Ascii List Lia.
From stdpp Require Import base option list list_numbers sorting strings gmap.

Open Scope string_scope.
Open Scope list_scope.

(** ** Results of fallible calls *)

Definition path := list string.

(** Go [error] values, with the data the message is built from. *)
Inductive error :=
| EPath (op : string) (p : path)           (* *fs.PathError of the os package *)
| EYaml                                    (* error of yaml.Unmarshal: built from the bytes only *)
| EMsgPath (msg : string) (p : path)       (* fmt.Errorf with one path argument *)
| EWrap (msg : string) (e : error)         (* fmt.Errorf("msg: %w", err) *)
| EWrapPath (msg : string) (p : path) (e : error). (* fmt.Errorf("msg %s: %w", p, err) *)

(** The paths an error message spells out. *)
Fixpoint errorPaths (e : error) : list path :=
match e with
| EPath _ p => [p]
| EYaml => []
| EMsgPath _ p => [p]
| EWrap _ e' => errorPaths e'
| EWrapPath _ p e' => p :: errorPaths e'
end.

Inductive result (A : Type) :=
| Ok (a : A)
| Err (e : error).
Arguments Ok {A} a.
Arguments Err {A} e.

(** How a traversal ends: [Done] is Go's [nil] error; [OutOfFuel] is an
  artefact of the recursion bound and never a result of the program. *)
Inductive outcome :=
| Done
| Failed (e : error)
| OutOfFuel.

(** ** path/filepath on cleaned absolute paths *)

Module Filepath.

Definition slash : ascii := "/"%char.

(** The elements of a string between separators. *)
Fixpoint splitSlash (s : string) : list string :=
  match s with
  | EmptyString => [EmptyString]
  | String c r =>
      if Ascii.eqb c slash then EmptyString :: splitSlash r
      else match splitSlash r with
           | h :: t => String c h :: t
           | [] => [String c EmptyString]
           end
  end.

(** One step of [filepath.Clean] on a rooted path: empty and "." elements
    are dropped, ".." removes the last component (and is dropped at the
    root). *)
Definition cleanStep (acc : path) (c : string) : path :=
  if decide (c = "") then acc
  else if decide (c = ".") then acc
  else if decide (c = "..") then removelast acc
  else acc ++ [c].

(** [filepath.Join(p, elems...)] for a cleaned absolute [p]. *)
Definition Join (p : path) (elems : list string) : path :=
  fold_left cleanStep (concat (map splitSlash elems)) p.

(** [filepath.Dir] *)
Definition Dir (p : path) : path := removelast p.

(** [filepath.Base] *)
Definition Base (p : path) : string := List.last p "/".

Fixpoint hasSlash (s : string) : bool :=
  match s with
  | EmptyString => false
  | String c r => Ascii.eqb c slash || hasSlash r
  end.

(** A string that can be the name of a directory entry. *)
Definition plainName (s : string) : bool :=
  negb (hasSlash s) && negb (bool_decide (s = ""))
  && negb (bool_decide (s = ".")) && negb (bool_decide (s = "..")).

End Filepath.

(** ** The file system *)

Module FS.

(** One entry of the manifest's [dependencies] list. *)
Record YamlDep := mkDep {
  depName : string;
  depVersion : string;
  depRepository : string
}.

(** A directory, or a regular file given by whether it can be read and by
    what [yaml.Unmarshal] makes of its bytes ([None]: a parse error). *)
Inductive node :=
  | Directory
  | RegularFile (readable : bool) (doc : option (list YamlDep)).

Record t := mk {
  nodes : gmap path node;
  (* entries that cannot be unlinked *)
  immutable : gset path
}.

Definition isDir (n : node) : bool :=
  match n with Directory => true | RegularFile _ _ => false end.

(** The error numbers that the code tells apart. *)
Inductive errno :=
  | ENOENT
  | ENOTDIR.

Definition isFile (fs : t) (q : path) : bool :=
  match nodes fs !! q with
  | Some (RegularFile _ _) => true
  | _ => false
  end.

(** A proper ancestor of [p] is a regular file. *)
Definition belowFile (fs : t) (p : path) : bool :=
  existsb (λ k, isFile fs (take k p)) (seq 0 (length p)).

(** Path resolution: the entry at [p], or the error number of the failure:
    ENOTDIR below a regular file, ENOENT when there is no entry. *)
Definition resolve (fs : t) (p : path) : node + errno :=
  if belowFile fs p then inr ENOTDIR
  else match nodes fs !! p with
       | Some n => inl n
       | None => inr ENOENT
       end.

(** [os.Stat]: what is found at [p]; [None] when the call returns an
    error ([err != nil]). *)
Definition stat (fs : t) (p : path) : option node :=
  match resolve fs p with
  | inl n => Some n
  | inr _ => None
  end.

(** The error of [os.Stat] ([None] is nil). *)
Definition statErr (fs : t) (p : path) : option errno :=
  match resolve fs p with
  | inl _ => None
  | inr e => Some e
  end.

(** [os.IsNotExist] *)
Definition IsNotExist (err : option errno) : bool :=
  match err with
  | Some ENOENT => true
  | _ => false
  end.

(** [os.ReadFile] followed by [yaml.Unmarshal]. *)
Definition readYaml (fs : t) (p : path) : result (list YamlDep) :=
  match resolve fs p with
  | inr _ => Err (EPath "open" p)
  | inl Directory => Err (EPath "read" p)
  | inl (RegularFile false _) => Err (EPath "open" p)
  | inl (RegularFile true None) => Err EYaml
  | inl (RegularFile true (Some deps)) => Ok deps
  end.

Fixpoint stripPrefix (p q : path) : option path :=
  match p, q with
  | [], _ => Some q
  | a :: p', b :: q' => if decide (a = b) then stripPrefix p' q' else None
  | _ :: _, [] => None
  end.

Definition childOf (p : path) (e : path * node) : option (string * bool) :=
  match stripPrefix p e.1 with
  | Some [x] => Some (x, isDir e.2)
  | _ => None
  end.

Definition nameLe (a b : string * bool) : Prop := String.leb a.1 b.1 = true.

#[global] Instance nameLe_dec a b : Decision (nameLe a b).
Proof. unfold nameLe. apply _. Defined.

(** [os.ReadDir]: the entries of a directory, sorted by file name, each
    with its [IsDir] flag. *)
Definition readDir (fs : t) (p : path) : result (list (string * bool)) :=
  match resolve fs p with
  | inl Directory =>
      Ok (merge_sort nameLe (omap (childOf p) (map_to_list (nodes fs))))
  | _ => Err (EPath "open" p)
  end.

Definition under (p q : path) : bool := bool_decide (p `prefix_of` q).

(** An entry below [p] that [os.RemoveAll p] cannot remove: it is
    immutable, or something below it is. *)
Definition stuck (fs : t) (p q : path) : bool :=
  under p q &&
  bool_decide (Exists (λ r, q `prefix_of` r ∧ is_Some (nodes fs !! r))
                      (elements (immutable fs))).

(** [os.RemoveAll]: removes [p] and everything below it that can be
    removed; a path that does not exist is not an error. Below a regular
    file nothing is removed and the call fails with ENOTDIR: in unlinkat
    when the parent is a regular file that can be opened, in opening the
    parent otherwise. *)
Definition removeAll (fs : t) (p : path) : t * option error :=
  if belowFile fs p then
    (fs, Some (match resolve fs (Filepath.Dir p) with
               | inl (RegularFile true _) => EPath "unlinkat" p
               | _ => EPath "open" (Filepath.Dir p)
               end))
  else
    let fs' := mk (filter (λ e, under p e.1 = false ∨ stuck fs p e.1 = true) (nodes fs))
                  (immutable fs) in
    (fs', if stuck fs p p then Some (EPath "unlinkat" p) else None).

(** Every component of every path is the name of a directory entry. *)
Definition valid (fs : t) : Prop :=
  ∀ p, is_Some (nodes fs !! p) → Forall (λ c, Filepath.plainName c = true) p.

Definition depth (fs : t) : nat :=
  max_list (map (λ e, length e.1) (map_to_list (nodes fs))).

End FS.

(** ** pkg/dedup *)

Module Dedup.
Import Filepath.

Record Options := mkOptions {
  ChartPath : path;
  OutputDir : option path;        (* [None] is the empty string *)
  Package : bool;
  DryRun : bool;
  ShowDeleted : bool;
  Verbose : bool
}.

Record Dependency := mkDependency {
  Name : string;
  Version : string
}.

(** [Dependency.Key]: fmt.Sprintf("%s-%s", d.Name, d.Version) *)
Definition Key (d : Dependency) : string :=
  String.append (Name d) (String.append "-" (Version d)).

(** The [ChartPath] struct (the name is taken by the field of [Options]). *)
Record ChartPath_ := mkChartPath {
  Path : path;
  ParentPath : path
}.

(** What the traversal did, in order: entering [processDependencies] on a
    chart directory, and handling one declared dependency of a chart. *)
Inductive event :=
  | Visit (chartPath : path)
  | Occurrence (chartPath : path) (dep : Dependency).

(** The [Deduplicator] struct. [history] is a ghost field: the source has
    no such field and the model never reads it. *)
Record Deduplicator := mkDeduplicator {
  overallDependencies : gmap string (list ChartPath_);
  currentDependencies : list path;
  deleteDependencies : list path;
  opts : Options;
  history : list event
}.

Definition NewDeduplicator (o : Options) : Deduplicator :=
  mkDeduplicator ∅ [] [] o [].

Definition readChartYaml (fs : FS.t) (p : path) : result (list Dependency) :=
  match FS.readYaml fs p with
  | Ok deps => Ok (map (λ y, mkDependency (FS.depName y) (FS.depVersion y)) deps)
  | Err e => Err e
  end.

(** The expected location of a dependency of the chart at [chartPath]. *)
Definition depPathOf (chartPath : path) (dep : Dependency) : path :=
  Join chartPath ["charts"; Name dep].

(** The loop over the occurrences already registered under the key.
    [orig] is [originalPath], [None] standing for the empty string (no
    registered path is the empty string); returning early is [break]. *)
Fixpoint scanPaths (depPath parentPath : path) (paths : list ChartPath_)
    (isTrueDuplicate : bool) (orig : option path) : bool * option path :=
  match paths with
  | [] => (isTrueDuplicate, orig)
  | existing :: rest =>
      let orig' := match orig with None => Some (Path existing) | Some _ => orig end in
      if decide (Path existing = depPath) then (false, orig')
      else scanPaths depPath parentPath rest
             (if decide (ParentPath existing = parentPath) then true else isTrueDuplicate)
             orig'
  end.

Definition keep (d : Deduplicator) (depKey : string) (paths : list ChartPath_)
    (depPath parentPath : path) : Deduplicator :=
  mkDeduplicator
    (<[depKey := paths ++ [mkChartPath depPath parentPath]]> (overallDependencies d))
    (currentDependencies d ++ [depPath])
    (deleteDependencies d) (opts d) (history d).

Definition condemn (d : Deduplicator) (depPath : path) : Deduplicator :=
  mkDeduplicator (overallDependencies d) (currentDependencies d)
    (deleteDependencies d ++ [depPath]) (opts d) (history d).

Definition record (ev : event) (d : Deduplicator) : Deduplicator :=
  mkDeduplicator (overallDependencies d) (currentDependencies d)
    (deleteDependencies d) (opts d) (history d ++ [ev]).

(** The body of the loop over the dependencies of one manifest. *)
Definition registerDependency (chartPath : path) (d : Deduplicator)
    (dependency : Dependency) : Deduplicator :=
  let d := record (Occurrence chartPath dependency) d in
  let depKey := Key dependency in
  let depPath := depPathOf chartPath dependency in
  let parentPath := Dir chartPath in
  match overallDependencies d !! depKey with
  | Some paths =>
      let '(isTrueDuplicate, originalPath) :=
        scanPaths depPath parentPath paths false None in
      if isTrueDuplicate then
        if decide (Some depPath ≠ originalPath) then condemn d depPath
        else keep d depKey paths depPath parentPath
      else keep d depKey paths depPath parentPath
  | None => keep d depKey [] depPath parentPath
  end.

(** The loop over the entries of the charts directory; [rec] is the
    recursive call. *)
Fixpoint walkEntries (rec : path → Deduplicator → Deduplicator * outcome)
    (chartsDir : path) (entries : list (string * bool)) (d : Deduplicator)
    : Deduplicator * outcome :=
  match entries with
  | [] => (d, Done)
  | (name, isDir) :: rest =>
      if isDir then
        let subChartPath := Join chartsDir [name] in
        if bool_decide (subChartPath ∈ deleteDependencies d)
        then walkEntries rec chartsDir rest d
        else match rec subChartPath d with
             | (d', Done) => walkEntries rec chartsDir rest d'
             | r => r
             end
      else walkEntries rec chartsDir rest d
  end.

Fixpoint processDependencies (fuel : nat) (fs : FS.t) (chartPath : path)
    (d : Deduplicator) : Deduplicator * outcome :=
  match fuel with
  | O => (d, OutOfFuel)
  | S fuel' =>
      let d := record (Visit chartPath) d in
      let chartYamlPath := Join chartPath ["Chart.yaml"] in
      let manifest :=
        match FS.stat fs chartYamlPath with
        | Some _ =>
            match readChartYaml fs chartYamlPath with
            | Err e => Err e
            | Ok deps => Ok (fold_left (registerDependency chartPath) deps d)
            end
        | None => Ok d
        end in
      match manifest with
      | Err e => (d, Failed e)
      | Ok d =>
          let chartsDir := Join chartPath ["charts"] in
          match FS.stat fs chartsDir with
          | Some _ =>
              match FS.readDir fs chartsDir with
              | Err e => (d, Failed e)
              | Ok entries =>
                  walkEntries (processDependencies fuel' fs) chartsDir entries d
              end
          | None => (d, Done)
          end
      end
  end.

(** The loop removing the condemned paths, stopping at the first failure. *)
Fixpoint removePaths (fs : FS.t) (paths : list path) : FS.t * option error :=
  match paths with
  | [] => (fs, None)
  | p :: rest =>
      match FS.removeAll fs p with
      | (fs', Some e) => (fs', Some (EWrapPath "failed to remove" p e))
      | (fs', None) => removePaths fs' rest
      end
  end.

(** Enough recursion depth for any chart tree of [fs]. *)
Definition fuelFor (fs : FS.t) : nat := S (FS.depth fs).

(** [DeduplicateChart]: the file system after the call, the deduplicator
    after the call, and the returned pair as a [result]. [None] is the
    recursion bound exhausted, which does not happen. *)
Definition DeduplicateChart (fs : FS.t) (d : Deduplicator) (chartPath : path)
    : FS.t * Deduplicator * option (result (list path)) :=
  match processDependencies (fuelFor fs) fs chartPath d with
  | (d', OutOfFuel) => (fs, d', None)
  | (d', Failed e) => (fs, d', Some (Err e))
  | (d', Done) =>
      if negb (DryRun (opts d')) then
        match removePaths fs (deleteDependencies d') with
        | (fs', Some e) => (fs', d', Some (Err e))
        | (fs', None) => (fs', d', Some (Ok (deleteDependencies d')))
        end
      else (fs, d', Some (Ok (deleteDependencies d')))
  end.

(** [packageChart]: not implemented in the source, returns nil. *)
Definition packageChart (chartPath : path) : option error := None.

(** [Run]: the file system after the call and the returned error
    ([Some None] is nil). *)
Definition Run (fs : FS.t) (o : Options) : FS.t * option (option error) :=
  if FS.IsNotExist (FS.statErr fs (ChartPath o)) then
    (fs, Some (Some (EMsgPath "chart path does not exist" (ChartPath o))))
  else
    let o := match OutputDir o with
             | None => mkOptions (ChartPath o) (Some (ChartPath o)) (Package o)
                         (DryRun o) (ShowDeleted o) (Verbose o)
             | Some _ => o
             end in
    let deduplicator := NewDeduplicator o in
    match DeduplicateChart fs deduplicator (ChartPath o) with
    | (fs', _, None) => (fs', None)
    | (fs', _, Some (Err e)) => (fs', Some (Some (EWrap "deduplication failed" e)))
    | (fs', _, Some (Ok deletedPaths)) =>
        if Package o && negb (DryRun o) then
          match packageChart (ChartPath o) with
          | Some e => (fs', Some (Some (EWrap "failed to package chart" e)))
          | None => (fs', Some None)
          end
        else (fs', Some None)
    end.

End Dedup.

(** ** pkg/cleanup *)

Module Cleanup.
Import Filepath.

Record Options := mkOptions {
  ChartPath : path;
  DryRun : bool;
  ShowDeleted : bool;
  Verbose : bool
}.

Record Cleaner := mkCleaner {
  opts : Options;
  deletedPaths : list path
}.

Definition NewCleaner (o : Options) : Cleaner := mkCleaner o [].

(** [strings.HasPrefix s pre] *)
Definition HasPrefix (s pre : string) : bool := String.prefix pre s.

(** [strings.TrimPrefix s pre] *)
Definition TrimPrefix (s pre : string) : string :=
  if HasPrefix s pre
  then String.substring (String.length pre) (String.length s - String.length pre) s
  else s.

(** The path a [file:] repository refers to, from the chart directory. *)
Definition originalDirPathOf (chartPath : path) (repository : string) : path :=
  let relPath := TrimPrefix repository "file://" in
  let relPath := TrimPrefix relPath "file:" in
  let relPath :=
    if HasPrefix relPath "./"
    then String.substring 2 (String.length relPath - 2) relPath
    else relPath in
  Join chartPath [relPath].

Definition append (c : Cleaner) (p : path) : Cleaner :=
  mkCleaner (opts c) (deletedPaths c ++ [p]).

(** The loop over the dependencies of the manifest; returning [Failed] is
    the early [return] of the source. *)
Fixpoint cleanupDeps (chartPath : path) (deps : list FS.YamlDep)
    (fs : FS.t) (c : Cleaner) : FS.t * Cleaner * outcome :=
  match deps with
  | [] => (fs, c, Done)
  | dep :: rest =>
      if negb (HasPrefix (FS.depRepository dep) "file:")
      then cleanupDeps chartPath rest fs c
      else
        let originalDirPath := originalDirPathOf chartPath (FS.depRepository dep) in
        if FS.IsNotExist (FS.statErr fs originalDirPath)
        then cleanupDeps chartPath rest fs c
        else
          let parentDir := Base (Dir originalDirPath) in
          if bool_decide (parentDir = "charts")
          then cleanupDeps chartPath rest fs c
          else if negb (DryRun (opts c)) then
            match FS.removeAll fs originalDirPath with
            | (fs', Some e) =>
                (fs', c, Failed (EWrapPath "failed to remove directory" originalDirPath e))
            | (fs', None) => cleanupDeps chartPath rest fs' (append c originalDirPath)
            end
          else cleanupDeps chartPath rest fs (append c originalDirPath)
  end.

Definition cleanupFileDependencies (fs : FS.t) (chartPath : path) (c : Cleaner)
    : FS.t * Cleaner * outcome :=
  let chartFile := Join chartPath ["Chart.yaml"] in
  match FS.readYaml fs chartFile with
  | Err EYaml => (fs, c, Failed (EWrap "failed to parse Chart.yaml" EYaml))
  | Err e => (fs, c, Failed (EWrap "failed to read Chart.yaml" e))
  | Ok deps => cleanupDeps chartPath deps fs c
  end.

(** The loop over the entries of the charts directory; [rec] is the
    recursive call. *)
Fixpoint walkEntries (rec : FS.t → path → Cleaner → FS.t * Cleaner * outcome)
    (chartsDir : path) (files : list (string * bool)) (fs : FS.t) (c : Cleaner)
    : FS.t * Cleaner * outcome :=
  match files with
  | [] => (fs, c, Done)
  | (name, isDir) :: rest =>
      if isDir then
        match rec fs (Join chartsDir [name]) c with
        | (fs', c', Done) => walkEntries rec chartsDir rest fs' c'
        | r => r
        end
      else walkEntries rec chartsDir rest fs c
  end.

Fixpoint processChart (fuel : nat) (fs : FS.t) (chartPath : path) (c : Cleaner)
    : FS.t * Cleaner * outcome :=
  match fuel with
  | O => (fs, c, OutOfFuel)
  | S fuel' =>
      let chartFile := Join chartPath ["Chart.yaml"] in
      if FS.IsNotExist (FS.statErr fs chartFile) then (fs, c, Done)
      else
        match cleanupFileDependencies fs chartPath c with
        | (fs1, c1, Done) =>
            let chartsDir := Join chartPath ["charts"] in
            match FS.stat fs1 chartsDir with
            | Some _ =>
                match FS.readDir fs1 chartsDir with
                | Err e => (fs1, c1, Failed (EWrap "failed to read charts directory" e))
                | Ok files => walkEntries (processChart fuel') chartsDir files fs1 c1
                end
            | None => (fs1, c1, Done)
            end
        | r => r
        end
  end.

Definition fuelFor (fs : FS.t) : nat := S (FS.depth fs).

(** [Cleaner.Cleanup]: the file system and the cleaner after the call, and
    how the call ended. *)
Definition Cleanup (fs : FS.t) (c : Cleaner) : FS.t * Cleaner * outcome :=
  let chartPath := ChartPath (opts c) in
  processChart (fuelFor fs) fs chartPath c.

Definition Run (fs : FS.t) (o : Options) : FS.t * Cleaner * outcome :=
  Cleanup fs (NewCleaner o).

End Cleanup.

(** ** The earlier deduplicator kept in main.go *)

Module Legacy.
Import Filepath.

(** The [Deduplicator] struct of main.go: the three flags are fields of
    their own. *)
Record Deduplicator := mkDeduplicator {
  overallDependencies : gmap string (list Dedup.ChartPath_);
  currentDependencies : list path;
  deleteDependencies : list path;
  verbose : bool;
  dryRun : bool;
  showDeleted : bool
}.

Definition NewDeduplicator (verbose dryRun showDeleted : bool) : Deduplicator :=
  mkDeduplicator ∅ [] [] verbose dryRun showDeleted.

(** The loop over the registered occurrences: [break] at the first one
    with the parent directory of the chart. *)
Fixpoint scanParents (parentPath : path) (paths : list Dedup.ChartPath_) : bool :=
  match paths with
  | [] => false
  | existing :: rest =>
      if decide (Dedup.ParentPath existing = parentPath) then true
      else scanParents parentPath rest
  end.

(** The body of the loop over the dependencies of one manifest. *)
Definition registerDependency (chartPath : path) (d : Deduplicator)
    (dependency : Dedup.Dependency) : Deduplicator :=
  let depKey := Dedup.Key dependency in
  let depPath := Join chartPath ["charts"; Dedup.Name dependency] in
  let parentPath := Dir chartPath in
  let newChartPath := Dedup.mkChartPath depPath parentPath in
  match overallDependencies d !! depKey with
  | Some paths =>
      if scanParents parentPath paths then
        mkDeduplicator (overallDependencies d) (currentDependencies d)
          (deleteDependencies d ++ [depPath]) (verbose d) (dryRun d) (showDeleted d)
      else
        mkDeduplicator (<[depKey := paths ++ [newChartPath]]> (overallDependencies d))
          (currentDependencies d ++ [depPath]) (deleteDependencies d)
          (verbose d) (dryRun d) (showDeleted d)
  | None =>
      mkDeduplicator (<[depKey := [newChartPath]]> (overallDependencies d))
        (currentDependencies d ++ [depPath]) (deleteDependencies d)
        (verbose d) (dryRun d) (showDeleted d)
  end.

End Legacy.

(** ** Auxiliary notions *)

(** A decidable form of [FS.valid]. *)
Definition validb (fs : FS.t) : bool :=
  forallb (λ e, forallb Filepath.plainName e.1) (map_to_list (FS.nodes fs)).

(** [fs'] has no entry that [fs] has not. *)
Definition shrinks (fs' fs : FS.t) : Prop := FS.nodes fs' ⊆ FS.nodes fs.

(** Every declared dependency name can be the name of a directory entry. *)
Definition plainDeps (fs : FS.t) : Prop :=
  ∀ q r deps, FS.nodes fs !! q = Some (FS.RegularFile r (Some deps)) →
              Forall (λ y, Filepath.plainName (FS.depName y) = true) deps.

Definition plainDepsb (fs : FS.t) : bool :=
  forallb (λ e, match e.2 with
                | FS.RegularFile _ (Some deps) =>
                    forallb (λ y, Filepath.plainName (FS.depName y)) deps
                | _ => true
                end) (map_to_list (FS.nodes fs)).

#[global] Instance Dependency_eq_dec : EqDecision Dedup.Dependency.
Proof. solve_decision. Defined.

#[global] Instance event_eq_dec : EqDecision Dedup.event.
Proof. solve_decision. Defined.

(** Replaying a history: the traversal changes the deduplicator only by
    recording a visit and by handling one declared dependency. *)
Definition applyEvent (d : Dedup.Deduplicator) (ev : Dedup.event) : Dedup.Deduplicator :=
  match ev with
  | Dedup.Visit q => Dedup.record (Dedup.Visit q) d
  | Dedup.Occurrence c dep => Dedup.registerDependency c d dep
  end.

Definition replay (evs : list Dedup.event) (d : Dedup.Deduplicator) : Dedup.Deduplicator :=
  fold_left applyEvent evs d.

(** The paths registered under a key ([[]] when the key is absent). *)
Definition registered (d : Dedup.Deduplicator) (k : string) : list Dedup.ChartPath_ :=
  default [] (Dedup.overallDependencies d !! k).

(** The event handles the dependency [dep] (of whatever chart). *)
Definition handles (dep : Dedup.Dependency) (ev : Dedup.event) : bool :=
  match ev with
  | Dedup.Occurrence _ dep' => bool_decide (dep' = dep)
  | Dedup.Visit _ => false
  end.

(** The deduplicator with other options. *)
Definition setOpts (o : Dedup.Options) (d : Dedup.Deduplicator) : Dedup.Deduplicator :=
  Dedup.mkDeduplicator (Dedup.overallDependencies d) (Dedup.currentDependencies d)
    (Dedup.deleteDependencies d) o (Dedup.history d).

(** The manifest of the chart at [q] is present and cannot be read or
    parsed, with error [e]. *)
Definition badManifest (fs : FS.t) (q : path) (e : error) : Prop :=
  is_Some (FS.stat fs (Filepath.Join q ["Chart.yaml"])) ∧
  Dedup.readChartYaml fs (Filepath.Join q ["Chart.yaml"]) = Err e.

(** An event of a traversal started at [root]: a visited chart lies at or
    below [root], and a handled dependency is declared by the manifest of
    its chart. *)
Definition eventOk (fs : FS.t) (root : path) (ev : Dedup.event) : Prop :=
  match ev with
  | Dedup.Visit q => root `prefix_of` q
  | Dedup.Occurrence c dep =>
      root `prefix_of` c ∧
      ∃ deps, Dedup.readChartYaml fs (Filepath.Join c ["Chart.yaml"]) = Ok deps ∧
              dep ∈ deps
  end.

(** What one call of the traversal does to the deduplicator. *)
Definition traversalSpec (fs : FS.t) (p : path) (d d' : Dedup.Deduplicator)
    (out : outcome) : Prop :=
  ∃ evs, d' = replay evs d ∧
         (FS.valid fs → Forall (eventOk fs p) evs) ∧
         (∀ q e, Dedup.Visit q ∈ evs → badManifest fs q e → out = Failed e).

(** The path a dependency makes cleanup remove, if any: the target of a
    [file:] repository for which [os.Stat] does not answer that it does not
    exist, and which is not an immediate child of a charts directory. *)
Definition candidate (fs : FS.t) (chartPath : path) (dep : FS.YamlDep) : option path :=
  if negb (Cleanup.HasPrefix (FS.depRepository dep) "file:") then None
  else
    let p := Cleanup.originalDirPathOf chartPath (FS.depRepository dep) in
    if FS.IsNotExist (FS.statErr fs p) then None
    else if bool_decide (Filepath.Base (Filepath.Dir p) = "charts") then None
    else Some p.

(** Not an immediate child of a charts directory. *)
Definition outsideCharts (p : path) : Prop :=
  Filepath.Base (Filepath.Dir p) ≠ "charts".

(** What a part of the cleanup traversal does: the file system only loses
    entries, the options stay, the deletion set grows by paths outside
    charts directories, and an entry that is lost lies at or below one of
    these paths, or below the path whose removal failed. *)
Definition cleanupSpec (fs : FS.t) (c : Cleanup.Cleaner)
    (r : FS.t * Cleanup.Cleaner * outcome) : Prop :=
  shrinks r.1.1 fs ∧
  Cleanup.opts r.1.2 = Cleanup.opts c ∧
  ∃ l, Cleanup.deletedPaths r.1.2 = Cleanup.deletedPaths c ++ l ∧
       Forall outsideCharts l ∧
       ∀ q, is_Some (FS.nodes fs !! q) → FS.nodes r.1.1 !! q = None →
            ∃ p, p `prefix_of` q ∧ outsideCharts p ∧
                 (p ∈ l ∨ ∃ e, r.2 = Failed (EWrapPath "failed to remove directory" p e)).

(** Nothing is left for cleanup to do at or below the chart directory [p]:
    the directory has no manifest; or its manifest parses, none of its
    dependencies has a directory to remove, and the same holds for every
    directory of its charts directory. *)
Inductive settled (fs : FS.t) : path → Prop :=
  | settled_no_chart (p : path) :
      FS.IsNotExist (FS.statErr fs (Filepath.Join p ["Chart.yaml"])) = true →
      settled fs p
  | settled_leaf (p : path) (deps : list FS.YamlDep) :
      FS.readYaml fs (Filepath.Join p ["Chart.yaml"]) = Ok deps →
      Forall (λ dep, candidate fs p dep = None) deps →
      FS.stat fs (Filepath.Join p ["charts"]) = None →
      settled fs p
  | settled_node (p : path) (deps : list FS.YamlDep) :
      FS.readYaml fs (Filepath.Join p ["Chart.yaml"]) = Ok deps →
      Forall (λ dep, candidate fs p dep = None) deps →
      FS.stat fs (Filepath.Join p ["charts"]) = Some FS.Directory →
      (∀ x, FS.nodes fs !! (Filepath.Join p ["charts"] ++ [x]) = Some FS.Directory →
            settled fs (Filepath.Join p ["charts"] ++ [x])) →
      settled fs p.

(** ** Example trees *)

(** A manifest that parses, from (name, version, repository) triples. *)
Definition manifest (deps : list (string * string * string)) : FS.node :=
  FS.RegularFile true (Some (map (λ t, FS.mkDep t.1.1 t.1.2 t.2) deps)).

(** A manifest that does not parse. *)
Definition malformed : FS.node := FS.RegularFile true None.

Definition tree (entries : list (path * FS.node)) : FS.t :=
  FS.mk (list_to_map entries) ∅.

Definition dedupOptions (root : path) (dryRun : bool) : Dedup.Options :=
  Dedup.mkOptions root None false dryRun false false.

Definition cleanupOptions (root : path) (dryRun : bool) : Cleanup.Options :=
  Cleanup.mkOptions root dryRun false false.

(** Charts a and b are siblings and both declare x 1. *)
Definition siblingsTree : FS.t := tree [
  (["r"], FS.Directory);
  (["r"; "Chart.yaml"], manifest []);
  (["r"; "charts"], FS.Directory);
  (["r"; "charts"; "a"], FS.Directory);
  (["r"; "charts"; "a"; "Chart.yaml"], manifest [("x", "1", "")]);
  (["r"; "charts"; "a"; "charts"], FS.Directory);
  (["r"; "charts"; "a"; "charts"; "x"], FS.Directory);
  (["r"; "charts"; "b"], FS.Directory);
  (["r"; "charts"; "b"; "Chart.yaml"], manifest [("x", "1", "")]);
  (["r"; "charts"; "b"; "charts"], FS.Directory);
  (["r"; "charts"; "b"; "charts"; "x"], FS.Directory)
].

(** The root and chart a, whose parents differ, both declare x 1. *)
Definition contextTree : FS.t := tree [
  (["r"], FS.Directory);
  (["r"; "Chart.yaml"], manifest [("x", "1", "")]);
  (["r"; "charts"], FS.Directory);
  (["r"; "charts"; "a"], FS.Directory);
  (["r"; "charts"; "a"; "Chart.yaml"], manifest [("x", "1", "")])
].


(** The root and chart b, whose parents differ, are the only charts that
    declare x at version 1-2; chart a, a sibling of b, declares x-1 at
    version 2, which has the same key. *)
Definition collisionTree : FS.t := tree [
  (["r"], FS.Directory);
  (["r"; "Chart.yaml"], manifest [("x", "1-2", "")]);
  (["r"; "charts"], FS.Directory);
  (["r"; "charts"; "a"], FS.Directory);
  (["r"; "charts"; "a"; "Chart.yaml"], manifest [("x-1", "2", "")]);
  (["r"; "charts"; "b"], FS.Directory);
  (["r"; "charts"; "b"; "Chart.yaml"], manifest [("x", "1-2", "")])
].

(** A manifest whose two dependency names are not directory names and whose
    keys are equal. *)
Definition dotdotTree : FS.t := tree [
  (["r"], FS.Directory);
  (["r"; "Chart.yaml"], manifest [("..-", "1", ""); ("..", "-1", "")])
].

(** A manifest that lists the same dependency twice. *)
Definition twiceTree : FS.t := tree [
  (["r"], FS.Directory);
  (["r"; "Chart.yaml"], manifest [("x", "1", ""); ("x", "1", "")])
].

(** Charts a and b both declare x 1; the manifest of chart c is malformed. *)
Definition brokenTree : FS.t := tree [
  (["r"], FS.Directory);
  (["r"; "Chart.yaml"], manifest []);
  (["r"; "charts"], FS.Directory);
  (["r"; "charts"; "a"], FS.Directory);
  (["r"; "charts"; "a"; "Chart.yaml"], manifest [("x", "1", "")]);
  (["r"; "charts"; "b"], FS.Directory);
  (["r"; "charts"; "b"; "Chart.yaml"], manifest [("x", "1", "")]);
  (["r"; "charts"; "c"], FS.Directory);
  (["r"; "charts"; "c"; "Chart.yaml"], malformed)
].

(** The manifest of chart c is present and cannot be read. *)
Definition unreadableTree : FS.t := tree [
  (["r"], FS.Directory);
  (["r"; "Chart.yaml"], manifest []);
  (["r"; "charts"], FS.Directory);
  (["r"; "charts"; "c"], FS.Directory);
  (["r"; "charts"; "c"; "Chart.yaml"], FS.RegularFile false None)
].

(** The scenario of the spec: a local source directory next to the charts
    directory that holds its copy. *)
Definition localdbTree : FS.t := tree [
  (["A"], FS.Directory);
  (["A"; "Chart.yaml"], manifest [("localdb", "1", "file:./localdb")]);
  (["A"; "localdb"], FS.Directory);
  (["A"; "localdb"; "Chart.yaml"], manifest []);
  (["A"; "charts"], FS.Directory);
  (["A"; "charts"; "localdb"], FS.Directory);
  (["A"; "charts"; "localdb"; "Chart.yaml"], manifest [])
].

(** A manifest that lists the same local source directory twice. *)
Definition repeatedSourceTree : FS.t := tree [
  (["r"], FS.Directory);
  (["r"; "Chart.yaml"],
   manifest [("db", "1", "file:./db"); ("db", "1", "file:./db")]);
  (["r"; "db"], FS.Directory);
  (["r"; "charts"], FS.Directory);
  (["r"; "charts"; "db"], FS.Directory)
].

(** The chart lists its own charts directory, and a subchart already in
    it, as local sources. *)
Definition chartsSourceTree : FS.t := tree [
  (["r"], FS.Directory);
  (["r"; "Chart.yaml"],
   manifest [("lib", "1", "file:./charts/lib"); ("all", "1", "file:./charts")]);
  (["r"; "charts"], FS.Directory);
  (["r"; "charts"; "lib"], FS.Directory);
  (["r"; "charts"; "lib"; "Chart.yaml"], manifest [])
].

(** ** Further notions *)

(** The keys of the dependencies a history handled, in order. *)
Definition occurrenceKeys (h : list Dedup.event) : list string :=
  omap (λ ev, match ev with
              | Dedup.Occurrence _ dep => Some (Dedup.Key dep)
              | Dedup.Visit _ => None
              end) h.

Fixpoint hasHyphen (s : string) : bool :=
  match s with
  | EmptyString => false
  | String c r => Ascii.eqb c "-"%char || hasHyphen r
  end.

(** No visit of the history enters a directory that is condemned at that
    moment. *)
Definition visitsClean (d : Dedup.Deduplicator) (evs : list Dedup.event) : Prop :=
  ∀ e1 q e2, evs = e1 ++ Dedup.Visit q :: e2 →
             q ∉ Dedup.deleteDependencies (replay e1 d).

(** The legacy deduplicator and the current one hold the same registry,
    kept list and deletion set. *)
Definition sameBooks (l : Legacy.Deduplicator) (d : Dedup.Deduplicator) : Prop :=
  Legacy.overallDependencies l = Dedup.overallDependencies d ∧
  Legacy.currentDependencies l = Dedup.currentDependencies d ∧
  Legacy.deleteDependencies l = Dedup.deleteDependencies d.

(** No manifest declares a dependency with a [file:] repository. *)
Definition noFileDeps (fs : FS.t) : Prop :=
  ∀ q r deps, FS.nodes fs !! q = Some (FS.RegularFile r (Some deps)) →
              Forall (λ y, Cleanup.HasPrefix (FS.depRepository y) "file:" = false) deps.

Definition noFileDepsb (fs : FS.t) : bool :=
  forallb (λ e, match e.2 with
                | FS.RegularFile _ (Some deps) =>
                    forallb (λ y, negb (Cleanup.HasPrefix (FS.depRepository y) "file:")) deps
                | _ => true
                end) (map_to_list (FS.nodes fs)).

(** What a part of the cleanup traversal records: paths for which
    [os.Stat] did not answer, before it, that they do not exist; unless it
    is a dry run, they existed before it and do not exist after it. *)
Definition recordSpec (fs : FS.t) (c : Cleanup.Cleaner)
    (r : FS.t * Cleanup.Cleaner * outcome) : Prop :=
  ∃ l, Cleanup.deletedPaths r.1.2 = Cleanup.deletedPaths c ++ l ∧
       (∀ p, p ∈ l → FS.IsNotExist (FS.statErr fs p) = false) ∧
       (Cleanup.DryRun (Cleanup.opts c) = false →
        ∀ p, p ∈ l → is_Some (FS.stat fs p) ∧
                     FS.IsNotExist (FS.statErr r.1.1 p) = true).

(** [fs'] is [fs] without some of its entries, an entry that is left
    having its ancestors left. *)
Definition prunes (fs' fs : FS.t) : Prop :=
  shrinks fs' fs ∧
  ∀ q r, q `prefix_of` r → is_Some (FS.nodes fs' !! r) →
         FS.nodes fs' !! q = FS.nodes fs !! q.

(** The dependencies the traversal handles on entering the chart directory
    [c]: those of its manifest; none when [os.Stat] fails on the manifest,
    and none when the manifest cannot be read or parsed (the traversal then
    stops). *)
Definition declared (fs : FS.t) (c : path) : list Dedup.Dependency :=
  match FS.stat fs (Filepath.Join c ["Chart.yaml"]) with
  | Some _ =>
      match Dedup.readChartYaml fs (Filepath.Join c ["Chart.yaml"]) with
      | Ok deps => deps
      | Err _ => []
      end
  | None => []
  end.

(** What the traversal records on entering the chart directory [c]. *)
Definition block (fs : FS.t) (c : path) : list Dedup.event :=
  Dedup.Visit c :: map (Dedup.Occurrence c) (declared fs c).

(** The entries of the charts directory of [p], in the order of
    [os.ReadDir]; none when it cannot be listed. *)
Definition chartEntries (fs : FS.t) (p : path) : list (string * bool) :=
  match FS.readDir fs (Filepath.Join p ["charts"]) with
  | Ok entries => entries
  | Err _ => []
  end.

(** Depth-first pre-order of the chart tree at [p], read off the file
    system alone: the directory itself, then, for each directory of its
    charts directory in turn, the tree at that directory. *)
Fixpoint preorder (fuel : nat) (fs : FS.t) (p : path) : list path :=
  match fuel with
  | O => []
  | S fuel' =>
      p :: flat_map
             (λ e : string * bool,
                if e.2
                then preorder fuel' fs
                       (Filepath.Join (Filepath.Join p ["charts"]) [e.1])
                else [])
             (chartEntries fs p)
  end.

(** Neither path is at or below the other. *)
Definition incomparable (t q : path) : Prop :=
  ¬ t `prefix_of` q ∧ ¬ q `prefix_of` t.

(** What a call of the traversal on [p] keeps true: the directories it
    enters lie at or below [p], at an even distance; what it condemns lies
    below [p]; and no directory it has entered lies at or below a path that
    is condemned when it returns. *)
Definition safeSpec (p : path) (d d' : Dedup.Deduplicator) : Prop :=
  ∃ evs, d' = replay evs d ∧
    (∀ q, Dedup.Visit q ∈ evs →
          p `prefix_of` q ∧ Nat.even (length q) = Nat.even (length p)) ∧
    (∀ t, t ∈ Dedup.deleteDependencies d' →
          t ∈ Dedup.deleteDependencies d ∨ (p `prefix_of` t ∧ t ≠ p)) ∧
    (∀ q t, Dedup.Visit q ∈ evs → t ∈ Dedup.deleteDependencies d' →
            ¬ t `prefix_of` q).

(** The manifest names a local source below itself, that is below a regular
    file. *)
Definition belowFileTree : FS.t := tree [
  (["r"], FS.Directory);
  (["r"; "Chart.yaml"], manifest [("x", "1", "file:./Chart.yaml/x")])
].

(** Charts a and b declare dependencies under different keys. *)
Definition distinctTree : FS.t := tree [
  (["r"], FS.Directory);
  (["r"; "Chart.yaml"], manifest [("a", "1", ""); ("b", "1", "")]);
  (["r"; "charts"], FS.Directory);
  (["r"; "charts"; "a"], FS.Directory);
  (["r"; "charts"; "a"; "Chart.yaml"], manifest [("x", "1", "")]);
  (["r"; "charts"; "b"], FS.Directory);
  (["r"; "charts"; "b"; "Chart.yaml"], manifest [("x", "2", "")])
].

(** The tree of [siblingsTree] with a third sibling c that declares x 1
    too, whose copy of x cannot be removed. *)
Definition lockedTree : FS.t :=
  FS.mk (<[ ["r"; "charts"; "c"] := FS.Directory ]>
         (<[ ["r"; "charts"; "c"; "Chart.yaml"] := manifest [("x", "1", "")] ]>
          (<[ ["r"; "charts"; "c"; "charts"] := FS.Directory ]>
           (<[ ["r"; "charts"; "c"; "charts"; "x"] := FS.Directory ]>
            (FS.nodes siblingsTree)))))
        {[ ["r"; "charts"; "c"; "charts"; "x"] ]}.


(** * Properties *)

(** ** Paths *)

Section filepath_facts.
Import Filepath.

Lemma splitSlash_no_slash (s : string) :
  hasSlash s = false → splitSlash s = [s].
Proof.
  induction s as [|c r IH]; simpl; [done|].
  destruct (Ascii.eqb c slash); simpl; [done|].
  intros Hr. by rewrite (IH Hr).
Qed.

Lemma plainName_spec (s : string) :
  plainName s = true ↔
  hasSlash s = false ∧ s ≠ "" ∧ s ≠ "." ∧ s ≠ "..".
Proof.
  unfold plainName.
  rewrite !andb_true_iff, !negb_true_iff, !bool_decide_eq_false.
  tauto.
Qed.

Lemma cleanStep_plain (p : path) (x : string) :
  plainName x = true → cleanStep p x = p ++ [x].
Proof.
  intros (_ & ? & ? & ?)%plainName_spec. unfold cleanStep.
  repeat case_decide; done.
Qed.

Lemma Join_plain (p : path) (x : string) :
  plainName x = true → Join p [x] = p ++ [x].
Proof.
  intros Hx. unfold Join. simpl. rewrite app_nil_r.
  rewrite splitSlash_no_slash by (by apply plainName_spec in Hx as [? _]).
  simpl. by apply cleanStep_plain.
Qed.

Lemma Join_manifest (p : path) : Join p ["Chart.yaml"] = p ++ ["Chart.yaml"].
Proof. by apply Join_plain. Qed.

Lemma Join_charts (p : path) : Join p ["charts"] = p ++ ["charts"].
Proof. by apply Join_plain. Qed.

Lemma Join_charts_plain (p : path) (x : string) :
  plainName x = true → Join p ["charts"; x] = p ++ ["charts"; x].
Proof.
  intros Hx. unfold Join. simpl. rewrite app_nil_r.
  rewrite splitSlash_no_slash by (by apply plainName_spec in Hx as [? _]).
  simpl. change (cleanStep p "charts") with (p ++ ["charts"]).
  rewrite cleanStep_plain by done. by rewrite <- app_assoc.
Qed.

End filepath_facts.

(** ** The file system *)

Section fs_facts.

Lemma stripPrefix_Some (p q r : path) :
  FS.stripPrefix p q = Some r ↔ q = p ++ r.
Proof.
  revert q. induction p as [|a p IH]; intros q; simpl.
  - split; congruence.
  - destruct q as [|b q]; [split; [done|intros [=]]|].
    case_decide as Hab.
    + subst b. rewrite IH. split; [by intros ->|by intros [= ->]].
    + split; [done|]. intros [= -> _]. done.
Qed.

Lemma childOf_Some (p : path) (e : path * FS.node) (x : string) (b : bool) :
  FS.childOf p e = Some (x, b) ↔ e.1 = p ++ [x] ∧ b = FS.isDir e.2.
Proof.
  unfold FS.childOf.
  destruct (FS.stripPrefix p e.1) as [r|] eqn:Hr.
  - apply stripPrefix_Some in Hr. rewrite Hr.
    destruct r as [|y [|z r]]; split; try done.
    + intros [Heq _]. apply app_inv_head in Heq. done.
    + intros [= -> ->]. done.
    + intros [Heq ->]. apply app_inv_head in Heq. by injection Heq as ->.
    + intros [Heq _]. apply app_inv_head in Heq. done.
  - split; [done|]. intros [Heq _].
    apply stripPrefix_Some in Heq. congruence.
Qed.

(** What resolves is an entry of the map. *)
Lemma resolve_inl (fs : FS.t) (p : path) (n : FS.node) :
  FS.resolve fs p = inl n ↔ FS.belowFile fs p = false ∧ FS.nodes fs !! p = Some n.
Proof.
  unfold FS.resolve. destruct (FS.belowFile fs p).
  - split; [done|]. by intros [? _].
  - destruct (FS.nodes fs !! p) as [m|]; split.
    + by intros [= ->].
    + by intros [_ [= ->]].
    + done.
    + by intros [_ ?].
Qed.

Lemma stat_Some (fs : FS.t) (p : path) (n : FS.node) :
  FS.stat fs p = Some n ↔ FS.resolve fs p = inl n.
Proof.
  unfold FS.stat. destruct (FS.resolve fs p) as [m|e]; split; congruence.
Qed.

Lemma stat_lookup (fs : FS.t) (p : path) (n : FS.node) :
  FS.stat fs p = Some n → FS.nodes fs !! p = Some n.
Proof. intros Hs%stat_Some. by apply resolve_inl in Hs as [_ ?]. Qed.

Lemma stat_absent (fs : FS.t) (p : path) :
  FS.nodes fs !! p = None → FS.stat fs p = None.
Proof.
  intros Hp. destruct (FS.stat fs p) as [n|] eqn:Hs; [|done].
  apply stat_lookup in Hs. congruence.
Qed.

Lemma notExist_spec (fs : FS.t) (p : path) :
  FS.IsNotExist (FS.statErr fs p) = true ↔
  FS.belowFile fs p = false ∧ FS.nodes fs !! p = None.
Proof.
  unfold FS.statErr, FS.resolve. destruct (FS.belowFile fs p); simpl.
  - split; [done|]. by intros [? _].
  - destruct (FS.nodes fs !! p); simpl; split; try done. by intros [_ ?].
Qed.

Lemma notExist_stat (fs : FS.t) (p : path) :
  FS.IsNotExist (FS.statErr fs p) = true → FS.stat fs p = None.
Proof. intros [_ Hp]%notExist_spec. by apply stat_absent. Qed.

Lemma stat_notExist (fs : FS.t) (p : path) (n : FS.node) :
  FS.stat fs p = Some n → FS.IsNotExist (FS.statErr fs p) = false.
Proof.
  intros Hs. destruct (FS.IsNotExist _) eqn:He; [|done].
  apply notExist_stat in He. congruence.
Qed.

Lemma belowFile_spec (fs : FS.t) (p : path) :
  FS.belowFile fs p = true ↔
  ∃ k, (k < length p)%nat ∧ FS.isFile fs (take k p) = true.
Proof.
  unfold FS.belowFile. rewrite existsb_exists. split.
  - intros (k & Hk%in_seq & Hf). exists k. split; [lia|done].
  - intros (k & Hk & Hf). exists k. split; [apply in_seq; lia|done].
Qed.

(** What is below a path that lies below a regular file lies below it. *)
Lemma belowFile_app (fs : FS.t) (p k : path) :
  FS.belowFile fs p = true → FS.belowFile fs (p ++ k) = true.
Proof.
  intros (i & Hi & Hf)%belowFile_spec. apply belowFile_spec. exists i.
  split; [rewrite length_app; lia|]. by rewrite take_app_le by lia.
Qed.

(** The resolution of a path depends on the entries at the path and at its
    ancestors only. *)
Lemma resolve_ext (fs fs' : FS.t) (p : path) :
  (∀ q, q `prefix_of` p → FS.nodes fs' !! q = FS.nodes fs !! q) →
  FS.resolve fs' p = FS.resolve fs p.
Proof.
  intros Hsame. unfold FS.resolve.
  assert (FS.belowFile fs' p = FS.belowFile fs p) as ->.
  { unfold FS.belowFile. generalize (seq 0 (length p)).
    induction l as [|k l IH]; simpl; [done|]. rewrite IH. f_equal.
    unfold FS.isFile. rewrite Hsame; [done|]. apply prefix_take. }
  rewrite Hsame by done. done.
Qed.

Lemma stat_ext (fs fs' : FS.t) (p : path) :
  (∀ q, q `prefix_of` p → FS.nodes fs' !! q = FS.nodes fs !! q) →
  FS.stat fs' p = FS.stat fs p.
Proof. intros Hsame. unfold FS.stat. by rewrite (resolve_ext fs fs' p). Qed.

(** What [os.ReadDir] lists: the entries one component below [p]. *)
Lemma elem_of_readDir (fs : FS.t) (p : path) (es : list (string * bool))
    (x : string) (b : bool) :
  FS.readDir fs p = Ok es →
  (x, b) ∈ es ↔ ∃ n, FS.nodes fs !! (p ++ [x]) = Some n ∧ b = FS.isDir n.
Proof.
  unfold FS.readDir.
  destruct (FS.resolve fs p) as [[|]|]; try done.
  intros [= <-]. rewrite merge_sort_Permutation, list_elem_of_omap.
  split.
  - intros ([q n] & Hin & Hc). apply elem_of_map_to_list in Hin.
    apply childOf_Some in Hc as [Hq ->]. simpl in *. subst q. eauto.
  - intros (n & Hn & ->). exists (p ++ [x], n). split.
    + by apply elem_of_map_to_list.
    + by apply childOf_Some.
Qed.

Lemma readDir_is_dir (fs : FS.t) (p : path) (es : list (string * bool)) :
  FS.readDir fs p = Ok es → FS.stat fs p = Some FS.Directory.
Proof.
  unfold FS.readDir, FS.stat. by destruct (FS.resolve fs p) as [[|]|].
Qed.

Lemma readDir_of_dir (fs : FS.t) (p : path) :
  FS.stat fs p = Some FS.Directory → ∃ es, FS.readDir fs p = Ok es.
Proof. intros Hs%stat_Some. unfold FS.readDir. rewrite Hs. eauto. Qed.

(** What [os.ReadFile] reads is a regular file that [os.Stat] finds. *)
Lemma readYaml_Ok (fs : FS.t) (q : path) (deps : list FS.YamlDep) :
  FS.readYaml fs q = Ok deps ↔ FS.stat fs q = Some (FS.RegularFile true (Some deps)).
Proof.
  unfold FS.readYaml, FS.stat.
  destruct (FS.resolve fs q) as [[|[|] [ds|]]|]; split; congruence.
Qed.

Lemma depth_bound (fs : FS.t) (p : path) :
  is_Some (FS.nodes fs !! p) → (length p ≤ FS.depth fs)%nat.
Proof.
  intros [n Hn]. unfold FS.depth.
  apply max_list_elem_of_le, list_elem_of_fmap.
  exists (p, n). split; [done|]. by apply elem_of_map_to_list.
Qed.

Lemma validb_valid (fs : FS.t) : validb fs = true → FS.valid fs.
Proof.
  unfold validb. rewrite forallb_forall. intros H p [n Hn].
  specialize (H (p, n)). simpl in H.
  rewrite forallb_forall in H. apply Forall_forall. intros c Hc.
  apply H.
  - apply list_elem_of_In. by apply elem_of_map_to_list.
  - by apply list_elem_of_In.
Qed.

Lemma valid_entry_name (fs : FS.t) (p : path) (x : string) :
  FS.valid fs → is_Some (FS.nodes fs !! (p ++ [x])) →
  Filepath.plainName x = true.
Proof.
  intros Hv Hx. specialize (Hv _ Hx).
  rewrite Forall_app, Forall_singleton in Hv. tauto.
Qed.

#[global] Instance shrinks_refl : Reflexive shrinks.
Proof. intros fs. unfold shrinks. done. Qed.

#[global] Instance shrinks_trans : Transitive shrinks.
Proof. intros a b c. unfold shrinks. by etrans. Qed.

Lemma shrinks_lookup (fs' fs : FS.t) (p : path) (n : FS.node) :
  shrinks fs' fs → FS.nodes fs' !! p = Some n → FS.nodes fs !! p = Some n.
Proof. intros H Hp. by eapply lookup_weaken. Qed.

Lemma shrinks_absent (fs' fs : FS.t) (p : path) :
  shrinks fs' fs → FS.nodes fs !! p = None → FS.nodes fs' !! p = None.
Proof.
  intros H Hp. destruct (FS.nodes fs' !! p) eqn:E; [|done].
  by rewrite (shrinks_lookup _ _ _ _ H E) in Hp.
Qed.

Lemma shrinks_valid (fs' fs : FS.t) : shrinks fs' fs → FS.valid fs → FS.valid fs'.
Proof.
  intros H Hv p [n Hn]. apply Hv. exists n. by eapply shrinks_lookup.
Qed.

Lemma removeAll_shrinks (fs : FS.t) (p : path) : shrinks (FS.removeAll fs p).1 fs.
Proof.
  unfold shrinks, FS.removeAll. destruct (FS.belowFile fs p); simpl; [done|].
  apply map_filter_subseteq.
Qed.

(** A removal that succeeds is not one below a regular file. *)
Lemma removeAll_success (fs : FS.t) (p : path) :
  (FS.removeAll fs p).2 = None → FS.belowFile fs p = false.
Proof. unfold FS.removeAll. by destruct (FS.belowFile fs p). Qed.

Lemma stuck_under (fs : FS.t) (p q : path) :
  FS.stuck fs p p = false → p `prefix_of` q → FS.stuck fs p q = false.
Proof.
  unfold FS.stuck, FS.under. intros Hp Hpq.
  rewrite (bool_decide_eq_true_2 _ (reflexivity p)) in Hp. simpl in Hp.
  rewrite (bool_decide_eq_true_2 _ Hpq). simpl.
  apply bool_decide_eq_false in Hp. apply bool_decide_eq_false.
  intros Hex. apply Hp. apply Exists_exists in Hex as (r & Hr & Hqr & Hs).
  apply Exists_exists. exists r. split; [done|]. split; [by etrans|done].
Qed.

(** After a removal that succeeded nothing is left at or below the path. *)
Lemma removeAll_gone (fs : FS.t) (p q : path) :
  (FS.removeAll fs p).2 = None → p `prefix_of` q →
  FS.nodes (FS.removeAll fs p).1 !! q = None.
Proof.
  unfold FS.removeAll. destruct (FS.belowFile fs p); [done|].
  simpl. intros He Hpq.
  destruct (FS.stuck fs p p) eqn:Hs; [done|].
  apply map_lookup_filter_None. right. intros n _ [Hu|Hst]; simpl in *.
  - unfold FS.under in Hu. by apply bool_decide_eq_false in Hu.
  - by rewrite stuck_under in Hst.
Qed.

(** A removal leaves what is not at or below the path. *)
Lemma removeAll_elsewhere (fs : FS.t) (p q : path) :
  ¬ p `prefix_of` q →
  FS.nodes (FS.removeAll fs p).1 !! q = FS.nodes fs !! q.
Proof.
  intros Hpq. unfold FS.removeAll. destruct (FS.belowFile fs p); [done|]. simpl.
  destruct (FS.nodes fs !! q) as [n|] eqn:Hq.
  - apply map_lookup_filter_Some. split; [done|]. left. simpl.
    by apply bool_decide_eq_false.
  - apply map_lookup_filter_None. by left.
Qed.

Lemma isFile_spec (fs : FS.t) (q : path) :
  FS.isFile fs q = true ↔ ∃ r doc, FS.nodes fs !! q = Some (FS.RegularFile r doc).
Proof.
  unfold FS.isFile. destruct (FS.nodes fs !! q) as [[|r doc]|]; split;
    try done; try (by intros (? & ? & ?)). by eauto.
Qed.

Lemma isFile_shrinks (fs' fs : FS.t) (q : path) :
  shrinks fs' fs → FS.isFile fs' q = true → FS.isFile fs q = true.
Proof.
  intros Hsh (r & doc & Hq)%isFile_spec. apply isFile_spec. exists r, doc.
  by eapply shrinks_lookup.
Qed.

Lemma belowFile_shrinks (fs' fs : FS.t) (p : path) :
  shrinks fs' fs → FS.belowFile fs' p = true → FS.belowFile fs p = true.
Proof.
  intros Hsh (k & Hk & Hf)%belowFile_spec. apply belowFile_spec.
  exists k. split; [done|]. by eapply isFile_shrinks.
Qed.

(** What does not exist does not come into existence when entries
    disappear. *)
Lemma notExist_shrinks (fs' fs : FS.t) (p : path) :
  shrinks fs' fs → FS.IsNotExist (FS.statErr fs p) = true →
  FS.IsNotExist (FS.statErr fs' p) = true.
Proof.
  intros Hsh [Hb Hp]%notExist_spec. apply notExist_spec. split.
  - destruct (FS.belowFile fs' p) eqn:Hb'; [|done].
    apply (belowFile_shrinks _ _ _ Hsh) in Hb'. congruence.
  - by eapply shrinks_absent.
Qed.

(** What [os.Stat] found and finds no more has lost its entry. *)
Lemma stat_lost (fs' fs : FS.t) (q : path) :
  shrinks fs' fs → is_Some (FS.stat fs q) → FS.stat fs' q = None →
  is_Some (FS.nodes fs !! q) ∧ FS.nodes fs' !! q = None.
Proof.
  intros Hsh [n [Hb Hn]%stat_Some%resolve_inl] Hgone. split; [by eauto|].
  destruct (FS.nodes fs' !! q) as [m|] eqn:Hm; [|done]. exfalso.
  assert (FS.resolve fs' q = inl m) as Hr%stat_Some; [|congruence].
  apply resolve_inl. split; [|done].
  destruct (FS.belowFile fs' q) eqn:Hb'; [|done].
  apply (belowFile_shrinks _ _ _ Hsh) in Hb'. congruence.
Qed.

(** After a removal that succeeded the path does not exist. *)
Lemma removeAll_notExist (fs : FS.t) (p : path) :
  (FS.removeAll fs p).2 = None →
  FS.IsNotExist (FS.statErr (FS.removeAll fs p).1 p) = true.
Proof.
  intros He. apply notExist_spec. split.
  - destruct (FS.belowFile _ p) eqn:Hb; [|done].
    apply (belowFile_shrinks _ fs) in Hb; [|apply removeAll_shrinks].
    by rewrite (removeAll_success _ _ He) in Hb.
  - by apply removeAll_gone.
Qed.

End fs_facts.

(** ** Deduplication: handling one dependency *)

Section dedup_step.
Import Filepath Dedup.

Lemma scanPaths_orig (depPath parentPath : path) (paths : list ChartPath_)
    (dup : bool) (orig : option path) :
  (scanPaths depPath parentPath paths dup orig).2 =
  match orig with
  | Some o => Some o
  | None => Path <$> head paths
  end.
Proof.
  revert dup orig. induction paths as [|e rest IH]; intros dup orig; simpl.
  - by destruct orig.
  - case_decide; simpl; [by destruct orig|].
    rewrite IH. by destruct orig.
Qed.

Lemma scanPaths_dup (depPath parentPath : path) (paths : list ChartPath_)
    (dup : bool) (orig : option path) :
  (scanPaths depPath parentPath paths dup orig).1 = true ↔
  (∀ e, e ∈ paths → Path e ≠ depPath) ∧
  (dup = true ∨ ∃ e, e ∈ paths ∧ ParentPath e = parentPath).
Proof.
  revert dup orig. induction paths as [|e rest IH]; intros dup orig; simpl.
  - split.
    + intros ->. split; [by intros e ?%elem_of_nil|by left].
    + intros [_ [?|(e & ?%elem_of_nil & _)]]; done.
  - case_decide as Hp; simpl.
    + split; [done|]. intros [Hno _]. exfalso. eapply Hno; [by left|done].
    + rewrite IH. split.
      * intros [Hno Hd]. split.
        { intros e' [->|?]%elem_of_cons; auto. }
        case_decide as Hpar.
        { right. exists e. split; [by left|done]. }
        destruct Hd as [?|(e' & ? & ?)]; [by left|].
        right. exists e'. split; [by right|done].
      * intros [Hno Hd]. split.
        { intros e' ?. apply Hno. by right. }
        case_decide as Hpar; [by left|].
        destruct Hd as [?|(e' & [->|?]%elem_of_cons & ?)]; [by left|done|].
        right. by exists e'.
Qed.

(** A dependency is condemned when no registered occurrence under its key
    has its path and one has its parent directory. *)
Lemma registerDependency_condemn (c : path) (d : Deduplicator) (dep : Dependency) :
  (∀ e, e ∈ registered d (Key dep) → Path e ≠ depPathOf c dep) →
  (∃ e, e ∈ registered d (Key dep) ∧ ParentPath e = Dir c) →
  registerDependency c d dep = condemn (record (Occurrence c dep) d) (depPathOf c dep).
Proof.
  unfold registered, registerDependency. simpl.
  destruct (overallDependencies d !! Key dep) as [paths|] eqn:Hk; simpl.
  - intros Hno Hpar.
    destruct (scanPaths (depPathOf c dep) (Dir c) paths false None)
      as [dup orig] eqn:Hs.
    pose proof (scanPaths_dup (depPathOf c dep) (Dir c) paths false None) as Hd.
    pose proof (scanPaths_orig (depPathOf c dep) (Dir c) paths false None) as Ho.
    rewrite Hs in Hd, Ho. simpl in Hd, Ho. subst orig.
    destruct dup; [|by exfalso; apply diff_false_true, Hd; auto]. clear Hd.
    case_decide as Ho; [done|]. exfalso.
    assert (Some (depPathOf c dep) = Path <$> head paths) as Heq.
    { destruct (decide (Some (depPathOf c dep) = Path <$> head paths)); [done|].
      by exfalso. }
    destruct paths as [|e rest]; simpl in Heq; [done|].
    injection Heq as Heq. eapply Hno; [by left|done].
  - intros _ (e & ?%elem_of_nil & _). done.
Qed.

(** Otherwise it is registered and kept. *)
Lemma registerDependency_keep (c : path) (d : Deduplicator) (dep : Dependency) :
  (∃ e, e ∈ registered d (Key dep) ∧ Path e = depPathOf c dep) ∨
  (∀ e, e ∈ registered d (Key dep) → ParentPath e ≠ Dir c) →
  registerDependency c d dep =
  keep (record (Occurrence c dep) d) (Key dep) (registered d (Key dep))
       (depPathOf c dep) (Dir c).
Proof.
  unfold registered, registerDependency. simpl.
  destruct (overallDependencies d !! Key dep) as [paths|] eqn:Hk; simpl; [|done].
  intros Hcase.
  destruct (scanPaths (depPathOf c dep) (Dir c) paths false None)
    as [dup orig] eqn:Hs.
  destruct dup; [|done]. exfalso.
  assert ((scanPaths (depPathOf c dep) (Dir c) paths false None).1 = true) as Hd
    by by rewrite Hs.
  apply scanPaths_dup in Hd as [Hno [?|(e & He & Hpar)]]; [done|].
  destruct Hcase as [(e' & He' & Hp)|Hall]; [exact (Hno _ He' Hp)|].
  exact (Hall _ He Hpar).
Qed.

Lemma registerDependency_cases (c : path) (d : Deduplicator) (dep : Dependency) :
  ((∀ e, e ∈ registered d (Key dep) → Path e ≠ depPathOf c dep) ∧
   (∃ e, e ∈ registered d (Key dep) ∧ ParentPath e = Dir c) ∧
   registerDependency c d dep = condemn (record (Occurrence c dep) d) (depPathOf c dep))
  ∨
  (((∃ e, e ∈ registered d (Key dep) ∧ Path e = depPathOf c dep) ∨
    (∀ e, e ∈ registered d (Key dep) → ParentPath e ≠ Dir c)) ∧
   registerDependency c d dep =
   keep (record (Occurrence c dep) d) (Key dep) (registered d (Key dep))
        (depPathOf c dep) (Dir c)).
Proof.
  destruct (decide (Exists (λ e, Path e = depPathOf c dep) (registered d (Key dep))))
    as [Hp|Hp].
  { right. apply Exists_exists in Hp. split; [by left|].
    apply registerDependency_keep. by left. }
  destruct (decide (Exists (λ e, ParentPath e = Dir c) (registered d (Key dep))))
    as [Hq|Hq].
  - left. apply Exists_exists in Hq.
    assert (∀ e, e ∈ registered d (Key dep) → Path e ≠ depPathOf c dep) as Hno.
    { intros e He Heq. apply Hp, Exists_exists. eauto. }
    split; [done|]. split; [done|]. by apply registerDependency_condemn.
  - right.
    assert (∀ e, e ∈ registered d (Key dep) → ParentPath e ≠ Dir c) as Hall.
    { intros e He Heq. apply Hq, Exists_exists. eauto. }
    split; [by right|]. apply registerDependency_keep. by right.
Qed.

Lemma history_registerDependency (c : path) (d : Deduplicator) (dep : Dependency) :
  history (registerDependency c d dep) = history d ++ [Occurrence c dep].
Proof.
  destruct (registerDependency_cases c d dep) as [(_ & _ & ->)|[_ ->]]; done.
Qed.

Lemma opts_registerDependency (c : path) (d : Deduplicator) (dep : Dependency) :
  opts (registerDependency c d dep) = opts d.
Proof.
  destruct (registerDependency_cases c d dep) as [(_ & _ & ->)|[_ ->]]; done.
Qed.

End dedup_step.

(** ** Deduplication: the traversal as a replay of its history *)

Section dedup_traversal.
Import Filepath Dedup.

Lemma elem_of_map {A B : Type} (f : A → B) (l : list A) (x : B) :
  x ∈ map f l ↔ ∃ y, x = f y ∧ y ∈ l.
Proof.
  rewrite list_elem_of_In, in_map_iff. split.
  - intros (y & <- & ?%list_elem_of_In). eauto.
  - intros (y & -> & ?%list_elem_of_In). eauto.
Qed.

Lemma replay_app (evs1 evs2 : list event) (d : Deduplicator) :
  replay (evs1 ++ evs2) d = replay evs2 (replay evs1 d).
Proof. unfold replay. apply fold_left_app. Qed.

Lemma history_applyEvent (d : Deduplicator) (ev : event) :
  history (applyEvent d ev) = history d ++ [ev].
Proof. destruct ev; simpl; [done|]. apply history_registerDependency. Qed.

Lemma history_replay (evs : list event) (d : Deduplicator) :
  history (replay evs d) = history d ++ evs.
Proof.
  revert d. induction evs as [|ev evs IH]; intros d; simpl.
  - by rewrite app_nil_r.
  - unfold replay in *. simpl. rewrite IH, history_applyEvent.
    by rewrite <- app_assoc.
Qed.

Lemma opts_replay (evs : list event) (d : Deduplicator) :
  opts (replay evs d) = opts d.
Proof.
  revert d. induction evs as [|ev evs IH]; intros d; [done|].
  unfold replay in *. simpl. rewrite IH.
  destruct ev; simpl; [done|]. apply opts_registerDependency.
Qed.

Lemma fold_registerDependency (c : path) (deps : list Dependency) (d : Deduplicator) :
  fold_left (registerDependency c) deps d = replay (map (Occurrence c) deps) d.
Proof.
  revert d. induction deps as [|dep deps IH]; intros d; [done|].
  simpl. by rewrite IH.
Qed.

Lemma eventOk_weaken (fs : FS.t) (p q : path) (ev : event) :
  p `prefix_of` q → eventOk fs q ev → eventOk fs p ev.
Proof.
  intros Hpq. destruct ev as [v|c dep]; simpl.
  - intros ?. by etrans.
  - intros [? ?]. split; [by etrans|done].
Qed.

Lemma eventOk_visit (fs : FS.t) (p : path) : Forall (eventOk fs p) [Visit p].
Proof. constructor; [simpl; reflexivity|constructor]. Qed.

Lemma walkEntries_spec (fs : FS.t)
    (rec : path → Deduplicator → Deduplicator * outcome)
    (chartsDir : path) (entries : list (string * bool))
    (d d' : Deduplicator) (out : outcome) :
  (∀ q d0 d1 o, rec q d0 = (d1, o) → traversalSpec fs q d0 d1 o) →
  (FS.valid fs → ∀ x b, (x, b) ∈ entries → plainName x = true) →
  walkEntries rec chartsDir entries d = (d', out) →
  traversalSpec fs chartsDir d d' out.
Proof.
  intros Hrec. revert d.
  induction entries as [|[name isDir] rest IH]; intros d Hnames; simpl.
  - intros [= <- <-]. exists []. split; [done|]. split; [by constructor|].
    by intros q e ?%elem_of_nil.
  - assert (FS.valid fs → ∀ x b, (x, b) ∈ rest → plainName x = true) as Hrest.
    { intros Hv x b Hx. eapply Hnames; [done|]. by right. }
    destruct isDir; [|by apply IH].
    case_bool_decide; [by apply IH|].
    destruct (rec (Join chartsDir [name]) d) as [d1 o] eqn:Hcall.
    apply Hrec in Hcall as (evs1 & -> & Hok1 & Hbad1).
    assert (FS.valid fs → Forall (eventOk fs chartsDir) evs1) as Hok1'.
    { intros Hv. eapply Forall_impl; [by apply Hok1|].
      intros ev. apply eventOk_weaken.
      rewrite Join_plain by (eapply Hnames; [done|by left]).
      by apply prefix_app_r. }
    destruct o.
    + intros (evs2 & -> & Hok2 & Hbad2)%IH; [|done].
      exists (evs1 ++ evs2). split; [by rewrite replay_app|].
      split.
      * intros Hv. apply Forall_app. auto.
      * intros q e [Hq|Hq]%elem_of_app Hb; [|by eapply Hbad2].
        by specialize (Hbad1 _ _ Hq Hb).
    + intros [= <- <-]. by exists evs1.
    + intros [= <- <-]. by exists evs1.
Qed.

Lemma processDependencies_spec (fuel : nat) (fs : FS.t) (p : path)
    (d d' : Deduplicator) (out : outcome) :
  processDependencies fuel fs p d = (d', out) → traversalSpec fs p d d' out.
Proof.
  revert p d d' out. induction fuel as [|fuel IH]; intros p d d' out; simpl.
  - intros [= <- <-]. exists []. split; [done|]. split; [by constructor|].
    by intros q e ?%elem_of_nil.
  - destruct (FS.stat fs (Join p ["Chart.yaml"])) as [n|] eqn:Hstat.
    + destruct (readChartYaml fs (Join p ["Chart.yaml"])) as [deps|e] eqn:Hread.
      * rewrite fold_registerDependency.
        set (evs0 := Visit p :: map (Occurrence p) deps).
        assert (replay (map (Occurrence p) deps) (record (Visit p) d) = replay evs0 d)
          as -> by done.
        assert (Forall (eventOk fs p) evs0) as Hok0.
        { constructor; [simpl; reflexivity|]. apply Forall_forall.
          intros ev (dep & -> & Hdep)%elem_of_map. simpl. eauto. }
        assert (∀ q e, Visit q ∈ evs0 → badManifest fs q e → False) as Hbad0.
        { intros q e [[= <-]|(dep & [=] & _)%elem_of_map]%elem_of_cons [_ Hb].
          congruence. }
        destruct (FS.stat fs (Join p ["charts"])) as [m|] eqn:Hcharts.
        2:{ intros [= <- <-]. exists evs0. split; [done|]. split; [done|].
            intros q e Hq Hb. by destruct (Hbad0 _ _ Hq Hb). }
        destruct (FS.readDir fs (Join p ["charts"])) as [entries|e] eqn:Hdir.
        2:{ intros [= <- <-]. exists evs0. split; [done|]. split; [done|].
            intros q e' Hq Hb. by destruct (Hbad0 _ _ Hq Hb). }
        intros Hwalk. eapply walkEntries_spec in Hwalk; [|by apply IH|].
        -- destruct Hwalk as (evs1 & -> & Hok1 & Hbad1).
           exists (evs0 ++ evs1). split; [by rewrite replay_app|]. split.
           ++ intros Hv. apply Forall_app. split; [done|].
              eapply Forall_impl; [by apply Hok1|]. intros ev.
              apply eventOk_weaken. rewrite Join_charts. by apply prefix_app_r.
           ++ intros q e [Hq|Hq]%elem_of_app Hb; [|by eapply Hbad1].
              by destruct (Hbad0 _ _ Hq Hb).
        -- intros Hv x b Hx.
           apply (elem_of_readDir _ _ _ _ _ Hdir) in Hx as (nx & Hnx & _).
           eapply valid_entry_name; [done|]. by exists nx.
      * intros [= <- <-]. exists [Visit p]. split; [done|]. split.
        { intros _. apply eventOk_visit. }
        intros q e' [= <-]%list_elem_of_singleton [_ Hb]. congruence.
    + set (evs0 := [Visit p]).
      assert (∀ q e, Visit q ∈ evs0 → badManifest fs q e → False) as Hbad0.
      { intros q e [= <-]%list_elem_of_singleton [[? Hs] _].
        unfold FS.stat in *. congruence. }
      destruct (FS.stat fs (Join p ["charts"])) as [m|] eqn:Hcharts.
      2:{ intros [= <- <-]. exists evs0. split; [done|]. split.
          { intros _. apply eventOk_visit. }
          intros q e Hq Hb. by destruct (Hbad0 _ _ Hq Hb). }
      destruct (FS.readDir fs (Join p ["charts"])) as [entries|e] eqn:Hdir.
      2:{ intros [= <- <-]. exists evs0. split; [done|]. split.
          { intros _. apply eventOk_visit. }
          intros q e' Hq Hb. by destruct (Hbad0 _ _ Hq Hb). }
      intros Hwalk. eapply walkEntries_spec in Hwalk; [|by apply IH|].
      * destruct Hwalk as (evs1 & -> & Hok1 & Hbad1).
        exists (evs0 ++ evs1). split; [by rewrite replay_app|]. split.
        -- intros Hv. apply Forall_app. split; [apply eventOk_visit|].
           eapply Forall_impl; [by apply Hok1|]. intros ev.
           apply eventOk_weaken. rewrite Join_charts. by apply prefix_app_r.
        -- intros q e [Hq|Hq]%elem_of_app Hb; [|by eapply Hbad1].
           by destruct (Hbad0 _ _ Hq Hb).
      * intros Hv x b Hx.
        apply (elem_of_readDir _ _ _ _ _ Hdir) in Hx as (nx & Hnx & _).
        eapply valid_entry_name; [done|]. by exists nx.
Qed.

End dedup_traversal.

(** ** Deduplication: whole runs *)

Section dedup_run.
Import Filepath Dedup.

Lemma DeduplicateChart_traversal (fs : FS.t) (d : Deduplicator) (root : path) :
  ∃ out, processDependencies (fuelFor fs) fs root d =
         ((DeduplicateChart fs d root).1.2, out) ∧
         (DeduplicateChart fs d root).2 =
         match out with
         | OutOfFuel => None
         | Failed e => Some (Err e)
         | Done =>
             if negb (DryRun (opts (DeduplicateChart fs d root).1.2)) then
               match removePaths fs (deleteDependencies (DeduplicateChart fs d root).1.2) with
               | (_, Some e) => Some (Err e)
               | (_, None) => Some (Ok (deleteDependencies (DeduplicateChart fs d root).1.2))
               end
             else Some (Ok (deleteDependencies (DeduplicateChart fs d root).1.2))
         end ∧
         (DeduplicateChart fs d root).1.1 =
         match out with
         | Done =>
             if negb (DryRun (opts (DeduplicateChart fs d root).1.2))
             then (removePaths fs (deleteDependencies (DeduplicateChart fs d root).1.2)).1
             else fs
         | _ => fs
         end.
Proof.
  unfold DeduplicateChart.
  destruct (processDependencies (fuelFor fs) fs root d) as [d' out].
  exists out. destruct out; simpl; [|done|done].
  destruct (DryRun (opts d')) eqn:Hdry; simpl; [by rewrite Hdry|].
  destruct (removePaths fs (deleteDependencies d')) as [fs' [e|]] eqn:Hrm;
    simpl; by rewrite Hdry, ?Hrm.
Qed.

(** The deduplicator after a run is the replay of its own history. *)
Lemma DeduplicateChart_replay (fs : FS.t) (o : Options) (root : path) :
  let d' := (DeduplicateChart fs (NewDeduplicator o) root).1.2 in
  d' = replay (history d') (NewDeduplicator o) ∧
  (FS.valid fs → Forall (eventOk fs root) (history d')).
Proof.
  intros d'. destruct (DeduplicateChart_traversal fs (NewDeduplicator o) root)
    as (out & Hrun & _).
  apply processDependencies_spec in Hrun as (evs & Hd & Hok & _).
  fold d' in Hd. rewrite Hd at 2 3. rewrite history_replay. simpl. done.
Qed.

End dedup_run.

(** C5. When the deduplication traversal visits a chart whose manifest is
    present but cannot be read or parsed, [DeduplicateChart] returns that
    error and the file system is exactly as before: nothing was removed,
    whatever had been condemned before the failing chart. *)
Theorem dedup_bad_manifest_aborts (fs : FS.t) (o : Dedup.Options) (root q : path)
    (e : error) :
  let run := Dedup.DeduplicateChart fs (Dedup.NewDeduplicator o) root in
  Dedup.Visit q ∈ Dedup.history run.1.2 →
  badManifest fs q e →
  run.2 = Some (Err e) ∧ run.1.1 = fs.
Proof.
  intros run Hq Hbad. subst run.
  destruct (DeduplicateChart_traversal fs (Dedup.NewDeduplicator o) root)
    as (out & Hrun & Hres & Hfs).
  apply processDependencies_spec in Hrun as (evs & Hd & _ & Hfail).
  rewrite Hd, history_replay in Hq. simpl in Hq.
  rewrite (Hfail _ _ Hq Hbad) in Hres, Hfs. done.
Qed.

Lemma dedup_bad_manifest_aborts_witness :
  let run := Dedup.DeduplicateChart brokenTree
               (Dedup.NewDeduplicator (dedupOptions ["r"] false)) ["r"] in
  run.2 = Some (Err EYaml) ∧ run.1.1 = brokenTree.
Proof.
  apply (dedup_bad_manifest_aborts brokenTree (dedupOptions ["r"] false) ["r"]
           ["r"; "charts"; "c"] EYaml).
  - apply (bool_decide_unpack _). vm_compute. exact I.
  - split; [vm_compute; eexists; reflexivity|]. vm_compute. reflexivity.
Defined.

(** ** Deduplication: what the registry and the deletion set hold *)

Section dedup_invariants.
Import Filepath Dedup.
Variable o : Options.

Let init := NewDeduplicator o.

Lemma replay_snoc (evs : list event) (ev : event) (d : Deduplicator) :
  replay (evs ++ [ev]) d = applyEvent (replay evs d) ev.
Proof. by rewrite replay_app. Qed.

Lemma registered_keep (d : Deduplicator) (k k' : string)
    (paths : list ChartPath_) (p par : path) :
  registered (keep d k paths p par) k' =
  if decide (k' = k) then paths ++ [mkChartPath p par] else registered d k'.
Proof.
  unfold registered at 1. simpl. case_decide as Hk.
  - subst k'. by rewrite lookup_insert_eq.
  - by rewrite lookup_insert_ne.
Qed.

(** The registry, the kept list and the deletion set only grow. *)
Lemma applyEvent_grows (d : Deduplicator) (ev : event) :
  (∀ k e, e ∈ registered d k → e ∈ registered (applyEvent d ev) k) ∧
  currentDependencies d `prefix_of` currentDependencies (applyEvent d ev) ∧
  deleteDependencies d `prefix_of` deleteDependencies (applyEvent d ev).
Proof.
  destruct ev as [q|c dep]; simpl; [done|].
  destruct (registerDependency_cases c d dep) as [(_ & _ & ->)|[_ ->]].
  - split; [done|]. split; [done|]. simpl. by apply prefix_app_r.
  - split; [|split; [simpl; by apply prefix_app_r|done]].
    intros k e He.
    rewrite registered_keep. case_decide; [|done].
    subst k. apply elem_of_app. by left.
Qed.

Lemma replay_grows (evs : list event) (d : Deduplicator) :
  (∀ k e, e ∈ registered d k → e ∈ registered (replay evs d) k) ∧
  currentDependencies d `prefix_of` currentDependencies (replay evs d) ∧
  deleteDependencies d `prefix_of` deleteDependencies (replay evs d).
Proof.
  induction evs as [|ev evs IH] using rev_ind; [done|].
  rewrite replay_snoc.
  destruct IH as (Hr & Hc & Hd).
  destruct (applyEvent_grows (replay evs d) ev) as (Hr' & Hc' & Hd').
  split; [by auto|]. split; by etrans.
Qed.

(** Every registered occurrence comes from a dependency handled before,
    under that key, with the path and the parent of that dependency. *)
Lemma registered_from_history (evs : list event) (k : string) (e : ChartPath_) :
  e ∈ registered (replay evs init) k →
  ∃ c dep, Occurrence c dep ∈ evs ∧ Key dep = k ∧
           Path e = depPathOf c dep ∧ ParentPath e = Dir c.
Proof.
  revert k e. induction evs as [|ev evs IH] using rev_ind; intros k e.
  { by intros ?%elem_of_nil. }
  rewrite replay_snoc.
  assert (e ∈ registered (replay evs init) k →
          ∃ c dep, Occurrence c dep ∈ evs ++ [ev] ∧ Key dep = k ∧
                   Path e = depPathOf c dep ∧ ParentPath e = Dir c) as Hold.
  { intros (c & dep & ? & ?)%IH. exists c, dep. split; [|done].
    apply elem_of_app. by left. }
  destruct ev as [q|c dep]; simpl; [done|].
  destruct (registerDependency_cases c (replay evs init) dep)
    as [(_ & _ & ->)|[_ ->]]; [done|].
  rewrite registered_keep. case_decide as Hk; [subst k|done].
  intros [?|Heq%list_elem_of_singleton]%elem_of_app; [by auto|]. subst e.
  exists c, dep. split; [|done]. apply elem_of_app. right. by left.
Qed.


(** Every condemned path is the path of a dependency that, when it was
    handled, found under its key no occurrence with its path and one with
    its parent directory. *)
Lemma condemned_from_history (evs : list event) (p : path) :
  p ∈ deleteDependencies (replay evs init) →
  ∃ g1 c dep g2,
    evs = g1 ++ Occurrence c dep :: g2 ∧ p = depPathOf c dep ∧
    (∀ e, e ∈ registered (replay g1 init) (Key dep) → Path e ≠ p) ∧
    (∃ e, e ∈ registered (replay g1 init) (Key dep) ∧ ParentPath e = Dir c).
Proof.
  induction evs as [|ev evs IH] using rev_ind.
  { by intros ?%elem_of_nil. }
  rewrite replay_snoc.
  assert (p ∈ deleteDependencies (replay evs init) →
    ∃ g1 c dep g2,
      evs ++ [ev] = g1 ++ Occurrence c dep :: g2 ∧ p = depPathOf c dep ∧
      (∀ e, e ∈ registered (replay g1 init) (Key dep) → Path e ≠ p) ∧
      (∃ e, e ∈ registered (replay g1 init) (Key dep) ∧ ParentPath e = Dir c))
    as Hold.
  { intros (g1 & c & dep & g2 & -> & ?)%IH.
    exists g1, c, dep, (g2 ++ [ev]). split; [|done].
    by rewrite <- app_assoc. }
  destruct ev as [q|c dep]; simpl; [done|].
  destruct (registerDependency_cases c (replay evs init) dep)
    as [(Hno & Hpar & ->)|[_ ->]]; [|done].
  simpl. intros [?|Heq%list_elem_of_singleton]%elem_of_app; [by auto|]. subst p.
  by exists evs, c, dep, [].
Qed.

(** A dependency that finds under its key no occurrence with its parent
    directory is appended to the kept list. *)
Lemma kept_when_new_parent (evs : list event) (c : path) (dep : Dependency) :
  (∀ c0 dep0, Occurrence c0 dep0 ∈ evs → Key dep0 = Key dep → Dir c0 ≠ Dir c) →
  let d := replay (evs ++ [Occurrence c dep]) init in
  depPathOf c dep ∈ currentDependencies d ∧
  mkChartPath (depPathOf c dep) (Dir c) ∈ registered d (Key dep) ∧
  deleteDependencies d = deleteDependencies (replay evs init).
Proof.
  intros Hnew d. subst d. rewrite replay_snoc. simpl.
  rewrite registerDependency_keep.
  - rewrite registered_keep, decide_True by done. simpl.
    split; [apply elem_of_app; right; by left|].
    split; [apply elem_of_app; right; by left|done].
  - right. intros e (c0 & dep0 & Hin & Hk & _ & Hpar)%registered_from_history.
    rewrite Hpar. by eapply Hnew.
Qed.


End dedup_invariants.

Section dedup_first_occurrence.
Import Filepath Dedup.
Variable o : Options.

Lemma cons_middle_app {A : Type} (l1 l2 : list A) (x : A) :
  l1 ++ x :: l2 = (l1 ++ [x]) ++ l2.
Proof. by rewrite <- app_assoc. Qed.

(** The first dependency handled under a key for a parent directory is
    registered and kept. *)
Lemma first_at_parent_kept (h1 h2 : list event) (c : path) (dep : Dependency) :
  (∀ c0 dep0, Occurrence c0 dep0 ∈ h1 → Key dep0 = Key dep → Dir c0 ≠ Dir c) →
  let d := replay (h1 ++ Occurrence c dep :: h2) (NewDeduplicator o) in
  depPathOf c dep ∈ currentDependencies d ∧
  mkChartPath (depPathOf c dep) (Dir c) ∈ registered d (Key dep).
Proof.
  intros Hfirst d. subst d. rewrite cons_middle_app, replay_app.
  destruct (kept_when_new_parent o h1 c dep Hfirst) as (Hk & Hr & _).
  destruct (replay_grows h2 (replay (h1 ++ [Occurrence c dep]) (NewDeduplicator o)))
    as (Hgr & Hgc & _).
  split; [|by apply Hgr].
  eapply elem_of_prefix; [exact Hk|exact Hgc].
Qed.

(** It is never condemned, as long as every dependency with its path has
    its key and its parent directory. *)
Lemma first_at_parent_not_condemned (h1 h2 : list event) (c : path)
    (dep : Dependency) :
  (∀ c0 dep0, Occurrence c0 dep0 ∈ h1 → Key dep0 = Key dep → Dir c0 ≠ Dir c) →
  (∀ c' dep', Occurrence c' dep' ∈ h1 ++ Occurrence c dep :: h2 →
              depPathOf c' dep' = depPathOf c dep →
              Key dep' = Key dep ∧ Dir c' = Dir c) →
  depPathOf c dep ∉
    deleteDependencies (replay (h1 ++ Occurrence c dep :: h2) (NewDeduplicator o)).
Proof.
  intros Hfirst Hsame Hin.
  apply condemned_from_history in Hin
    as (g1 & c' & dep' & g2 & Hsplit & Hp & Hno & (e & He & Hpar)).
  destruct (Hsame c' dep') as [Hk Hd]; [|done|].
  { rewrite Hsplit. apply elem_of_app. right. by left. }
  rewrite Hk in Hno, He. rewrite Hd in Hpar.
  assert (∀ c0 dep0, Occurrence c0 dep0 ∈ g1 → Key dep0 = Key dep →
                     Dir c0 = Dir c → Occurrence c0 dep0 ∉ h1) as Hnot.
  { intros c0 dep0 _ Hk0 Hd0 Hin0. by eapply Hfirst. }
  pose proof He as He'.
  apply registered_from_history in He' as (c0 & dep0 & Hin0 & Hk0 & _ & Hpar0).
  rewrite Hpar in Hpar0. symmetry in Hpar0.
  apply app_eq_inv in Hsplit as [(k & Hh1 & Hrest)|(k & Hg1 & Hrest)].
  - subst h1. eapply Hfirst; [|done|done]. apply elem_of_app. by left.
  - destruct k as [|x k].
    + rewrite app_nil_r in Hg1. subst g1. by eapply Hfirst.
    + injection Hrest as <- _. subst g1.
      eapply (Hno (mkChartPath (depPathOf c dep) (Dir c))); [|done].
      by apply first_at_parent_kept.
Qed.

End dedup_first_occurrence.


(** C2 (amended). Two charts with different parent directories declare a
    dependency under the same key. When no dependency handled earlier under
    that key string was declared by a chart with the parent directory of
    the first, respectively of the second, both paths are registered as
    kept; and a path is never added to the deletion set as long as every
    dependency with that path has that key and that parent directory. *)
Theorem dedup_different_parents_kept (fs : FS.t) (o : Dedup.Options)
    (root : path) (h1 h2 h3 : list Dedup.event) (c1 c2 : path)
    (dep1 dep2 : Dedup.Dependency) :
  let d' := (Dedup.DeduplicateChart fs (Dedup.NewDeduplicator o) root).1.2 in
  let p1 := Dedup.depPathOf c1 dep1 in
  let p2 := Dedup.depPathOf c2 dep2 in
  Dedup.history d' =
    h1 ++ Dedup.Occurrence c1 dep1 :: h2 ++ Dedup.Occurrence c2 dep2 :: h3 →
  Dedup.Key dep1 = Dedup.Key dep2 →
  Filepath.Dir c1 ≠ Filepath.Dir c2 →
  (∀ c dep, Dedup.Occurrence c dep ∈ h1 → Dedup.Key dep = Dedup.Key dep1 →
            Filepath.Dir c ≠ Filepath.Dir c1) →
  (∀ c dep, Dedup.Occurrence c dep ∈ h1 ++ h2 → Dedup.Key dep = Dedup.Key dep2 →
            Filepath.Dir c ≠ Filepath.Dir c2) →
  p1 ∈ Dedup.currentDependencies d' ∧
  p2 ∈ Dedup.currentDependencies d' ∧
  ((∀ c dep, Dedup.Occurrence c dep ∈ Dedup.history d' →
             Dedup.depPathOf c dep = p1 →
             Dedup.Key dep = Dedup.Key dep1 ∧ Filepath.Dir c = Filepath.Dir c1) →
   p1 ∉ Dedup.deleteDependencies d') ∧
  ((∀ c dep, Dedup.Occurrence c dep ∈ Dedup.history d' →
             Dedup.depPathOf c dep = p2 →
             Dedup.Key dep = Dedup.Key dep2 ∧ Filepath.Dir c = Filepath.Dir c2) →
   p2 ∉ Dedup.deleteDependencies d').
Proof.
  intros d' p1 p2 Hhist Hkey Hdir Hfirst1 Hfirst2.
  destruct (DeduplicateChart_replay fs o root) as [Hrep _].
  fold d' in Hrep. rewrite Hhist in Hrep.
  assert (∀ c dep,
    Dedup.Occurrence c dep ∈ h1 ++ Dedup.Occurrence c1 dep1 :: h2 →
    Dedup.Key dep = Dedup.Key dep2 → Filepath.Dir c ≠ Filepath.Dir c2) as Hfirst2'.
  { intros c dep [Hin|[Heq|Hin]%elem_of_cons]%elem_of_app Hk.
    - eapply Hfirst2; [|done]. apply elem_of_app. by left.
    - by injection Heq as -> ->.
    - eapply Hfirst2; [|done]. apply elem_of_app. by right. }
  assert (h1 ++ Dedup.Occurrence c1 dep1 :: h2 ++ Dedup.Occurrence c2 dep2 :: h3 =
          (h1 ++ Dedup.Occurrence c1 dep1 :: h2) ++ Dedup.Occurrence c2 dep2 :: h3)
    as Hassoc by (by rewrite <- app_assoc).
  split; [|split; [|split]].
  - rewrite Hrep. by apply first_at_parent_kept.
  - rewrite Hrep, Hassoc. by apply first_at_parent_kept.
  - intros Hsame. rewrite Hrep. apply first_at_parent_not_condemned; [done|].
    intros c dep Hin. apply Hsame. by rewrite Hhist.
  - intros Hsame. rewrite Hrep, Hassoc.
    apply first_at_parent_not_condemned; [done|].
    intros c dep Hin. apply Hsame. by rewrite Hhist, Hassoc.
Qed.

Lemma dedup_different_parents_kept_witness :
  let d' := (Dedup.DeduplicateChart contextTree
               (Dedup.NewDeduplicator (dedupOptions ["r"] false)) ["r"]).1.2 in
  ["r"; "charts"; "x"] ∈ Dedup.currentDependencies d' ∧
  ["r"; "charts"; "a"; "charts"; "x"] ∈ Dedup.currentDependencies d' ∧
  (["r"; "charts"; "x"] ∉ Dedup.deleteDependencies d') ∧
  (["r"; "charts"; "a"; "charts"; "x"] ∉ Dedup.deleteDependencies d').
Proof.
  pose proof (dedup_different_parents_kept contextTree
    (dedupOptions ["r"] false) ["r"]
    [Dedup.Visit ["r"]] [Dedup.Visit ["r"; "charts"; "a"]] []
    ["r"] ["r"; "charts"; "a"]
    (Dedup.mkDependency "x" "1") (Dedup.mkDependency "x" "1")) as H.
  simpl in H.
  destruct H as (H1 & H2 & Hn1 & Hn2).
  - vm_compute. reflexivity.
  - reflexivity.
  - discriminate.
  - intros c dep Hin. apply list_elem_of_In in Hin. simpl in Hin.
    destruct Hin as [[=]|[]].
  - intros c dep Hin. apply list_elem_of_In in Hin. simpl in Hin.
    destruct Hin as [[=]|[[=]|[]]].
  - split; [exact H1|]. split; [exact H2|]. split.
    + apply Hn1. intros c dep Hin. revert Hin. vm_compute.
      intros Hin. apply list_elem_of_In in Hin. simpl in Hin.
      destruct Hin as [[=]|[[= <- <-]|[[=]|[[= <- <-]|[]]]]];
        [done|intros [=]].
    + apply Hn2. intros c dep Hin. revert Hin. vm_compute.
      intros Hin. apply list_elem_of_In in Hin. simpl in Hin.
      destruct Hin as [[=]|[[= <- <-]|[[=]|[[= <- <-]|[]]]]];
        [intros [=]|done].
Defined.

(** C2, as stated, fails: in [collisionTree] the root and chart b, whose
    parent directories differ, are the only charts that declare x at
    version 1-2, and the path of the occurrence under b is added to the
    deletion set. *)
Lemma dedup_key_collision_condemns :
  let d' := (Dedup.DeduplicateChart collisionTree
               (Dedup.NewDeduplicator (dedupOptions ["r"] true)) ["r"]).1.2 in
  let x := Dedup.mkDependency "x" "1-2" in
  Filepath.Dir ["r"] ≠ Filepath.Dir ["r"; "charts"; "b"] ∧
  List.filter (handles x) (Dedup.history d') =
    [Dedup.Occurrence ["r"] x; Dedup.Occurrence ["r"; "charts"; "b"] x] ∧
  Dedup.depPathOf ["r"; "charts"; "b"] x ∈ Dedup.deleteDependencies d'.
Proof.
  split; [discriminate|]. split.
  - vm_compute. reflexivity.
  - apply (bool_decide_unpack _). vm_compute. exact I.
Qed.

Section dedup_shape.
Import Filepath Dedup.

Lemma plainDepsb_plainDeps (fs : FS.t) : plainDepsb fs = true → plainDeps fs.
Proof.
  unfold plainDepsb. rewrite forallb_forall. intros H q r deps Hq.
  specialize (H (q, FS.RegularFile r (Some deps))). simpl in H.
  rewrite forallb_forall in H. apply Forall_forall. intros y Hy.
  apply H.
  - apply list_elem_of_In. by apply elem_of_map_to_list.
  - by apply list_elem_of_In.
Qed.

Lemma declared_name_plain (fs : FS.t) (q : path) (deps : list Dependency)
    (dep : Dependency) :
  plainDeps fs → readChartYaml fs q = Ok deps → dep ∈ deps →
  plainName (Name dep) = true.
Proof.
  intros Hplain. unfold readChartYaml.
  destruct (FS.readYaml fs q) as [ydeps|e] eqn:Hq; [|done].
  apply readYaml_Ok, stat_lookup in Hq.
  intros [= <-] (y & -> & Hy)%elem_of_map. simpl.
  specialize (Hplain _ _ _ Hq). rewrite Forall_forall in Hplain. auto.
Qed.

End dedup_shape.

(** C10 (amended). When the dependency names declared in the manifests are
    names of directory entries, every path in the deletion set is
    <chartDir>/charts/<dependencyName> for a chart directory at or below the
    root and a dependency handled there; so it is never the root. *)
Theorem dedup_condemned_path_shape (fs : FS.t) (o : Dedup.Options)
    (root p : path) :
  FS.valid fs → plainDeps fs →
  let d' := (Dedup.DeduplicateChart fs (Dedup.NewDeduplicator o) root).1.2 in
  p ∈ Dedup.deleteDependencies d' →
  (∃ c dep, Dedup.Occurrence c dep ∈ Dedup.history d' ∧ root `prefix_of` c ∧
            p = c ++ ["charts"; Dedup.Name dep]) ∧
  p ≠ root.
Proof.
  intros Hvalid Hplain d' Hp.
  destruct (DeduplicateChart_replay fs o root) as [Hrep Hok].
  fold d' in Hrep, Hok. specialize (Hok Hvalid).
  rewrite Hrep in Hp.
  apply condemned_from_history in Hp as (g1 & c & dep & g2 & Hsplit & -> & _).
  assert (Dedup.Occurrence c dep ∈ Dedup.history d') as Hin.
  { rewrite Hsplit. apply elem_of_app. right. by left. }
  rewrite Forall_forall in Hok.
  destruct (Hok _ Hin) as [Hpre (deps & Hread & Hdep)].
  pose proof (declared_name_plain _ _ _ _ Hplain Hread Hdep) as Hname.
  unfold Dedup.depPathOf. rewrite Join_charts_plain by done.
  split; [by eauto|].
  destruct Hpre as [k ->]. intros Heq.
  apply (f_equal length) in Heq. rewrite !length_app in Heq. simpl in Heq. lia.
Qed.

Lemma dedup_condemned_path_shape_witness :
  (∃ c dep,
     Dedup.Occurrence c dep ∈
       Dedup.history (Dedup.DeduplicateChart siblingsTree
         (Dedup.NewDeduplicator (dedupOptions ["r"] false)) ["r"]).1.2 ∧
     ["r"] `prefix_of` c ∧
     ["r"; "charts"; "b"; "charts"; "x"] = c ++ ["charts"; Dedup.Name dep]) ∧
  ["r"; "charts"; "b"; "charts"; "x"] ≠ ["r"].
Proof.
  apply (dedup_condemned_path_shape siblingsTree (dedupOptions ["r"] false) ["r"]
           ["r"; "charts"; "b"; "charts"; "x"]).
  - apply validb_valid. vm_compute. reflexivity.
  - apply plainDepsb_plainDeps. vm_compute. reflexivity.
  - apply (bool_decide_unpack _). vm_compute. exact I.
Defined.

(** C10, as stated, fails: with the manifest of [dotdotTree] the root chart
    itself is condemned, and a run that is not a dry run removes it. *)
Lemma dedup_can_condemn_root :
  let run := Dedup.DeduplicateChart dotdotTree
               (Dedup.NewDeduplicator (dedupOptions ["r"] false)) ["r"] in
  ["r"] ∈ Dedup.deleteDependencies run.1.2 ∧
  run.2 = Some (Ok [["r"]]) ∧
  FS.stat dotdotTree ["r"] = Some FS.Directory ∧
  FS.stat run.1.1 ["r"] = None ∧
  ¬ (∃ (c : path) (n : string), ["r"] = c ++ ["charts"; n]).
Proof.
  split; [apply (bool_decide_unpack _); vm_compute; exact I|].
  split; [vm_compute; reflexivity|].
  split; [vm_compute; reflexivity|].
  split; [vm_compute; reflexivity|].
  intros (c & n & Heq). apply (f_equal length) in Heq.
  rewrite length_app in Heq. simpl in Heq. lia.
Qed.

(** C8: evaluating the code where the claim fails. The manifest of
    [twiceTree] lists x 1 twice; the second time the expected path is
    already registered under the key, and the occurrence is registered and
    kept once more instead of being skipped. *)
Lemma dedup_revisit_registers_again :
  let d' := (Dedup.DeduplicateChart twiceTree
               (Dedup.NewDeduplicator (dedupOptions ["r"] true)) ["r"]).1.2 in
  let first := replay [Dedup.Visit ["r"];
                       Dedup.Occurrence ["r"] (Dedup.mkDependency "x" "1")]
                      (Dedup.NewDeduplicator (dedupOptions ["r"] true)) in
  d' = Dedup.registerDependency ["r"] first (Dedup.mkDependency "x" "1") ∧
  registered first "x-1" = [Dedup.mkChartPath ["r"; "charts"; "x"] []] ∧
  registered d' "x-1" = [Dedup.mkChartPath ["r"; "charts"; "x"] [];
                         Dedup.mkChartPath ["r"; "charts"; "x"] []] ∧
  Dedup.currentDependencies first = [["r"; "charts"; "x"]] ∧
  Dedup.currentDependencies d' = [["r"; "charts"; "x"]; ["r"; "charts"; "x"]] ∧
  Dedup.deleteDependencies d' = [].
Proof.
  split; [vm_compute; reflexivity|].
  repeat split; vm_compute; reflexivity.
Qed.

(** ** Dry runs *)

Section dedup_options.
Import Filepath Dedup.
Variable o : Options.

Lemma registerDependency_setOpts (c : path) (d : Deduplicator) (dep : Dependency) :
  registerDependency c (setOpts o d) dep = setOpts o (registerDependency c d dep).
Proof.
  unfold registerDependency. simpl.
  destruct (overallDependencies d !! Key dep) as [paths|]; [|done].
  destruct (scanPaths (depPathOf c dep) (Dir c) paths false None) as [[|] orig];
    [|done].
  by case_decide.
Qed.

Lemma fold_registerDependency_setOpts (c : path) (deps : list Dependency)
    (d : Deduplicator) :
  fold_left (registerDependency c) deps (setOpts o d) =
  setOpts o (fold_left (registerDependency c) deps d).
Proof.
  revert d. induction deps as [|dep deps IH]; intros d; [done|].
  simpl. by rewrite registerDependency_setOpts, IH.
Qed.

Lemma walkEntries_setOpts (rec : path → Deduplicator → Deduplicator * outcome)
    (chartsDir : path) (entries : list (string * bool)) (d : Deduplicator) :
  (∀ q d0, rec q (setOpts o d0) = (setOpts o (rec q d0).1, (rec q d0).2)) →
  walkEntries rec chartsDir entries (setOpts o d) =
  (setOpts o (walkEntries rec chartsDir entries d).1,
   (walkEntries rec chartsDir entries d).2).
Proof.
  intros Hrec. revert d.
  induction entries as [|[name isDir] rest IH]; intros d; [done|].
  simpl. destruct isDir; [|by apply IH].
  case_bool_decide; [by apply IH|].
  rewrite Hrec. destruct (rec (Join chartsDir [name]) d) as [d1 [|e|]]; simpl;
    [by apply IH|done|done].
Qed.

Lemma processDependencies_setOpts (fuel : nat) (fs : FS.t) (p : path)
    (d : Deduplicator) :
  processDependencies fuel fs p (setOpts o d) =
  (setOpts o (processDependencies fuel fs p d).1,
   (processDependencies fuel fs p d).2).
Proof.
  revert p d. induction fuel as [|fuel IH]; intros p d; [done|].
  simpl.
  change (record (Visit p) (setOpts o d)) with (setOpts o (record (Visit p) d)).
  destruct (FS.stat fs (Join p ["Chart.yaml"])) as [n|].
  - destruct (readChartYaml fs (Join p ["Chart.yaml"])) as [deps|e]; [|done].
    rewrite fold_registerDependency_setOpts.
    destruct (FS.stat fs (Join p ["charts"])); [|done].
    destruct (FS.readDir fs (Join p ["charts"])) as [entries|e]; [|done].
    by apply walkEntries_setOpts.
  - destruct (FS.stat fs (Join p ["charts"])); [|done].
    destruct (FS.readDir fs (Join p ["charts"])) as [entries|e]; [|done].
    by apply walkEntries_setOpts.
Qed.

End dedup_options.

Section cleanup_dry_run.
Import Filepath Cleanup.

Lemma cleanupDeps_cons (chartPath : path) (dep : FS.YamlDep)
    (rest : list FS.YamlDep) (fs : FS.t) (c : Cleaner) :
  cleanupDeps chartPath (dep :: rest) fs c =
  match candidate fs chartPath dep with
  | None => cleanupDeps chartPath rest fs c
  | Some p =>
      if negb (DryRun (opts c)) then
        match FS.removeAll fs p with
        | (fs', Some e) => (fs', c, Failed (EWrapPath "failed to remove directory" p e))
        | (fs', None) => cleanupDeps chartPath rest fs' (append c p)
        end
      else cleanupDeps chartPath rest fs (append c p)
  end.
Proof.
  unfold candidate. cbn [cleanupDeps].
  destruct (negb (HasPrefix (FS.depRepository dep) "file:")); [done|].
  destruct (FS.IsNotExist _); [done|].
  by destruct (bool_decide _).
Qed.

Lemma cleanupDeps_opts (chartPath : path) (deps : list FS.YamlDep) (fs : FS.t)
    (c : Cleaner) :
  opts (cleanupDeps chartPath deps fs c).1.2 = opts c.
Proof.
  revert fs c. induction deps as [|dep deps IH]; intros fs c; [done|].
  rewrite cleanupDeps_cons.
  destruct (candidate fs chartPath dep) as [p|]; [|by apply IH].
  destruct (negb _); [|by rewrite IH].
  destruct (FS.removeAll fs p) as [fs' [e|]]; [done|by rewrite IH].
Qed.

Lemma cleanupDeps_dry_run (chartPath : path) (deps : list FS.YamlDep) (fs : FS.t)
    (c : Cleaner) :
  DryRun (opts c) = true → (cleanupDeps chartPath deps fs c).1.1 = fs.
Proof.
  revert c. induction deps as [|dep deps IH]; intros c Hdry; [done|].
  rewrite cleanupDeps_cons.
  destruct (candidate fs chartPath dep) as [p|]; [|by apply IH].
  rewrite Hdry. simpl. by apply IH.
Qed.

Lemma cleanupFileDependencies_dry_run (fs : FS.t) (chartPath : path) (c : Cleaner) :
  DryRun (opts c) = true →
  (cleanupFileDependencies fs chartPath c).1.1 = fs ∧
  opts (cleanupFileDependencies fs chartPath c).1.2 = opts c.
Proof.
  intros Hdry. unfold cleanupFileDependencies.
  destruct (FS.readYaml fs _) as [deps|[]]; try done.
  split; [by apply cleanupDeps_dry_run|apply cleanupDeps_opts].
Qed.

Lemma walkEntries_dry_run
    (rec : FS.t → path → Cleaner → FS.t * Cleaner * outcome)
    (chartsDir : path) (files : list (string * bool)) (fs : FS.t) (c : Cleaner) :
  (∀ q c0, DryRun (opts c0) = true →
           (rec fs q c0).1.1 = fs ∧ opts (rec fs q c0).1.2 = opts c0) →
  DryRun (opts c) = true →
  (walkEntries rec chartsDir files fs c).1.1 = fs ∧
  opts (walkEntries rec chartsDir files fs c).1.2 = opts c.
Proof.
  intros Hrec. revert c.
  induction files as [|[name isDir] rest IH]; intros c Hdry; [done|].
  simpl. destruct isDir; [|by apply IH].
  destruct (Hrec (Join chartsDir [name]) c Hdry) as [Hfs Ho].
  destruct (rec fs (Join chartsDir [name]) c) as [[fs1 c1] [|e|]]; simpl in *;
    [|done|done].
  subst fs1. rewrite <- Ho. apply IH. by rewrite Ho.
Qed.

Lemma processChart_dry_run (fuel : nat) (fs : FS.t) (chartPath : path) (c : Cleaner) :
  DryRun (opts c) = true →
  (processChart fuel fs chartPath c).1.1 = fs ∧
  opts (processChart fuel fs chartPath c).1.2 = opts c.
Proof.
  revert chartPath c. induction fuel as [|fuel IH]; intros chartPath c Hdry; [done|].
  simpl. destruct (FS.IsNotExist _); [done|].
  destruct (cleanupFileDependencies_dry_run fs chartPath c Hdry) as [Hfs Ho].
  destruct (cleanupFileDependencies fs chartPath c) as [[fs1 c1] [|e|]];
    simpl in *; [|done|done].
  subst fs1. destruct (FS.stat fs (Join chartPath ["charts"])); [|done].
  destruct (FS.readDir fs (Join chartPath ["charts"])) as [files|e]; [|done].
  rewrite <- Ho. apply walkEntries_dry_run; [|by rewrite Ho].
  intros q c0. apply IH.
Qed.

End cleanup_dry_run.

Section dedup_removals.
Import Dedup.

(** When the removal loop succeeds, every path of the list is gone. *)
Lemma removePaths_gone (fs fs' : FS.t) (l : list path) :
  removePaths fs l = (fs', None) →
  shrinks fs' fs ∧ ∀ p, p ∈ l → FS.stat fs' p = None.
Proof.
  revert fs. induction l as [|p l IH]; intros fs.
  { intros [= <-]. split; [done|]. by intros p ?%elem_of_nil. }
  cbn [removePaths].
  pose proof (removeAll_shrinks fs p) as Hsh.
  pose proof (removeAll_gone fs p p) as Hgone.
  destruct (FS.removeAll fs p) as [fs1 [e|]]; [done|]. cbn [fst snd] in Hsh, Hgone.
  intros (Hsh' & Hl)%IH. split; [by etrans|].
  intros q [->|Hq]%elem_of_cons; [|by apply Hl].
  apply stat_absent. eapply shrinks_absent; [done|]. by apply Hgone.
Qed.

End dedup_removals.

(** C3 (amended). A dry run of either engine leaves the file system as it
    is, whatever the other flags. For deduplication the deletion set of a
    dry run is the deletion set of a run that is not one, on the same tree;
    when that run succeeds it returns this list and has removed exactly
    these paths, in this order. (For cleanup the two lists can differ.) *)
Theorem dry_run_faithful (fs : FS.t) (root : path) (out out' : option path)
    (pkg pkg' show show' verbose verbose' cshow cverbose : bool) :
  let dry := Dedup.DeduplicateChart fs
    (Dedup.NewDeduplicator (Dedup.mkOptions root out pkg true show verbose)) root in
  let real := Dedup.DeduplicateChart fs
    (Dedup.NewDeduplicator (Dedup.mkOptions root out' pkg' false show' verbose')) root in
  let cdry := Cleanup.Run fs (Cleanup.mkOptions root true cshow cverbose) in
  dry.1.1 = fs ∧
  cdry.1.1 = fs ∧
  Dedup.deleteDependencies dry.1.2 = Dedup.deleteDependencies real.1.2 ∧
  (∀ l, real.2 = Some (Ok l) →
        dry.2 = Some (Ok l) ∧
        Dedup.removePaths fs l = (real.1.1, None) ∧
        ∀ p, p ∈ l → FS.stat real.1.1 p = None).
Proof.
  intros dry real cdry.
  destruct (DeduplicateChart_traversal fs
    (Dedup.NewDeduplicator (Dedup.mkOptions root out pkg true show verbose)) root)
    as (o1 & Hrun1 & Hres1 & Hfs1).
  destruct (DeduplicateChart_traversal fs
    (Dedup.NewDeduplicator (Dedup.mkOptions root out' pkg' false show' verbose')) root)
    as (o2 & Hrun2 & Hres2 & Hfs2).
  fold dry in Hrun1, Hres1, Hfs1. fold real in Hrun2, Hres2, Hfs2.
  assert (Dedup.opts dry.1.2 = Dedup.mkOptions root out pkg true show verbose) as Ho1.
  { apply processDependencies_spec in Hrun1 as (evs & -> & _).
    by rewrite opts_replay. }
  assert (Dedup.opts real.1.2 = Dedup.mkOptions root out' pkg' false show' verbose')
    as Ho2.
  { apply processDependencies_spec in Hrun2 as (evs & -> & _).
    by rewrite opts_replay. }
  rewrite Ho1 in Hres1, Hfs1. rewrite Ho2 in Hres2, Hfs2.
  simpl in Hres1, Hfs1, Hres2, Hfs2.
  assert (dry.1.2 = setOpts (Dedup.mkOptions root out pkg true show verbose) real.1.2
          ∧ o1 = o2) as [Hd Ho].
  { pose proof (processDependencies_setOpts
      (Dedup.mkOptions root out pkg true show verbose) (Dedup.fuelFor fs) fs root
      (Dedup.NewDeduplicator (Dedup.mkOptions root out' pkg' false show' verbose')))
      as Hset.
    change (setOpts _ (Dedup.NewDeduplicator _))
      with (Dedup.NewDeduplicator (Dedup.mkOptions root out pkg true show verbose))
      in Hset.
    rewrite Hrun1, Hrun2 in Hset. by injection Hset as -> ->. }
  subst o2.
  split; [by destruct o1|].
  split; [apply processChart_dry_run; done|].
  split; [by rewrite Hd|].
  intros l Hl. rewrite Hl in Hres2.
  destruct o1; [|done|done].
  destruct (Dedup.removePaths fs (Dedup.deleteDependencies real.1.2))
    as [fs' [e|]] eqn:Hrm; [done|].
  injection Hres2 as ->. simpl in Hfs2.
  rewrite Hres1, Hd. simpl. rewrite Hfs2.
  split; [done|]. split; [done|]. by apply (removePaths_gone fs).
Qed.

Lemma dry_run_faithful_witness :
  let dry := Dedup.DeduplicateChart siblingsTree
    (Dedup.NewDeduplicator (Dedup.mkOptions ["r"] None false true true false)) ["r"] in
  let real := Dedup.DeduplicateChart siblingsTree
    (Dedup.NewDeduplicator (Dedup.mkOptions ["r"] None false false false false)) ["r"] in
  dry.2 = Some (Ok [["r"; "charts"; "b"; "charts"; "x"]]) ∧
  Dedup.removePaths siblingsTree [["r"; "charts"; "b"; "charts"; "x"]] =
    (real.1.1, None) ∧
  ∀ p, p ∈ [["r"; "charts"; "b"; "charts"; "x"]] → FS.stat real.1.1 p = None.
Proof.
  apply (dry_run_faithful siblingsTree ["r"] None None false false true false
           false false false false).
  vm_compute. reflexivity.
Defined.

(** C3, as stated, fails for cleanup: on [repeatedSourceTree] the dry run
    reports the source directory twice, the run that removes reports it
    once, having removed it when it met it first. *)
Lemma cleanup_dry_run_reports_more :
  let dry := Cleanup.Run repeatedSourceTree (cleanupOptions ["r"] true) in
  let real := Cleanup.Run repeatedSourceTree (cleanupOptions ["r"] false) in
  dry.2 = Done ∧ real.2 = Done ∧
  Cleanup.deletedPaths dry.1.2 = [["r"; "db"]; ["r"; "db"]] ∧
  Cleanup.deletedPaths real.1.2 = [["r"; "db"]] ∧
  Cleanup.deletedPaths dry.1.2 ≠ Cleanup.deletedPaths real.1.2.
Proof.
  repeat split; try (vm_compute; reflexivity).
  vm_compute. intros [=].
Qed.

(** ** Cleanup: what is removed *)

Section cleanup_removals.
Import Filepath Cleanup.

Lemma cleanupSpec_refl (fs : FS.t) (c : Cleaner) (out : outcome) :
  cleanupSpec fs c (fs, c, out).
Proof.
  split; [done|]. split; [done|]. exists []. simpl.
  split; [by rewrite app_nil_r|]. split; [by constructor|].
  intros q [n Hn] Hq. congruence.
Qed.

Lemma cleanupSpec_trans (fs fs1 : FS.t) (c c1 : Cleaner)
    (r : FS.t * Cleaner * outcome) :
  cleanupSpec fs c (fs1, c1, Done) → cleanupSpec fs1 c1 r → cleanupSpec fs c r.
Proof.
  intros (Hs1 & Ho1 & l1 & Hl1 & Hout1 & Hlost1) (Hs2 & Ho2 & l2 & Hl2 & Hout2 & Hlost2).
  simpl in *. split; [by etrans|]. split; [congruence|].
  exists (l1 ++ l2). split; [by rewrite Hl2, Hl1, app_assoc|].
  split; [by apply Forall_app|].
  intros q Hq Hgone.
  destruct (FS.nodes fs1 !! q) as [n|] eqn:Hq1.
  - destruct (Hlost2 q) as (p & ? & ? & [?|?]); [by eexists|done| |].
    + exists p. split; [done|]. split; [done|]. left. apply elem_of_app. by right.
    + exists p. auto.
  - destruct (Hlost1 q Hq Hq1) as (p & ? & ? & [?|[e [=]]]).
    exists p. split; [done|]. split; [done|]. left. apply elem_of_app. by left.
Qed.

Lemma candidate_outside (fs : FS.t) (chartPath : path) (dep : FS.YamlDep) (p : path) :
  candidate fs chartPath dep = Some p →
  outsideCharts p ∧ FS.IsNotExist (FS.statErr fs p) = false ∧
  p = originalDirPathOf chartPath (FS.depRepository dep).
Proof.
  unfold candidate. destruct (negb _); [done|].
  destruct (FS.IsNotExist _) eqn:Hs; [done|].
  case_bool_decide; [done|]. by intros [= <-].
Qed.

Lemma removeAll_lost (fs : FS.t) (p q : path) :
  is_Some (FS.nodes fs !! q) → FS.nodes (FS.removeAll fs p).1 !! q = None →
  p `prefix_of` q.
Proof.
  intros [n Hn] Hgone. destruct (decide (p `prefix_of` q)) as [|Hno]; [done|].
  rewrite removeAll_elsewhere in Hgone by done. congruence.
Qed.

Lemma cleanupDeps_spec (chartPath : path) (deps : list FS.YamlDep) (fs : FS.t)
    (c : Cleaner) :
  cleanupSpec fs c (cleanupDeps chartPath deps fs c).
Proof.
  revert fs c. induction deps as [|dep deps IH]; intros fs c.
  { apply cleanupSpec_refl. }
  rewrite cleanupDeps_cons.
  destruct (candidate fs chartPath dep) as [p|] eqn:Hcand; [|by apply IH].
  apply candidate_outside in Hcand as (Hout & _ & _).
  destruct (negb (DryRun (opts c))).
  - pose proof (removeAll_shrinks fs p) as Hsh.
    pose proof (removeAll_lost fs p) as Hlost.
    destruct (FS.removeAll fs p) as [fs' [e|]]; simpl in Hsh, Hlost.
    + split; [done|]. split; [done|]. exists []. simpl.
      split; [by rewrite app_nil_r|]. split; [by constructor|].
      intros q Hq Hgone. exists p. split; [by apply Hlost|]. split; [done|].
      right. by exists e.
    + eapply cleanupSpec_trans; [|by apply IH].
      split; [done|]. split; [done|]. exists [p]. simpl.
      split; [done|]. split; [by repeat constructor|].
      intros q Hq Hgone. exists p. split; [by apply Hlost|]. split; [done|].
      left. by left.
  - eapply cleanupSpec_trans; [|by apply IH].
    split; [done|]. split; [done|]. exists [p]. simpl.
    split; [done|]. split; [by repeat constructor|].
    intros q [n Hn] Hgone. congruence.
Qed.

Lemma cleanupFileDependencies_spec (fs : FS.t) (chartPath : path) (c : Cleaner) :
  cleanupSpec fs c (cleanupFileDependencies fs chartPath c).
Proof.
  unfold cleanupFileDependencies.
  destruct (FS.readYaml fs _) as [deps|[]]; try apply cleanupSpec_refl.
  apply cleanupDeps_spec.
Qed.

Lemma walkEntries_cleanupSpec
    (rec : FS.t → path → Cleaner → FS.t * Cleaner * outcome)
    (chartsDir : path) (files : list (string * bool)) (fs : FS.t) (c : Cleaner) :
  (∀ fs0 q c0, cleanupSpec fs0 c0 (rec fs0 q c0)) →
  cleanupSpec fs c (walkEntries rec chartsDir files fs c).
Proof.
  intros Hrec. revert fs c.
  induction files as [|[name isDir] rest IH]; intros fs c.
  { apply cleanupSpec_refl. }
  simpl. destruct isDir; [|by apply IH].
  pose proof (Hrec fs (Join chartsDir [name]) c) as Hcall.
  destruct (rec fs (Join chartsDir [name]) c) as [[fs1 c1] [|e|]]; [|done|done].
  eapply cleanupSpec_trans; [exact Hcall|apply IH].
Qed.

Lemma processChart_spec (fuel : nat) (fs : FS.t) (chartPath : path) (c : Cleaner) :
  cleanupSpec fs c (processChart fuel fs chartPath c).
Proof.
  revert fs chartPath c. induction fuel as [|fuel IH]; intros fs chartPath c.
  { apply cleanupSpec_refl. }
  simpl. destruct (FS.IsNotExist _); [apply cleanupSpec_refl|].
  pose proof (cleanupFileDependencies_spec fs chartPath c) as Hdeps.
  destruct (cleanupFileDependencies fs chartPath c) as [[fs1 c1] [|e|]];
    [|done|done].
  eapply cleanupSpec_trans; [exact Hdeps|].
  destruct (FS.stat fs1 (Join chartPath ["charts"])); [|apply cleanupSpec_refl].
  destruct (FS.readDir fs1 (Join chartPath ["charts"])) as [files|e];
    [|apply cleanupSpec_refl].
  apply walkEntries_cleanupSpec. intros fs0 q c0. apply IH.
Qed.

End cleanup_removals.

(** C4 (amended). Cleanup never records a path whose immediate parent is a
    charts directory, in a dry run or not; and every entry that a run makes
    disappear lies at or below a removal target that is not an immediate
    child of a charts directory: a recorded path, or the path whose removal
    failed. (A path whose parent is a charts directory can still disappear,
    when an ancestor of it is such a target.) *)
Theorem cleanup_targets_outside_charts (fs : FS.t) (o : Cleanup.Options) :
  let run := Cleanup.Run fs o in
  (∀ p, p ∈ Cleanup.deletedPaths run.1.2 →
        Filepath.Base (Filepath.Dir p) ≠ "charts") ∧
  (∀ q, is_Some (FS.stat fs q) → FS.stat run.1.1 q = None →
        ∃ p, p `prefix_of` q ∧ Filepath.Base (Filepath.Dir p) ≠ "charts" ∧
             (p ∈ Cleanup.deletedPaths run.1.2 ∨
              ∃ e, run.2 = Failed (EWrapPath "failed to remove directory" p e))).
Proof.
  intros run. subst run. unfold Cleanup.Run, Cleanup.Cleanup.
  set (r := Cleanup.processChart _ _ _ _).
  destruct (processChart_spec (Cleanup.fuelFor fs) fs
              (Cleanup.ChartPath (Cleanup.opts (Cleanup.NewCleaner o)))
              (Cleanup.NewCleaner o)) as (_ & _ & l & Hl & Hout & Hlost).
  fold r in Hl, Hlost. rewrite Hl.
  change (Cleanup.deletedPaths (Cleanup.NewCleaner o) ++ l) with l. split.
  - intros p Hp. rewrite Forall_forall in Hout. by apply Hout.
  - intros q Hq Hgone.
    destruct (processChart_spec (Cleanup.fuelFor fs) fs
                (Cleanup.ChartPath (Cleanup.opts (Cleanup.NewCleaner o)))
                (Cleanup.NewCleaner o)) as (Hsh & _).
    fold r in Hsh.
    destruct (stat_lost _ _ _ Hsh Hq Hgone) as [Hq' Hgone'].
    apply (Hlost q Hq' Hgone').
Qed.

(** C4, as stated, fails: in [chartsSourceTree] the first dependency
    resolves to r/charts/lib, whose parent is a charts directory; cleanup
    skips it, and then removes r/charts for the second dependency, so that
    r/charts/lib is deleted all the same. *)
Lemma cleanup_deletes_below_charts :
  let run := Cleanup.Run chartsSourceTree (cleanupOptions ["r"] false) in
  let target := Cleanup.originalDirPathOf ["r"] "file:./charts/lib" in
  target = ["r"; "charts"; "lib"] ∧
  Filepath.Base (Filepath.Dir target) = "charts" ∧
  FS.stat chartsSourceTree target = Some FS.Directory ∧
  run.2 = Done ∧
  FS.stat run.1.1 target = None.
Proof. repeat split; vm_compute; reflexivity. Qed.

(** [dedup.Run] rejects a root chart path that does not exist. *)
Lemma dedup_Run_rejects_missing_root (fs : FS.t) (o : Dedup.Options) :
  FS.IsNotExist (FS.statErr fs (Dedup.ChartPath o)) = true →
  Dedup.Run fs o =
    (fs, Some (Some (EMsgPath "chart path does not exist" (Dedup.ChartPath o)))).
Proof. intros Hroot. unfold Dedup.Run. by rewrite Hroot. Qed.

(** [cleanup.Run] returns nil whenever the root has no manifest, be it
    because the root itself does not exist. *)
Lemma cleanup_Run_without_manifest (fs : FS.t) (o : Cleanup.Options) :
  FS.IsNotExist (FS.statErr fs (Filepath.Join (Cleanup.ChartPath o) ["Chart.yaml"])) = true →
  Cleanup.Run fs o = (fs, Cleanup.NewCleaner o, Done).
Proof.
  intros Hroot. unfold Cleanup.Run, Cleanup.Cleanup, Cleanup.fuelFor.
  cbn [Cleanup.processChart Cleanup.opts Cleanup.NewCleaner Cleanup.ChartPath].
  by rewrite Hroot.
Qed.

(** C6: evaluating the code where the claim fails. With a root chart path
    that does not exist, [dedup.Run] is rejected at once; [cleanup.Run]
    has no such check, finds no manifest and returns nil. *)
Lemma cleanup_missing_root_succeeds :
  let fs := siblingsTree in
  let missing := ["nowhere"] in
  FS.stat fs missing = None ∧
  FS.statErr fs missing = Some FS.ENOENT ∧
  Dedup.Run fs (dedupOptions missing false) =
    (fs, Some (Some (EMsgPath "chart path does not exist" missing))) ∧
  Cleanup.Run fs (cleanupOptions missing false) =
    (fs, Cleanup.NewCleaner (cleanupOptions missing false), Done).
Proof. repeat split; vm_compute; reflexivity. Qed.

(** C7: evaluating the code where the claim fails. The manifest of the
    nested chart c of [brokenTree] is malformed; cleanup aborts, with an
    error that spells out no path. (When the manifest cannot be read, as in
    [unreadableTree], the error of the os package spells out its path.) *)
Lemma cleanup_parse_error_names_no_path :
  let run := Cleanup.Run brokenTree (cleanupOptions ["r"] false) in
  let run' := Cleanup.Run unreadableTree (cleanupOptions ["r"] false) in
  FS.readYaml brokenTree ["r"; "charts"; "c"; "Chart.yaml"] = Err EYaml ∧
  run.2 = Failed (EWrap "failed to parse Chart.yaml" EYaml) ∧
  (∀ e, run.2 = Failed e → errorPaths e = []) ∧
  (∀ e, run'.2 = Failed e → errorPaths e = [["r"; "charts"; "c"; "Chart.yaml"]]).
Proof.
  split; [vm_compute; reflexivity|]. split; [vm_compute; reflexivity|].
  split; intros e; vm_compute; by intros [= <-].
Qed.

(** ** Cleanup: a second run *)

Section cleanup_second_run.
Import Filepath Cleanup.

(** What [os.Stat] found is found as it was, as long as its entry is there. *)
Lemma stat_shrinks_kept (fs' fs : FS.t) (q : path) (n : FS.node) :
  shrinks fs' fs → FS.stat fs q = Some n → is_Some (FS.nodes fs' !! q) →
  FS.stat fs' q = Some n.
Proof.
  intros Hsh [Hb Hn]%stat_Some%resolve_inl [m Hm].
  apply stat_Some, resolve_inl. split.
  - destruct (FS.belowFile fs' q) eqn:Hb'; [|done].
    apply (belowFile_shrinks _ _ _ Hsh) in Hb'. congruence.
  - pose proof (shrinks_lookup _ _ _ _ Hsh Hm). congruence.
Qed.

(** And does not exist once its entry is gone. *)
Lemma stat_shrinks_gone (fs' fs : FS.t) (q : path) (n : FS.node) :
  shrinks fs' fs → FS.stat fs q = Some n → FS.nodes fs' !! q = None →
  FS.IsNotExist (FS.statErr fs' q) = true.
Proof.
  intros Hsh [Hb Hn]%stat_Some%resolve_inl Hgone. apply notExist_spec.
  split; [|done].
  destruct (FS.belowFile fs' q) eqn:Hb'; [|done].
  apply (belowFile_shrinks _ _ _ Hsh) in Hb'. congruence.
Qed.

Lemma readYaml_shrinks (fs' fs : FS.t) (q : path) (deps : list FS.YamlDep) :
  shrinks fs' fs → FS.readYaml fs q = Ok deps → is_Some (FS.nodes fs' !! q) →
  FS.readYaml fs' q = Ok deps.
Proof.
  intros Hsh Hread%readYaml_Ok Hq. apply readYaml_Ok.
  by eapply stat_shrinks_kept.
Qed.

(** The entries of a directory have the same ancestors. *)
Lemma belowFile_sibling (fs : FS.t) (p : path) (a b : string) :
  FS.belowFile fs (p ++ [a]) = true → FS.belowFile fs (p ++ [b]) = true.
Proof.
  intros (k & Hk & Hf)%belowFile_spec. apply belowFile_spec. exists k.
  rewrite length_app in *. simpl in *. split; [done|].
  rewrite take_app_le in * by lia. done.
Qed.

(** Next to what [os.Stat] finds, it fails only on what has no entry. *)
Lemma stat_sibling_None (fs : FS.t) (p : path) (a b : string) (n : FS.node) :
  FS.stat fs (p ++ [a]) = Some n → FS.stat fs (p ++ [b]) = None →
  FS.nodes fs !! (p ++ [b]) = None.
Proof.
  intros [Hb _]%stat_Some%resolve_inl Hnone.
  destruct (FS.nodes fs !! (p ++ [b])) as [m|] eqn:Hm; [|done]. exfalso.
  assert (FS.resolve fs (p ++ [b]) = inl m) as Hr%stat_Some; [|congruence].
  apply resolve_inl. split; [|done].
  destruct (FS.belowFile fs (p ++ [b])) eqn:Hb'; [|done].
  apply (belowFile_sibling _ _ _ a) in Hb'. congruence.
Qed.

Lemma stat_sibling_Some (fs : FS.t) (p : path) (a b : string) (n m : FS.node) :
  FS.stat fs (p ++ [a]) = Some n → FS.nodes fs !! (p ++ [b]) = Some m →
  FS.stat fs (p ++ [b]) = Some m.
Proof.
  intros [Hb _]%stat_Some%resolve_inl Hm.
  apply stat_Some, resolve_inl. split; [|done].
  destruct (FS.belowFile fs (p ++ [b])) eqn:Hb'; [|done].
  apply (belowFile_sibling _ _ _ a) in Hb'. congruence.
Qed.

Lemma candidate_shrinks (fs' fs : FS.t) (chartPath : path) (dep : FS.YamlDep) :
  shrinks fs' fs → candidate fs chartPath dep = None →
  candidate fs' chartPath dep = None.
Proof.
  intros Hsh. unfold candidate. destruct (negb _); [done|].
  destruct (FS.IsNotExist (FS.statErr fs _)) eqn:Hq.
  - intros _. rewrite (notExist_shrinks _ _ _ Hsh Hq). done.
  - destruct (bool_decide _); [|done]. intros _.
    by destruct (FS.IsNotExist (FS.statErr fs' _)).
Qed.

Lemma candidate_gone (fs : FS.t) (chartPath : path) (dep : FS.YamlDep) :
  FS.IsNotExist
    (FS.statErr fs (originalDirPathOf chartPath (FS.depRepository dep))) = true →
  candidate fs chartPath dep = None.
Proof. intros Hs. unfold candidate. rewrite Hs. by destruct (negb _). Qed.

(** What is settled stays settled when entries disappear. *)
Lemma settled_shrinks (fs' fs : FS.t) (p : path) :
  shrinks fs' fs → settled fs p → settled fs' p.
Proof.
  intros Hsh Hset. induction Hset as [p Hno|p deps Hread Hdeps Hcharts
                                       |p deps Hread Hdeps Hcharts Hsub IH].
  - apply settled_no_chart. by eapply notExist_shrinks.
  - pose proof Hread as Hm%readYaml_Ok.
    destruct (FS.nodes fs' !! Join p ["Chart.yaml"]) as [n|] eqn:Hm'.
    2:{ apply settled_no_chart. by eapply stat_shrinks_gone. }
    apply settled_leaf with deps.
    + eapply readYaml_shrinks; [done|done|by eexists].
    + eapply Forall_impl; [done|]. intros dep. by apply candidate_shrinks.
    + rewrite Join_manifest in Hm. rewrite Join_charts in *.
      apply stat_absent. eapply shrinks_absent; [done|].
      by eapply stat_sibling_None.
  - pose proof Hread as Hm%readYaml_Ok.
    destruct (FS.nodes fs' !! Join p ["Chart.yaml"]) as [n|] eqn:Hm'.
    2:{ apply settled_no_chart. by eapply stat_shrinks_gone. }
    assert (FS.readYaml fs' (Join p ["Chart.yaml"]) = Ok deps) as Hread'.
    { eapply readYaml_shrinks; [done|done|by eexists]. }
    assert (Forall (λ dep, candidate fs' p dep = None) deps) as Hdeps'.
    { eapply Forall_impl; [done|]. intros dep. by apply candidate_shrinks. }
    destruct (FS.stat fs' (Join p ["charts"])) as [m|] eqn:Hc;
      [|by apply settled_leaf with deps].
    pose proof (shrinks_lookup _ _ _ _ Hsh (stat_lookup _ _ _ Hc)) as Hc'.
    rewrite (stat_lookup _ _ _ Hcharts) in Hc'. injection Hc' as <-.
    apply settled_node with deps; [done|done|done|].
    intros x Hx. apply IH. by eapply shrinks_lookup.
Qed.

Lemma cleanupDeps_settled (chartPath : path) (deps : list FS.YamlDep) (fs : FS.t)
    (c : Cleaner) :
  Forall (λ dep, candidate fs chartPath dep = None) deps →
  cleanupDeps chartPath deps fs c = (fs, c, Done).
Proof.
  induction 1 as [|dep deps Hdep _ IH]; [done|].
  by rewrite cleanupDeps_cons, Hdep.
Qed.

Lemma walkEntries_settled
    (rec : FS.t → path → Cleaner → FS.t * Cleaner * outcome)
    (chartsDir : path) (files : list (string * bool)) (fs : FS.t) (c : Cleaner) :
  (∀ x, (x, true) ∈ files → rec fs (Join chartsDir [x]) c = (fs, c, Done)) →
  walkEntries rec chartsDir files fs c = (fs, c, Done).
Proof.
  induction files as [|[name isDir] rest IH]; intros Hrec; [done|].
  assert (∀ x, (x, true) ∈ rest → rec fs (Join chartsDir [x]) c = (fs, c, Done))
    as Hrest by (intros x Hx; apply Hrec; by right).
  simpl. destruct isDir; [|by apply IH].
  rewrite Hrec by by left. by apply IH.
Qed.

Lemma readYaml_Ok_exists (fs : FS.t) (q : path) (deps : list FS.YamlDep) :
  FS.readYaml fs q = Ok deps → FS.IsNotExist (FS.statErr fs q) = false.
Proof. intros Hread%readYaml_Ok. by eapply stat_notExist. Qed.

(** On a settled chart cleanup does nothing and returns nil. *)
Lemma processChart_settled (fs : FS.t) (p : path) :
  FS.valid fs → settled fs p →
  ∀ fuel c, (0 < fuel)%nat → (FS.depth fs < length p + fuel)%nat →
            processChart fuel fs p c = (fs, c, Done).
Proof.
  intros Hvalid Hset.
  induction Hset as [p Hno|p deps Hread Hdeps Hcharts
                     |p deps Hread Hdeps Hcharts Hsub IH];
    intros [|fuel] c Hpos Hfuel; try lia; simpl.
  - by rewrite Hno.
  - rewrite (readYaml_Ok_exists _ _ _ Hread).
    unfold cleanupFileDependencies. rewrite Hread.
    rewrite cleanupDeps_settled by done. by rewrite Hcharts.
  - rewrite (readYaml_Ok_exists _ _ _ Hread).
    unfold cleanupFileDependencies. rewrite Hread.
    rewrite cleanupDeps_settled by done.
    rewrite Hcharts.
    destruct (readDir_of_dir _ _ Hcharts) as [files Hfiles]. rewrite Hfiles.
    apply walkEntries_settled. intros x Hx.
    apply (elem_of_readDir _ _ _ _ _ Hfiles) in Hx as (n' & Hn' & Hdir).
    destruct n'; [|done].
    assert (plainName x = true) as Hname.
    { eapply valid_entry_name; [done|]. by eexists. }
    rewrite Join_plain by done.
    assert (length (Join p ["charts"] ++ [x]) ≤ FS.depth fs)%nat as Hlen.
    { apply depth_bound. by eexists. }
    rewrite Join_charts in *. rewrite !length_app in *. simpl in *.
    apply IH; [done|lia|rewrite !length_app; simpl; lia].
Qed.

Lemma cleanupDeps_settles (chartPath : path) (deps : list FS.YamlDep) (fs fs' : FS.t)
    (c c' : Cleaner) :
  DryRun (opts c) = false →
  cleanupDeps chartPath deps fs c = (fs', c', Done) →
  Forall (λ dep, candidate fs' chartPath dep = None) deps.
Proof.
  revert fs c. induction deps as [|dep deps IH]; intros fs c Hdry; [by constructor|].
  rewrite cleanupDeps_cons.
  destruct (candidate fs chartPath dep) as [t|] eqn:Hcand.
  - apply candidate_outside in Hcand as (_ & _ & ->).
    rewrite Hdry. cbn [negb].
    pose proof (removeAll_notExist fs
      (originalDirPathOf chartPath (FS.depRepository dep))) as Hgone.
    destruct (FS.removeAll fs _) as [fs1 [e|]]; [done|]. cbn [fst snd] in Hgone.
    intros Hrest. constructor; [|eapply IH; [|exact Hrest]; exact Hdry].
    apply candidate_gone.
    pose proof (cleanupDeps_spec chartPath deps fs1
                  (append c (originalDirPathOf chartPath (FS.depRepository dep))))
      as (Hsh & _).
    rewrite Hrest in Hsh. simpl in Hsh.
    eapply notExist_shrinks; [done|]. by apply Hgone.
  - intros Hrest. constructor; [|eapply IH; [|exact Hrest]; exact Hdry].
    pose proof (cleanupDeps_spec chartPath deps fs c) as (Hsh & _).
    rewrite Hrest in Hsh. simpl in Hsh. by eapply candidate_shrinks.
Qed.

Lemma walkEntries_settles
    (rec : FS.t → path → Cleaner → FS.t * Cleaner * outcome)
    (chartsDir : path) (files : list (string * bool)) (fs fs' : FS.t)
    (c c' : Cleaner) :
  (∀ fs0 q c0, cleanupSpec fs0 c0 (rec fs0 q c0)) →
  (∀ fs0 q c0 fs1 c1, DryRun (opts c0) = false → FS.valid fs0 →
                      rec fs0 q c0 = (fs1, c1, Done) → settled fs1 q) →
  DryRun (opts c) = false → FS.valid fs →
  walkEntries rec chartsDir files fs c = (fs', c', Done) →
  ∀ x, (x, true) ∈ files → settled fs' (Join chartsDir [x]).
Proof.
  intros Hspec Hrec. revert fs c.
  induction files as [|[name isDir] rest IH]; intros fs c Hdry Hvalid; simpl.
  { by intros _ x ?%elem_of_nil. }
  destruct isDir.
  - pose proof (Hspec fs (Join chartsDir [name]) c) as (Hsh1 & Ho1 & _).
    pose proof (Hrec fs (Join chartsDir [name]) c) as Hset1.
    destruct (rec fs (Join chartsDir [name]) c) as [[fs1 c1] [|e|]];
      simpl in Hsh1, Ho1; [|done|done].
    intros Hwalk x [[= -> ]|Hx]%elem_of_cons.
    + pose proof (walkEntries_cleanupSpec rec chartsDir rest fs1 c1 Hspec)
        as (Hsh2 & _).
      rewrite Hwalk in Hsh2. simpl in Hsh2.
      eapply settled_shrinks; [done|]. by eapply Hset1.
    + eapply (IH fs1 c1); [congruence|by eapply shrinks_valid|done|done].
  - intros Hwalk x [[=]|Hx]%elem_of_cons. by eapply IH.
Qed.

(** After a run that removes and returns nil, the chart is settled. *)
Lemma processChart_settles (fuel : nat) (fs fs' : FS.t) (p : path) (c c' : Cleaner) :
  DryRun (opts c) = false → FS.valid fs →
  processChart fuel fs p c = (fs', c', Done) → settled fs' p.
Proof.
  revert fs fs' p c c'.
  induction fuel as [|fuel IH]; intros fs fs' p c c' Hdry Hvalid; [done|].
  intros Hrun.
  pose proof (processChart_spec (S fuel) fs p c) as (Hsh & _).
  rewrite Hrun in Hsh. simpl in Hsh. revert Hrun. simpl.
  destruct (FS.IsNotExist (FS.statErr fs (Join p ["Chart.yaml"]))) eqn:Hm.
  { intros [= <- <-]. by apply settled_no_chart. }
  pose proof (cleanupFileDependencies_spec fs p c) as (Hsh1 & Ho1 & _).
  unfold cleanupFileDependencies in *.
  destruct (FS.readYaml fs (Join p ["Chart.yaml"])) as [deps|e] eqn:Hread.
  2:{ by destruct e. }
  pose proof Hread as Hstat%readYaml_Ok.
  destruct (cleanupDeps p deps fs c) as [[fs1 c1] [|e|]] eqn:Hcd;
    simpl in Hsh1, Ho1; [|done|done].
  pose proof (cleanupDeps_settles p deps fs fs1 c c1 Hdry Hcd) as Hdeps.
  intros Hrest.
  assert (shrinks fs' fs1) as Hsh2.
  { destruct (FS.stat fs1 (Join p ["charts"])).
    - destruct (FS.readDir fs1 (Join p ["charts"])) as [files|e]; [|done].
      pose proof (walkEntries_cleanupSpec (processChart fuel) (Join p ["charts"])
                    files fs1 c1 (processChart_spec fuel)) as (Hs & _).
      by rewrite Hrest in Hs.
    - by injection Hrest as <- <-. }
  destruct (FS.nodes fs' !! Join p ["Chart.yaml"]) as [m|] eqn:Hm'.
  2:{ apply settled_no_chart.
      eapply (stat_shrinks_gone fs' fs); [exact Hsh|exact Hstat|exact Hm']. }
  assert (FS.readYaml fs' (Join p ["Chart.yaml"]) = Ok deps) as Hread'.
  { eapply readYaml_shrinks; [exact Hsh|done|by eexists]. }
  assert (Forall (λ dep, candidate fs' p dep = None) deps) as Hdeps'.
  { eapply Forall_impl; [done|]. intros dep. by apply candidate_shrinks. }
  destruct (FS.stat fs' (Join p ["charts"])) as [k|] eqn:Hc;
    [|by apply settled_leaf with deps].
  pose proof (shrinks_lookup _ _ _ _ Hsh2 (stat_lookup _ _ _ Hc)) as Hc1.
  assert (FS.stat fs1 (Join p ["charts"]) = Some k) as Hs1.
  { assert (FS.stat fs1 (Join p ["Chart.yaml"]) =
            Some (FS.RegularFile true (Some deps))) as Hm1.
    { eapply stat_shrinks_kept; [exact Hsh1|done|].
      exists m. by eapply shrinks_lookup. }
    rewrite Join_manifest in Hm1. rewrite Join_charts in *.
    by eapply stat_sibling_Some. }
  rewrite Hs1 in Hrest.
  destruct (FS.readDir fs1 (Join p ["charts"])) as [files|e] eqn:Hfiles; [|done].
  pose proof (readDir_is_dir _ _ _ Hfiles) as Hdir.
  rewrite Hs1 in Hdir. injection Hdir as ->.
  apply settled_node with deps; [done|done|done|].
  intros x Hx.
  assert (FS.valid fs1) as Hvalid1 by by eapply shrinks_valid.
  pose proof (shrinks_lookup _ _ _ _ Hsh2 Hx) as Hx1.
  assert (plainName x = true) as Hname.
  { eapply valid_entry_name; [exact Hvalid1|]. by eexists. }
  rewrite <- (Join_plain _ _ Hname).
  eapply (walkEntries_settles (processChart fuel) (Join p ["charts"]) files
            fs1 fs' c1 c'); [apply processChart_spec| |
    by rewrite Ho1|exact Hvalid1|exact Hrest|].
  - intros fs0 q c0 fs2 c2. apply IH.
  - apply (elem_of_readDir _ _ _ _ _ Hfiles). by exists FS.Directory.
Qed.

End cleanup_second_run.

(** C9. After a cleanup run that is not a dry run and returns nil, a second
    run on the resulting tree returns nil with an empty deletion set and
    leaves the tree as it is. *)
Theorem cleanup_idempotent (fs : FS.t) (o o2 : Cleanup.Options) :
  FS.valid fs →
  Cleanup.DryRun o = false →
  Cleanup.ChartPath o2 = Cleanup.ChartPath o →
  (Cleanup.Run fs o).2 = Done →
  let fs1 := (Cleanup.Run fs o).1.1 in
  Cleanup.Run fs1 o2 = (fs1, Cleanup.NewCleaner o2, Done) ∧
  Cleanup.deletedPaths (Cleanup.Run fs1 o2).1.2 = [].
Proof.
  intros Hvalid Hdry Hroot Hdone fs1.
  assert (Cleanup.Run fs1 o2 = (fs1, Cleanup.NewCleaner o2, Done)) as Hsecond.
  { unfold Cleanup.Run, Cleanup.Cleanup in *.
    pose proof (processChart_spec (Cleanup.fuelFor fs) fs
      (Cleanup.ChartPath (Cleanup.opts (Cleanup.NewCleaner o)))
      (Cleanup.NewCleaner o)) as (Hsh & _).
    fold fs1 in Hsh.
    apply processChart_settled.
    - by eapply shrinks_valid.
    - change (Cleanup.ChartPath (Cleanup.opts (Cleanup.NewCleaner o2)))
        with (Cleanup.ChartPath o2). rewrite Hroot.
      destruct (Cleanup.processChart (Cleanup.fuelFor fs) fs
        (Cleanup.ChartPath (Cleanup.opts (Cleanup.NewCleaner o)))
        (Cleanup.NewCleaner o)) as [[fs0 c0] out] eqn:Hrun.
      simpl in Hdone. subst out. subst fs1. simpl.
      eapply processChart_settles; [|exact Hvalid|exact Hrun]. done.
    - unfold Cleanup.fuelFor. lia.
    - unfold Cleanup.fuelFor. lia. }
  split; [done|]. by rewrite Hsecond.
Qed.

Lemma cleanup_idempotent_witness :
  let fs1 := (Cleanup.Run localdbTree (cleanupOptions ["A"] false)).1.1 in
  Cleanup.Run fs1 (cleanupOptions ["A"] false) =
    (fs1, Cleanup.NewCleaner (cleanupOptions ["A"] false), Done) ∧
  Cleanup.deletedPaths (Cleanup.Run fs1 (cleanupOptions ["A"] false)).1.2 = [].
Proof.
  apply (cleanup_idempotent localdbTree (cleanupOptions ["A"] false)
           (cleanupOptions ["A"] false)).
  - apply validb_valid. vm_compute. reflexivity.
  - reflexivity.
  - reflexivity.
  - vm_compute. reflexivity.
Defined.

(** ** The recursion bound is never reached *)

Section totality.
Import Filepath.

Lemma max_list_bound (l : list nat) (b : nat) :
  Forall (λ n, n ≤ b)%nat l → (max_list l ≤ b)%nat.
Proof. induction 1; simpl; lia. Qed.

Lemma depth_shrinks (fs' fs : FS.t) :
  shrinks fs' fs → (FS.depth fs' ≤ FS.depth fs)%nat.
Proof.
  intros Hsh. unfold FS.depth at 1. apply max_list_bound, Forall_forall.
  intros n ([q m] & -> & Hq%elem_of_map_to_list)%list_elem_of_fmap. simpl.
  apply depth_bound. exists m. by eapply shrinks_lookup.
Qed.

Lemma dedup_walkEntries_total
    (rec : path → Dedup.Deduplicator → Dedup.Deduplicator * outcome)
    (chartsDir : path) (entries : list (string * bool)) (d : Dedup.Deduplicator) :
  (∀ x d0, (x, true) ∈ entries → (rec (Join chartsDir [x]) d0).2 ≠ OutOfFuel) →
  (Dedup.walkEntries rec chartsDir entries d).2 ≠ OutOfFuel.
Proof.
  revert d. induction entries as [|[name isDir] rest IH]; intros d Hrec; [done|].
  assert (∀ x d0, (x, true) ∈ rest → (rec (Join chartsDir [x]) d0).2 ≠ OutOfFuel)
    as Hrest by (intros x d0 Hx; apply Hrec; by right).
  simpl. destruct isDir; [|by apply IH].
  case_bool_decide; [by apply IH|].
  pose proof (Hrec name d) as Hcall.
  destruct (rec (Join chartsDir [name]) d) as [d1 [|e|]]; simpl in *;
    [by apply IH|done|].
  exfalso. apply Hcall; [by left|done].
Qed.

(** The deduplication traversal of a tree returns nil or an error. *)
Lemma processDependencies_total (fs : FS.t) (fuel : nat) (p : path)
    (d : Dedup.Deduplicator) :
  FS.valid fs → (0 < fuel)%nat → (FS.depth fs < length p + fuel)%nat →
  (Dedup.processDependencies fuel fs p d).2 ≠ OutOfFuel.
Proof.
  intros Hvalid. revert p d.
  induction fuel as [|fuel IH]; intros p d Hpos Hfuel; [lia|].
  assert (∀ d0 entries, FS.readDir fs (Join p ["charts"]) = Ok entries →
    (Dedup.walkEntries (Dedup.processDependencies fuel fs) (Join p ["charts"])
       entries d0).2 ≠ OutOfFuel) as Hwalk.
  { intros d0 entries Hdir. apply dedup_walkEntries_total. intros x d1 Hx.
    apply (elem_of_readDir _ _ _ _ _ Hdir) in Hx as (n & Hn & _).
    assert (plainName x = true) as Hname.
    { eapply valid_entry_name; [done|]. by eexists. }
    assert (length (Join p ["charts"] ++ [x]) ≤ FS.depth fs)%nat as Hlen.
    { apply depth_bound. by eexists. }
    rewrite Join_plain by done. rewrite Join_charts in *.
    rewrite !length_app in Hlen. simpl in Hlen.
    apply IH; [lia|rewrite !length_app; simpl; lia]. }
  simpl.
  destruct (FS.stat fs (Join p ["Chart.yaml"])).
  - destruct (Dedup.readChartYaml fs (Join p ["Chart.yaml"])); [|done].
    destruct (FS.stat fs (Join p ["charts"])); [|done].
    destruct (FS.readDir fs (Join p ["charts"])) eqn:Hdir; [|done].
    by apply Hwalk.
  - destruct (FS.stat fs (Join p ["charts"])); [|done].
    destruct (FS.readDir fs (Join p ["charts"])) eqn:Hdir; [|done].
    by apply Hwalk.
Qed.

(** [DeduplicateChart] returns a list or an error. *)
Lemma DeduplicateChart_total (fs : FS.t) (d : Dedup.Deduplicator) (root : path) :
  FS.valid fs → is_Some (Dedup.DeduplicateChart fs d root).2.
Proof.
  intros Hvalid.
  destruct (DeduplicateChart_traversal fs d root) as (out & Hrun & -> & _).
  pose proof (processDependencies_total fs (Dedup.fuelFor fs) root d Hvalid) as Htot.
  rewrite Hrun in Htot. simpl in Htot.
  destruct out; [|by eauto|].
  - destruct (negb _); [|by eauto].
    destruct (Dedup.removePaths fs _) as [fs' [e|]]; by eauto.
  - exfalso. apply Htot; [unfold Dedup.fuelFor; lia|unfold Dedup.fuelFor; lia|done].
Qed.

Lemma cleanupDeps_total (chartPath : path) (deps : list FS.YamlDep) (fs : FS.t)
    (c : Cleanup.Cleaner) :
  (Cleanup.cleanupDeps chartPath deps fs c).2 ≠ OutOfFuel.
Proof.
  revert fs c. induction deps as [|dep deps IH]; intros fs c; [done|].
  rewrite cleanupDeps_cons.
  destruct (candidate fs chartPath dep); [|by apply IH].
  destruct (negb _); [|by apply IH].
  destruct (FS.removeAll fs p) as [fs' [e|]]; [done|by apply IH].
Qed.

Lemma cleanup_walkEntries_total
    (rec : FS.t → path → Cleanup.Cleaner → FS.t * Cleanup.Cleaner * outcome)
    (chartsDir : path) (files : list (string * bool)) (fs : FS.t)
    (c : Cleanup.Cleaner) :
  (∀ fs0 q c0, cleanupSpec fs0 c0 (rec fs0 q c0)) →
  (∀ fs0 x c0, shrinks fs0 fs → (x, true) ∈ files →
               (rec fs0 (Join chartsDir [x]) c0).2 ≠ OutOfFuel) →
  (Cleanup.walkEntries rec chartsDir files fs c).2 ≠ OutOfFuel.
Proof.
  intros Hspec. revert fs c.
  induction files as [|[name isDir] rest IH]; intros fs c Hrec; [done|].
  simpl. destruct isDir.
  - pose proof (Hrec fs name c) as Hcall.
    pose proof (Hspec fs (Join chartsDir [name]) c) as (Hsh & _).
    destruct (rec fs (Join chartsDir [name]) c) as [[fs1 c1] [|e|]];
      simpl in *; [|done|].
    + apply IH. intros fs0 x c0 Hsh0 Hx. apply Hrec; [by etrans|by right].
    + exfalso. apply Hcall; [done|by left|done].
  - apply IH. intros fs0 x c0 Hsh0 Hx. apply Hrec; [done|by right].
Qed.

(** The cleanup traversal of a tree returns nil or an error. *)
Lemma processChart_total (fuel : nat) (fs : FS.t) (p : path) (c : Cleanup.Cleaner) :
  FS.valid fs → (0 < fuel)%nat → (FS.depth fs < length p + fuel)%nat →
  (Cleanup.processChart fuel fs p c).2 ≠ OutOfFuel.
Proof.
  revert fs p c.
  induction fuel as [|fuel IH]; intros fs p c Hvalid Hpos Hfuel; [lia|].
  simpl. destruct (FS.IsNotExist _); [done|].
  pose proof (cleanupFileDependencies_spec fs p c) as (Hsh1 & _).
  assert ((Cleanup.cleanupFileDependencies fs p c).2 ≠ OutOfFuel) as Hdeps.
  { unfold Cleanup.cleanupFileDependencies.
    destruct (FS.readYaml fs _) as [deps|[]]; try done. apply cleanupDeps_total. }
  destruct (Cleanup.cleanupFileDependencies fs p c) as [[fs1 c1] [|e|]];
    simpl in *; [|done|done].
  destruct (FS.stat fs1 (Join p ["charts"])); [|done].
  destruct (FS.readDir fs1 (Join p ["charts"])) as [files|e] eqn:Hdir; [|done].
  apply cleanup_walkEntries_total; [apply processChart_spec|].
  intros fs0 x c0 Hsh0 Hx.
  apply (elem_of_readDir _ _ _ _ _ Hdir) in Hx as (nx & Hn & _).
  assert (FS.valid fs1) as Hvalid1 by by eapply shrinks_valid.
  assert (plainName x = true) as Hname.
  { eapply valid_entry_name; [exact Hvalid1|]. by eexists. }
  assert (length (Join p ["charts"] ++ [x]) ≤ FS.depth fs1)%nat as Hlen.
  { apply depth_bound. by eexists. }
  pose proof (depth_shrinks _ _ Hsh1) as Hd1.
  pose proof (depth_shrinks _ _ Hsh0) as Hd0.
  rewrite Join_plain by done. rewrite Join_charts in *.
  rewrite !length_app in Hlen. simpl in Hlen.
  apply IH; [by eapply shrinks_valid|lia|rewrite !length_app; simpl; lia].
Qed.

(** [cleanup.Run] returns nil or an error. *)
Lemma cleanup_Run_total (fs : FS.t) (o : Cleanup.Options) :
  FS.valid fs → (Cleanup.Run fs o).2 ≠ OutOfFuel.
Proof.
  intros Hvalid. unfold Cleanup.Run, Cleanup.Cleanup.
  apply processChart_total; [done| |]; unfold Cleanup.fuelFor; lia.
Qed.

End totality.

(** * Further properties *)

(** ** Keys *)

Section keys.
Import Dedup.

Lemma key_injective_aux (n1 n2 v1 v2 : string) :
  hasHyphen n1 = false → hasHyphen n2 = false →
  String.append n1 (String "-" v1) = String.append n2 (String "-" v2) →
  n1 = n2 ∧ v1 = v2.
Proof.
  revert n2. induction n1 as [|a n1 IH]; intros [|b n2]; simpl.
  - intros _ _ [= ->]. done.
  - intros _ Hb [= <- _]. done.
  - intros Ha _ [= -> _]. done.
  - intros [Ha Hn1]%orb_false_elim [Hb Hn2]%orb_false_elim [= -> Heq].
    destruct (IH n2 Hn1 Hn2 Heq) as [-> ->]. done.
Qed.

End keys.

(** X1. The key identifies the dependency as long as names hold no hyphen:
    two dependencies with hyphen-free names and the same key have the same
    name and the same version. *)
Theorem Key_injective_without_hyphen (d1 d2 : Dedup.Dependency) :
  hasHyphen (Dedup.Name d1) = false →
  hasHyphen (Dedup.Name d2) = false →
  Dedup.Key d1 = Dedup.Key d2 →
  d1 = d2.
Proof.
  destruct d1 as [n1 v1], d2 as [n2 v2]. unfold Dedup.Key. simpl.
  intros H1 H2 Heq.
  destruct (key_injective_aux n1 n2 v1 v2 H1 H2 Heq) as [-> ->]. done.
Qed.

Lemma Key_injective_without_hyphen_witness :
  Dedup.mkDependency "redis" "1.2.0-rc1" = Dedup.mkDependency "redis" "1.2.0-rc1".
Proof.
  apply (Key_injective_without_hyphen (Dedup.mkDependency "redis" "1.2.0-rc1")
           (Dedup.mkDependency "redis" "1.2.0-rc1")); reflexivity.
Defined.

(** ** Handling one dependency *)

(** X2. The branch "Found original dependency" of [processDependencies] is
    never taken: when the loop over the registered occurrences ends with
    [isTrueDuplicate] set, [originalPath] is the path registered first
    under the key and differs from the path of the dependency. *)
Theorem scanPaths_duplicate_is_not_original (depPath parentPath : path)
    (paths : list Dedup.ChartPath_) (orig : option path) :
  Dedup.scanPaths depPath parentPath paths false None ≠ (true, Some depPath) ∧
  (Dedup.scanPaths depPath parentPath paths false None = (true, orig) →
   orig = Dedup.Path <$> head paths).
Proof.
  pose proof (scanPaths_dup depPath parentPath paths false None) as Hd.
  pose proof (scanPaths_orig depPath parentPath paths false None) as Ho.
  split.
  - intros Heq. rewrite Heq in Hd, Ho. simpl in Hd, Ho.
    destruct Hd as [[Hno _] _]; [done|].
    destruct paths as [|e rest]; [done|]. simpl in Ho.
    injection Ho as Ho. eapply Hno; [by left|done].
  - intros Heq. rewrite Heq in Ho. done.
Qed.

Section append_only.
Import Filepath Dedup.

Lemma applyEvent_appends (d : Deduplicator) (ev : event) :
  (∀ k, registered d k `prefix_of` registered (applyEvent d ev) k) ∧
  currentDependencies d `prefix_of` currentDependencies (applyEvent d ev) ∧
  deleteDependencies d `prefix_of` deleteDependencies (applyEvent d ev).
Proof.
  destruct ev as [q|c dep]; simpl; [done|].
  destruct (registerDependency_cases c d dep) as [(_ & _ & ->)|[_ ->]].
  - split; [done|]. split; [done|]. simpl. by apply prefix_app_r.
  - split; [|split; [simpl; by apply prefix_app_r|done]].
    intros k. rewrite registered_keep. case_decide; [|done].
    subst k. by apply prefix_app_r.
Qed.

Lemma replay_appends (evs : list event) (d : Deduplicator) :
  (∀ k, registered d k `prefix_of` registered (replay evs d) k) ∧
  currentDependencies d `prefix_of` currentDependencies (replay evs d) ∧
  deleteDependencies d `prefix_of` deleteDependencies (replay evs d).
Proof.
  induction evs as [|ev evs IH] using rev_ind; [done|].
  rewrite replay_snoc.
  destruct IH as (Hr & Hc & Hd).
  destruct (applyEvent_appends (replay evs d) ev) as (Hr' & Hc' & Hd').
  split; [intros k; etrans; [apply Hr|apply Hr']|]. split; by etrans.
Qed.

End append_only.

(** X3. The bookkeeping of the deduplicator is append-only: a call of
    [processDependencies], whatever it returns, leaves what was registered
    under each key, the kept list and the deletion set as prefixes of what
    they are afterwards. So the occurrence registered first under a key
    stays first, and nothing is taken back from the deletion set. *)
Theorem processDependencies_append_only (fuel : nat) (fs : FS.t) (p : path)
    (d : Dedup.Deduplicator) :
  let d' := (Dedup.processDependencies fuel fs p d).1 in
  (∀ k, registered d k `prefix_of` registered d' k) ∧
  Dedup.currentDependencies d `prefix_of` Dedup.currentDependencies d' ∧
  Dedup.deleteDependencies d `prefix_of` Dedup.deleteDependencies d'.
Proof.
  intros d'. subst d'.
  destruct (Dedup.processDependencies fuel fs p d) as [d' out] eqn:Hrun.
  apply processDependencies_spec in Hrun as (evs & -> & _). simpl.
  apply replay_appends.
Qed.

Section counting.
Import Filepath Dedup.

Lemma occurrenceKeys_app (h1 h2 : list event) :
  occurrenceKeys (h1 ++ h2) = occurrenceKeys h1 ++ occurrenceKeys h2.
Proof. unfold occurrenceKeys. apply omap_app. Qed.

Lemma replay_counts (o : Options) (evs : list event) :
  length (occurrenceKeys evs) =
  (length (currentDependencies (replay evs (NewDeduplicator o))) +
   length (deleteDependencies (replay evs (NewDeduplicator o))))%nat.
Proof.
  induction evs as [|ev evs IH] using rev_ind; [done|].
  rewrite replay_snoc, occurrenceKeys_app, length_app, IH.
  destruct ev as [q|c dep]; simpl; [lia|].
  destruct (registerDependency_cases c (replay evs (NewDeduplicator o)) dep)
    as [(_ & _ & ->)|[_ ->]]; simpl; rewrite length_app; simpl; lia.
Qed.

Lemma elem_of_occurrenceKeys (h : list event) (k : string) :
  k ∈ occurrenceKeys h ↔ ∃ c dep, Occurrence c dep ∈ h ∧ Key dep = k.
Proof.
  unfold occurrenceKeys. rewrite list_elem_of_omap. split.
  - intros ([q|c dep] & Hin & [= <-]). eauto.
  - intros (c & dep & Hin & <-). by exists (Occurrence c dep).
Qed.

End counting.

(** X4. Every declared dependency that a run handles is classified exactly
    once: the number of handled dependencies is the length of the kept list
    plus the length of the deletion set. *)
Theorem dedup_handled_kept_or_condemned (fs : FS.t) (o : Dedup.Options)
    (root : path) :
  let d' := (Dedup.DeduplicateChart fs (Dedup.NewDeduplicator o) root).1.2 in
  length (occurrenceKeys (Dedup.history d')) =
  (length (Dedup.currentDependencies d') + length (Dedup.deleteDependencies d'))%nat.
Proof.
  intros d'. destruct (DeduplicateChart_replay fs o root) as [Hrep _].
  fold d' in Hrep. rewrite Hrep at 2 3. apply replay_counts.
Qed.

(** X5. When no two handled dependencies have the same key, deduplication
    condemns nothing and leaves the file system as it is. *)
Theorem dedup_distinct_keys_delete_nothing (fs : FS.t) (o : Dedup.Options)
    (root : path) :
  let run := Dedup.DeduplicateChart fs (Dedup.NewDeduplicator o) root in
  NoDup (occurrenceKeys (Dedup.history run.1.2)) →
  Dedup.deleteDependencies run.1.2 = [] ∧ run.1.1 = fs.
Proof.
  intros run Hnodup.
  destruct (DeduplicateChart_replay fs o root) as [Hrep _]. fold run in Hrep.
  assert (Dedup.deleteDependencies run.1.2 = []) as Hnil.
  { destruct (Dedup.deleteDependencies run.1.2) as [|p l] eqn:Hdel; [done|].
    exfalso.
    assert (p ∈ Dedup.deleteDependencies run.1.2) as Hp by (rewrite Hdel; by left).
    rewrite Hrep in Hp.
    apply condemned_from_history in Hp
      as (g1 & c & dep & g2 & Hsplit & _ & _ & (e & He & _)).
    apply registered_from_history in He as (c0 & dep0 & Hin0 & Hk0 & _).
    rewrite Hsplit, occurrenceKeys_app in Hnodup.
    apply NoDup_app in Hnodup as (_ & Hdisj & _).
    apply (Hdisj (Dedup.Key dep)).
    - apply elem_of_occurrenceKeys. eauto.
    - simpl. by left. }
  split; [done|].
  destruct (DeduplicateChart_traversal fs (Dedup.NewDeduplicator o) root)
    as (out & _ & _ & Hfs).
  fold run in Hfs. rewrite Hfs, Hnil. destruct out; try done.
  by destruct (negb _).
Qed.

Lemma dedup_distinct_keys_delete_nothing_witness :
  let run := Dedup.DeduplicateChart distinctTree
               (Dedup.NewDeduplicator (dedupOptions ["r"] false)) ["r"] in
  Dedup.deleteDependencies run.1.2 = [] ∧ run.1.1 = distinctTree.
Proof.
  apply (dedup_distinct_keys_delete_nothing distinctTree
           (dedupOptions ["r"] false) ["r"]).
  apply (bool_decide_unpack _). vm_compute. exact I.
Defined.

(** ** Condemned directories are not entered *)

Section skip_condemned.
Import Filepath Dedup.

Lemma visitsClean_nil (d : Deduplicator) : visitsClean d [].
Proof. intros e1 q e2 Heq. by destruct e1. Qed.

Lemma visitsClean_app (d : Deduplicator) (evs1 evs2 : list event) :
  visitsClean d evs1 → visitsClean (replay evs1 d) evs2 →
  visitsClean d (evs1 ++ evs2).
Proof.
  intros H1 H2 e1 q e2 Heq.
  apply app_eq_inv in Heq as [(k & -> & Hk)|(k & -> & Hk)].
  - destruct k as [|x k].
    + rewrite app_nil_r in H2. apply (H2 [] q e2). by rewrite Hk.
    + injection Hk as Hx Hrest. subst x. by apply (H1 e1 q k).
  - rewrite replay_app. by apply (H2 k q e2).
Qed.

Lemma visitsClean_occurrences (d : Deduplicator) (c : path) (deps : list Dependency) :
  visitsClean d (map (Occurrence c) deps).
Proof.
  intros e1 q e2 Heq.
  assert (Visit q ∈ map (Occurrence c) deps) as Hin.
  { rewrite Heq. apply elem_of_app. right. by left. }
  by apply elem_of_map in Hin as (dep & [=] & _).
Qed.

Lemma visitsClean_visit (d : Deduplicator) (p : path) (evs : list event) :
  p ∉ deleteDependencies d → visitsClean (record (Visit p) d) evs →
  visitsClean d (Visit p :: evs).
Proof.
  intros Hp Hevs. apply (visitsClean_app d [Visit p] evs); [|done].
  intros e1 q e2 Heq. destruct e1 as [|x [|y e1]]; [|done|done].
  by injection Heq as <- _.
Qed.

Lemma walkEntries_visitsClean
    (rec : path → Deduplicator → Deduplicator * outcome)
    (chartsDir : path) (entries : list (string * bool))
    (d d' : Deduplicator) (out : outcome) :
  (∀ q d0 d1 o, rec q d0 = (d1, o) → q ∉ deleteDependencies d0 →
                ∃ evs, d1 = replay evs d0 ∧ visitsClean d0 evs) →
  walkEntries rec chartsDir entries d = (d', out) →
  ∃ evs, d' = replay evs d ∧ visitsClean d evs.
Proof.
  intros Hrec. revert d.
  induction entries as [|[name isDir] rest IH]; intros d; simpl.
  - intros [= <- <-]. exists []. split; [done|apply visitsClean_nil].
  - destruct isDir; [|by apply IH].
    case_bool_decide as Hskip; [by apply IH|].
    destruct (rec (Join chartsDir [name]) d) as [d1 o] eqn:Hcall.
    destruct (Hrec _ _ _ _ Hcall Hskip) as (evs1 & -> & Hc1).
    destruct o.
    + intros (evs2 & -> & Hc2)%IH. exists (evs1 ++ evs2).
      split; [by rewrite replay_app|by apply visitsClean_app].
    + intros [= <- <-]. by exists evs1.
    + intros [= <- <-]. by exists evs1.
Qed.

Lemma processDependencies_visitsClean (fuel : nat) (fs : FS.t) (p : path)
    (d d' : Deduplicator) (out : outcome) :
  processDependencies fuel fs p d = (d', out) → p ∉ deleteDependencies d →
  ∃ evs, d' = replay evs d ∧ visitsClean d evs.
Proof.
  revert p d d' out. induction fuel as [|fuel IH]; intros p d d' out; simpl.
  { intros [= <- <-] _. exists []. split; [done|apply visitsClean_nil]. }
  intros Hrun Hp.
  assert (∀ deps d1 o,
    (match FS.stat fs (Join p ["charts"]) with
     | Some _ =>
         match FS.readDir fs (Join p ["charts"]) with
         | Ok entries =>
             walkEntries (processDependencies fuel fs) (Join p ["charts"]) entries
               (replay (map (Occurrence p) deps) (record (Visit p) d))
         | Err e => (replay (map (Occurrence p) deps) (record (Visit p) d), Failed e)
         end
     | None => (replay (map (Occurrence p) deps) (record (Visit p) d), Done)
     end) = (d1, o) →
    ∃ evs, d1 = replay evs d ∧ visitsClean d evs) as Hrest.
  { intros deps d1 o Hwalk.
    assert (∃ evs, d1 = replay evs (replay (map (Occurrence p) deps) (record (Visit p) d))
                   ∧ visitsClean (replay (map (Occurrence p) deps) (record (Visit p) d)) evs)
      as (evs & -> & Hc).
    { destruct (FS.stat fs (Join p ["charts"])).
      - destruct (FS.readDir fs (Join p ["charts"])) as [entries|e].
        + eapply walkEntries_visitsClean; [|exact Hwalk].
          intros q d0 d2 o0. apply IH.
        + injection Hwalk as <- <-. exists []. split; [done|apply visitsClean_nil].
      - injection Hwalk as <- <-. exists []. split; [done|apply visitsClean_nil]. }
    exists (Visit p :: map (Occurrence p) deps ++ evs). split.
    - change (Visit p :: map (Occurrence p) deps ++ evs)
        with ([Visit p] ++ map (Occurrence p) deps ++ evs).
      by rewrite !replay_app.
    - apply visitsClean_visit; [done|].
      apply visitsClean_app; [apply visitsClean_occurrences|done]. }
  destruct (FS.stat fs (Join p ["Chart.yaml"])).
  - destruct (readChartYaml fs (Join p ["Chart.yaml"])) as [deps|e].
    + rewrite fold_registerDependency in Hrun. eapply (Hrest deps). exact Hrun.
    + injection Hrun as <- <-. exists [Visit p]. split; [done|].
      apply visitsClean_visit; [done|apply visitsClean_nil].
  - eapply (Hrest []). exact Hrun.
Qed.

End skip_condemned.

(** X6. The traversal never enters a directory that is in the deletion set
    at that moment: whenever the history of a run records a visit, the
    visited path is not among the paths condemned by what came before. *)
Theorem dedup_never_visits_condemned (fs : FS.t) (o : Dedup.Options)
    (root : path) (h1 h2 : list Dedup.event) (q : path) :
  let d' := (Dedup.DeduplicateChart fs (Dedup.NewDeduplicator o) root).1.2 in
  Dedup.history d' = h1 ++ Dedup.Visit q :: h2 →
  q ∉ Dedup.deleteDependencies (replay h1 (Dedup.NewDeduplicator o)).
Proof.
  intros d' Hhist.
  destruct (DeduplicateChart_traversal fs (Dedup.NewDeduplicator o) root)
    as (out & Hrun & _).
  apply processDependencies_visitsClean in Hrun as (evs & Hd & Hclean).
  - fold d' in Hd. rewrite Hd, history_replay in Hhist. simpl in Hhist.
    by apply (Hclean h1 q h2).
  - by intros ?%elem_of_nil.
Qed.

Lemma dedup_never_visits_condemned_witness :
  ["r"; "charts"; "c"] ∉
    Dedup.deleteDependencies
      (replay [Dedup.Visit ["r"]; Dedup.Visit ["r"; "charts"; "a"];
               Dedup.Occurrence ["r"; "charts"; "a"] (Dedup.mkDependency "x" "1");
               Dedup.Visit ["r"; "charts"; "a"; "charts"; "x"];
               Dedup.Visit ["r"; "charts"; "b"];
               Dedup.Occurrence ["r"; "charts"; "b"] (Dedup.mkDependency "x" "1")]
              (Dedup.NewDeduplicator (dedupOptions ["r"] true))).
Proof.
  apply (dedup_never_visits_condemned lockedTree (dedupOptions ["r"] true) ["r"] _
           [Dedup.Occurrence ["r"; "charts"; "c"] (Dedup.mkDependency "x" "1")]).
  vm_compute. reflexivity.
Defined.

(** ** Removing the condemned paths *)

Section removal_failure.
Import Dedup.

Lemma removePaths_shrinks (fs : FS.t) (l : list path) :
  shrinks (removePaths fs l).1 fs.
Proof.
  revert fs. induction l as [|p l IH]; intros fs; [done|].
  cbn [removePaths].
  pose proof (removeAll_shrinks fs p) as Hsh.
  destruct (FS.removeAll fs p) as [fs1 [e|]]; cbn [fst] in *; [done|].
  etrans; [apply IH|done].
Qed.

End removal_failure.

(** X7. When the removal of a condemned path fails, the loop stops there:
    the error wraps the error of the os package with that path, the paths
    before it in the deletion set are gone (nothing is rolled back) and
    nothing else than entries at or below condemned paths was lost. *)
Theorem removePaths_stops_at_failure (fs fs' : FS.t) (l : list path) (e : error) :
  Dedup.removePaths fs l = (fs', Some e) →
  ∃ l1 p l2 e0,
    l = l1 ++ p :: l2 ∧
    e = EWrapPath "failed to remove" p e0 ∧
    (∃ fs1, Dedup.removePaths fs l1 = (fs1, None) ∧
            FS.removeAll fs1 p = (fs', Some e0)) ∧
    (∀ q, q ∈ l1 → FS.stat fs' q = None) ∧
    shrinks fs' fs.
Proof.
  revert fs. induction l as [|p l IH]; intros fs; [done|].
  cbn [Dedup.removePaths].
  pose proof (removeAll_shrinks fs p) as Hsh.
  pose proof (removeAll_gone fs p p) as Hgone.
  destruct (FS.removeAll fs p) as [fs1 [e0|]] eqn:Hrm; cbn [fst snd] in Hsh, Hgone.
  - intros [= <- <-]. exists [], p, l, e0.
    split; [done|]. split; [done|]. split; [by exists fs|].
    split; [by intros q ?%elem_of_nil|done].
  - intros (l1 & p' & l2 & e0 & -> & -> & (fs2 & Hl1 & Hfail) & Hl1gone & Hsh')%IH.
    exists (p :: l1), p', l2, e0.
    split; [done|]. split; [done|]. split.
    { exists fs2. cbn [Dedup.removePaths]. by rewrite Hrm. }
    split; [|by etrans].
    intros q [->|Hq]%elem_of_cons; [|by apply Hl1gone].
    apply stat_absent. eapply shrinks_absent; [done|]. by apply Hgone.
Qed.

Lemma removePaths_stops_at_failure_witness :
  ∃ l1 p l2 e0,
    [["r"; "charts"; "b"; "charts"; "x"]; ["r"; "charts"; "c"; "charts"; "x"]] =
      l1 ++ p :: l2 ∧
    EWrapPath "failed to remove" ["r"; "charts"; "c"; "charts"; "x"]
      (EPath "unlinkat" ["r"; "charts"; "c"; "charts"; "x"]) =
      EWrapPath "failed to remove" p e0 ∧
    (∃ fs1, Dedup.removePaths lockedTree l1 = (fs1, None) ∧
            FS.removeAll fs1 p =
              ((Dedup.DeduplicateChart lockedTree
                  (Dedup.NewDeduplicator (dedupOptions ["r"] false)) ["r"]).1.1,
               Some e0)) ∧
    (∀ q, q ∈ l1 →
          FS.stat (Dedup.DeduplicateChart lockedTree
                     (Dedup.NewDeduplicator (dedupOptions ["r"] false)) ["r"]).1.1 q
          = None) ∧
    shrinks (Dedup.DeduplicateChart lockedTree
               (Dedup.NewDeduplicator (dedupOptions ["r"] false)) ["r"]).1.1
            lockedTree.
Proof.
  apply (removePaths_stops_at_failure lockedTree).
  vm_compute. reflexivity.
Defined.

(** ** The options of [dedup.Run] *)

Section run_options.
Import Dedup.

Lemma processDependencies_opts (fuel : nat) (fs : FS.t) (p : path) (d : Deduplicator) :
  opts (processDependencies fuel fs p d).1 = opts d.
Proof.
  destruct (processDependencies fuel fs p d) as [d' out] eqn:Hrun.
  apply processDependencies_spec in Hrun as (evs & -> & _). apply opts_replay.
Qed.

Lemma DeduplicateChart_setOpts (o : Options) (fs : FS.t) (d : Deduplicator)
    (root : path) :
  DryRun o = DryRun (opts d) →
  (DeduplicateChart fs (setOpts o d) root).1.1 = (DeduplicateChart fs d root).1.1 ∧
  (DeduplicateChart fs (setOpts o d) root).2 = (DeduplicateChart fs d root).2.
Proof.
  intros Hdry. unfold DeduplicateChart.
  rewrite processDependencies_setOpts.
  pose proof (processDependencies_opts (fuelFor fs) fs root d) as Ho.
  destruct (processDependencies (fuelFor fs) fs root d) as [d' [|e|]];
    cbn [fst snd] in *; [|done|done].
  change (opts (setOpts o d')) with o.
  change (deleteDependencies (setOpts o d')) with (deleteDependencies d').
  rewrite Ho, Hdry.
  destruct (negb (DryRun (opts d))); [|done].
  by destruct (removePaths fs (deleteDependencies d')) as [fs' [e|]].
Qed.

End run_options.

(** X8. What [dedup.Run] does to the file system and what it returns
    depend on the chart path and the dry-run flag only: the output
    directory, the package flag (packaging is not implemented and returns
    nil), show-deleted and verbose change nothing. *)
Theorem dedup_Run_ignores_other_options (fs : FS.t) (root : path)
    (out out' : option path) (pkg pkg' dry show show' verbose verbose' : bool) :
  Dedup.Run fs (Dedup.mkOptions root out pkg dry show verbose) =
  Dedup.Run fs (Dedup.mkOptions root out' pkg' dry show' verbose').
Proof.
  unfold Dedup.Run. cbn [Dedup.ChartPath Dedup.OutputDir].
  destruct (FS.IsNotExist (FS.statErr fs root)); [done|].
  set (o1 := match out with None => _ | Some _ => _ end).
  set (o2 := match out' with None => _ | Some _ => _ end).
  assert (Dedup.ChartPath o1 = root ∧ Dedup.DryRun o1 = dry) as [Hr1 Hd1]
    by (subst o1; by destruct out).
  assert (Dedup.ChartPath o2 = root ∧ Dedup.DryRun o2 = dry) as [Hr2 Hd2]
    by (subst o2; by destruct out').
  rewrite ?Hr1, ?Hr2, ?Hd1, ?Hd2.
  destruct (DeduplicateChart_setOpts o1 fs (Dedup.NewDeduplicator o2) root)
    as [Hfs Hres]; [change (Dedup.DryRun o1 = Dedup.DryRun o2); congruence|].
  change (setOpts o1 (Dedup.NewDeduplicator o2)) with (Dedup.NewDeduplicator o1)
    in Hfs, Hres.
  destruct (Dedup.DeduplicateChart fs (Dedup.NewDeduplicator o1) root)
    as [[fs1 d1] r1].
  destruct (Dedup.DeduplicateChart fs (Dedup.NewDeduplicator o2) root)
    as [[fs2 d2] r2].
  cbn [fst snd] in Hfs, Hres. subst fs2 r2.
  destruct r1 as [[l|e]|]; [|done|done].
  unfold Dedup.packageChart.
  by destruct (Dedup.Package o1 && negb dry), (Dedup.Package o2 && negb dry).
Qed.

(** ** Runs end *)

(** X9. On every tree [DeduplicateChart] returns a list or an error: the
    traversal follows directory entries only, so its depth is bounded by
    the depth of the tree. *)
Theorem DeduplicateChart_returns (fs : FS.t) (o : Dedup.Options) (root : path) :
  FS.valid fs →
  ∃ r, (Dedup.DeduplicateChart fs (Dedup.NewDeduplicator o) root).2 = Some r.
Proof. intros Hvalid. by apply DeduplicateChart_total. Qed.

Lemma DeduplicateChart_returns_witness :
  ∃ r, (Dedup.DeduplicateChart lockedTree
          (Dedup.NewDeduplicator (dedupOptions ["r"] false)) ["r"]).2 = Some r.
Proof.
  apply (DeduplicateChart_returns lockedTree (dedupOptions ["r"] false) ["r"]).
  apply validb_valid. vm_compute. reflexivity.
Defined.

(** X10. On every tree [cleanup.Run] returns nil or an error, also when it
    removes directories while it walks. *)
Theorem cleanup_Run_returns (fs : FS.t) (o : Cleanup.Options) :
  FS.valid fs →
  (Cleanup.Run fs o).2 = Done ∨ ∃ e, (Cleanup.Run fs o).2 = Failed e.
Proof.
  intros Hvalid. pose proof (cleanup_Run_total fs o Hvalid) as Htot.
  destruct (Cleanup.Run fs o).2; [by left|by eauto|done].
Qed.

Lemma cleanup_Run_returns_witness :
  (Cleanup.Run chartsSourceTree (cleanupOptions ["r"] false)).2 = Done ∨
  ∃ e, (Cleanup.Run chartsSourceTree (cleanupOptions ["r"] false)).2 = Failed e.
Proof.
  apply (cleanup_Run_returns chartsSourceTree (cleanupOptions ["r"] false)).
  apply validb_valid. vm_compute. reflexivity.
Defined.

(** ** Cleanup: what a run records *)

(** X11. Cleanup only removes: every entry of the file system after a run
    was there before, with the same content, and the options of the cleaner
    are the ones it was created with. *)
Theorem cleanup_only_removes (fs : FS.t) (o : Cleanup.Options) :
  shrinks (Cleanup.Run fs o).1.1 fs ∧
  Cleanup.opts (Cleanup.Run fs o).1.2 = o.
Proof.
  unfold Cleanup.Run, Cleanup.Cleanup.
  destruct (processChart_spec (Cleanup.fuelFor fs) fs
              (Cleanup.ChartPath (Cleanup.opts (Cleanup.NewCleaner o)))
              (Cleanup.NewCleaner o)) as (Hsh & Ho & _).
  done.
Qed.

Section cleanup_records.
Import Filepath Cleanup.

#[local] Instance prunes_refl : Reflexive prunes.
Proof. intros fs. split; done. Qed.

#[local] Instance prunes_trans : Transitive prunes.
Proof.
  intros a b c [Hs1 Hc1] [Hs2 Hc2]. split; [by etrans|].
  intros q r Hqr [n Hr]. rewrite (Hc1 q r Hqr) by by eexists.
  apply (Hc2 q r Hqr). exists n. by eapply shrinks_lookup.
Qed.

Lemma stuck_above (fs : FS.t) (p q r : path) :
  p `prefix_of` q → q `prefix_of` r → FS.stuck fs p r = true → FS.stuck fs p q = true.
Proof.
  unfold FS.stuck, FS.under. intros Hpq Hqr [_ Hex]%andb_true_iff.
  rewrite (bool_decide_eq_true_2 _ Hpq). simpl.
  apply bool_decide_eq_true in Hex. apply bool_decide_eq_true.
  apply Exists_exists in Hex as (i & Hi & Hri & Hs).
  apply Exists_exists. exists i. split; [done|]. split; [by etrans|done].
Qed.

(** A removal leaves the ancestors of what it leaves. *)
Lemma removeAll_prunes (fs : FS.t) (p : path) : prunes (FS.removeAll fs p).1 fs.
Proof.
  split; [apply removeAll_shrinks|].
  unfold FS.removeAll. destruct (FS.belowFile fs p); [done|]. simpl.
  intros q r Hqr [n Hr].
  apply map_lookup_filter_Some in Hr as [Hr Hkeep]. simpl in Hkeep.
  destruct (FS.nodes fs !! q) as [m|] eqn:Hq.
  2:{ apply map_lookup_filter_None. by left. }
  apply map_lookup_filter_Some. split; [done|]. simpl.
  destruct (decide (p `prefix_of` q)) as [Hpq|Hpq].
  - right. destruct Hkeep as [Hu|Hst].
    + unfold FS.under in Hu. apply bool_decide_eq_false in Hu.
      exfalso. apply Hu. by etrans.
    + by eapply stuck_above.
  - left. unfold FS.under. by apply bool_decide_eq_false.
Qed.

(** What [os.Stat] finds after entries were removed, it found before. *)
Lemma prunes_stat (fs' fs : FS.t) (p : path) (n : FS.node) :
  prunes fs' fs → FS.stat fs' p = Some n → FS.stat fs p = Some n.
Proof.
  intros [Hsh Hcl] Hs. rewrite <- Hs. symmetry. apply stat_ext.
  intros q Hq. apply (Hcl q p Hq). exists n. by apply stat_lookup.
Qed.

Lemma cleanupDeps_prunes (chartPath : path) (deps : list FS.YamlDep) (fs : FS.t)
    (c : Cleaner) :
  prunes (cleanupDeps chartPath deps fs c).1.1 fs.
Proof.
  revert fs c. induction deps as [|dep deps IH]; intros fs c; [done|].
  rewrite cleanupDeps_cons.
  destruct (candidate fs chartPath dep) as [p|]; [|by apply IH].
  destruct (negb _); [|by apply IH].
  pose proof (removeAll_prunes fs p) as Hp.
  destruct (FS.removeAll fs p) as [fs' [e|]]; cbn [fst] in *; [done|].
  etrans; [apply IH|done].
Qed.

Lemma cleanupFileDependencies_prunes (fs : FS.t) (chartPath : path) (c : Cleaner) :
  prunes (cleanupFileDependencies fs chartPath c).1.1 fs.
Proof.
  unfold cleanupFileDependencies.
  destruct (FS.readYaml fs _) as [deps|[]]; try done. apply cleanupDeps_prunes.
Qed.

Lemma walkEntries_prunes
    (rec : FS.t → path → Cleaner → FS.t * Cleaner * outcome)
    (chartsDir : path) (files : list (string * bool)) (fs : FS.t) (c : Cleaner) :
  (∀ fs0 q c0, prunes (rec fs0 q c0).1.1 fs0) →
  prunes (walkEntries rec chartsDir files fs c).1.1 fs.
Proof.
  intros Hrec. revert fs c.
  induction files as [|[name isDir] rest IH]; intros fs c; [done|].
  simpl. destruct isDir; [|by apply IH].
  pose proof (Hrec fs (Join chartsDir [name]) c) as Hcall.
  destruct (rec fs (Join chartsDir [name]) c) as [[fs1 c1] [|e|]];
    cbn [fst] in *; [|done|done].
  etrans; [apply IH|done].
Qed.

Lemma processChart_prunes (fuel : nat) (fs : FS.t) (chartPath : path) (c : Cleaner) :
  prunes (processChart fuel fs chartPath c).1.1 fs.
Proof.
  revert fs chartPath c. induction fuel as [|fuel IH]; intros fs chartPath c; [done|].
  simpl. destruct (FS.IsNotExist _); [done|].
  pose proof (cleanupFileDependencies_prunes fs chartPath c) as Hdeps.
  destruct (cleanupFileDependencies fs chartPath c) as [[fs1 c1] [|e|]];
    cbn [fst] in *; [|done|done].
  destruct (FS.stat fs1 (Join chartPath ["charts"])); [|done].
  destruct (FS.readDir fs1 (Join chartPath ["charts"])) as [files|e]; [|done].
  etrans; [|exact Hdeps]. apply walkEntries_prunes. intros fs0 q c0. apply IH.
Qed.

Lemma recordSpec_refl (fs fs' : FS.t) (c : Cleaner) (out : outcome) :
  recordSpec fs c (fs', c, out).
Proof.
  exists []. simpl. split; [by rewrite app_nil_r|].
  split; [by intros p ?%elem_of_nil|by intros _ p ?%elem_of_nil].
Qed.

Lemma recordSpec_trans (fs fs1 : FS.t) (c c1 : Cleaner)
    (r : FS.t * Cleaner * outcome) :
  prunes fs1 fs → opts c1 = opts c → shrinks r.1.1 fs1 →
  recordSpec fs c (fs1, c1, Done) → recordSpec fs1 c1 r → recordSpec fs c r.
Proof.
  intros Hpr Ho Hsh2 (l1 & Hl1 & Hex1 & Hgone1) (l2 & Hl2 & Hex2 & Hgone2).
  pose proof Hpr as [Hsh1 _].
  simpl in *. exists (l1 ++ l2). split; [by rewrite Hl2, Hl1, app_assoc|]. split.
  - intros p [Hp|Hp]%elem_of_app; [by apply Hex1|].
    specialize (Hex2 p Hp).
    destruct (FS.IsNotExist (FS.statErr fs p)) eqn:He; [|done].
    apply (notExist_shrinks _ _ _ Hsh1) in He. congruence.
  - intros Hdry p [Hp|Hp]%elem_of_app.
    + destruct (Hgone1 Hdry p Hp) as [Hwas Hnow]. split; [done|].
      by eapply notExist_shrinks.
    + destruct (Hgone2 (eq_trans (f_equal DryRun Ho) Hdry) p Hp) as [[n Hwas] Hnow].
      split; [|done]. exists n. by eapply prunes_stat.
Qed.

Lemma cleanupDeps_record (chartPath : path) (deps : list FS.YamlDep) (fs : FS.t)
    (c : Cleaner) :
  recordSpec fs c (cleanupDeps chartPath deps fs c).
Proof.
  revert fs c. induction deps as [|dep deps IH]; intros fs c.
  { apply recordSpec_refl. }
  rewrite cleanupDeps_cons.
  destruct (candidate fs chartPath dep) as [p|] eqn:Hcand; [|by apply IH].
  apply candidate_outside in Hcand as (_ & Hex & _).
  destruct (DryRun (opts c)) eqn:Hdry; cbn [negb].
  - pose proof (cleanupDeps_spec chartPath deps fs (append c p)) as (Hsh & _).
    eapply (recordSpec_trans fs fs c (append c p)); [done|done|done| |by apply IH].
    exists [p]. simpl. split; [done|]. split.
    + by intros q ->%list_elem_of_singleton.
    + by rewrite Hdry.
  - pose proof (removeAll_prunes fs p) as Hpr1.
    pose proof (removeAll_notExist fs p) as Hgone.
    pose proof (removeAll_success fs p) as Hok.
    destruct (FS.removeAll fs p) as [fs1 [e|]]; cbn [fst snd] in Hpr1, Hgone, Hok.
    { apply recordSpec_refl. }
    pose proof (cleanupDeps_spec chartPath deps fs1 (append c p)) as (Hsh & _).
    eapply (recordSpec_trans fs fs1 c (append c p)); [done|done|done| |by apply IH].
    exists [p]. simpl. split; [done|]. split.
    + by intros q ->%list_elem_of_singleton.
    + intros _ q ->%list_elem_of_singleton. split; [|by apply Hgone].
      specialize (Hok eq_refl).
      destruct (FS.nodes fs !! p) as [n|] eqn:Hn.
      * exists n. apply stat_Some, resolve_inl. done.
      * assert (FS.IsNotExist (FS.statErr fs p) = true) as He; [|congruence].
        by apply notExist_spec.
Qed.

Lemma cleanupFileDependencies_record (fs : FS.t) (chartPath : path) (c : Cleaner) :
  recordSpec fs c (cleanupFileDependencies fs chartPath c).
Proof.
  unfold cleanupFileDependencies.
  destruct (FS.readYaml fs _) as [deps|[]]; try apply recordSpec_refl.
  apply cleanupDeps_record.
Qed.

Lemma walkEntries_record
    (rec : FS.t → path → Cleaner → FS.t * Cleaner * outcome)
    (chartsDir : path) (files : list (string * bool)) (fs : FS.t) (c : Cleaner) :
  (∀ fs0 q c0, cleanupSpec fs0 c0 (rec fs0 q c0)) →
  (∀ fs0 q c0, prunes (rec fs0 q c0).1.1 fs0) →
  (∀ fs0 q c0, recordSpec fs0 c0 (rec fs0 q c0)) →
  recordSpec fs c (walkEntries rec chartsDir files fs c).
Proof.
  intros Hspec Hprunes Hrec. revert fs c.
  induction files as [|[name isDir] rest IH]; intros fs c.
  { apply recordSpec_refl. }
  simpl. destruct isDir; [|by apply IH].
  pose proof (Hrec fs (Join chartsDir [name]) c) as Hcall.
  pose proof (Hprunes fs (Join chartsDir [name]) c) as Hpr1.
  pose proof (Hspec fs (Join chartsDir [name]) c) as (_ & Ho1 & _).
  destruct (rec fs (Join chartsDir [name]) c) as [[fs1 c1] [|e|]]; [|done|done].
  pose proof (walkEntries_cleanupSpec rec chartsDir rest fs1 c1 Hspec) as (Hsh2 & _).
  eapply recordSpec_trans; [exact Hpr1|exact Ho1|exact Hsh2|exact Hcall|apply IH].
Qed.

Lemma processChart_record (fuel : nat) (fs : FS.t) (chartPath : path) (c : Cleaner) :
  recordSpec fs c (processChart fuel fs chartPath c).
Proof.
  revert fs chartPath c. induction fuel as [|fuel IH]; intros fs chartPath c.
  { apply recordSpec_refl. }
  simpl. destruct (FS.IsNotExist _); [apply recordSpec_refl|].
  pose proof (cleanupFileDependencies_record fs chartPath c) as Hdeps.
  pose proof (cleanupFileDependencies_prunes fs chartPath c) as Hpr1.
  pose proof (cleanupFileDependencies_spec fs chartPath c) as (_ & Ho1 & _).
  destruct (cleanupFileDependencies fs chartPath c) as [[fs1 c1] [|e|]];
    [|done|done].
  cbn [fst snd] in Hpr1, Ho1.
  assert (∀ r, cleanupSpec fs1 c1 r → recordSpec fs1 c1 r → recordSpec fs c r) as Hstep.
  { intros r (Hsh2 & _) Hr. by eapply recordSpec_trans. }
  destruct (FS.stat fs1 (Join chartPath ["charts"]));
    [|apply Hstep; [apply cleanupSpec_refl|apply recordSpec_refl]].
  destruct (FS.readDir fs1 (Join chartPath ["charts"])) as [files|e];
    [|apply Hstep; [apply cleanupSpec_refl|apply recordSpec_refl]].
  apply Hstep.
  - apply walkEntries_cleanupSpec. intros fs0 q c0. apply processChart_spec.
  - apply walkEntries_record; [intros fs0 q c0; apply processChart_spec| |].
    + intros fs0 q c0. apply processChart_prunes.
    + intros fs0 q c0. apply IH.
Qed.

End cleanup_records.

(** X12. For every path in the deletion set of a cleanup run, [os.Stat]
    did not answer that it does not exist when the run started: the path
    existed or lay below a regular file (a dry run records such a path). In
    a run that is not a dry run, every recorded path existed when the run
    started and does not exist when the run ends, whether the run returns
    nil or an error. *)
Theorem cleanup_recorded_paths (fs : FS.t) (o : Cleanup.Options) (p : path) :
  let run := Cleanup.Run fs o in
  p ∈ Cleanup.deletedPaths run.1.2 →
  FS.IsNotExist (FS.statErr fs p) = false ∧
  (Cleanup.DryRun o = false →
   is_Some (FS.stat fs p) ∧ FS.IsNotExist (FS.statErr run.1.1 p) = true).
Proof.
  intros run. subst run. unfold Cleanup.Run, Cleanup.Cleanup.
  set (r := Cleanup.processChart _ _ _ _).
  destruct (processChart_record (Cleanup.fuelFor fs) fs
              (Cleanup.ChartPath (Cleanup.opts (Cleanup.NewCleaner o)))
              (Cleanup.NewCleaner o)) as (l & Hl & Hex & Hgone).
  fold r in Hl, Hgone. rewrite Hl.
  change (Cleanup.deletedPaths (Cleanup.NewCleaner o) ++ l) with l.
  intros Hp. split; [by apply Hex|]. intros Hdry. by apply Hgone.
Qed.

Lemma cleanup_recorded_paths_witness :
  FS.IsNotExist (FS.statErr localdbTree ["A"; "localdb"]) = false ∧
  (Cleanup.DryRun (cleanupOptions ["A"] false) = false →
   is_Some (FS.stat localdbTree ["A"; "localdb"]) ∧
   FS.IsNotExist
     (FS.statErr (Cleanup.Run localdbTree (cleanupOptions ["A"] false)).1.1
        ["A"; "localdb"]) = true).
Proof.
  apply (cleanup_recorded_paths localdbTree (cleanupOptions ["A"] false)
           ["A"; "localdb"]).
  apply (bool_decide_unpack _). vm_compute. exact I.
Defined.

Section cleanup_noop.
Import Filepath Cleanup.

Lemma noFileDepsb_noFileDeps (fs : FS.t) : noFileDepsb fs = true → noFileDeps fs.
Proof.
  unfold noFileDepsb. rewrite forallb_forall. intros H q r deps Hq.
  specialize (H (q, FS.RegularFile r (Some deps))). simpl in H.
  rewrite forallb_forall in H. apply Forall_forall. intros y Hy.
  apply negb_true_iff, H.
  - apply list_elem_of_In. by apply elem_of_map_to_list.
  - by apply list_elem_of_In.
Qed.

Lemma candidate_not_file (fs : FS.t) (chartPath : path) (dep : FS.YamlDep) :
  HasPrefix (FS.depRepository dep) "file:" = false →
  candidate fs chartPath dep = None.
Proof. intros H. unfold candidate. by rewrite H. Qed.

Lemma cleanupFileDependencies_noop (fs : FS.t) (chartPath : path) (c : Cleaner) :
  noFileDeps fs → (cleanupFileDependencies fs chartPath c).1 = (fs, c).
Proof.
  intros Hno. unfold cleanupFileDependencies.
  destruct (FS.readYaml fs (Join chartPath ["Chart.yaml"])) as [deps|[]] eqn:Hq;
    try done.
  apply readYaml_Ok, stat_lookup in Hq.
  rewrite cleanupDeps_settled; [done|].
  eapply Forall_impl; [by eapply Hno|]. intros dep. apply candidate_not_file.
Qed.

Lemma walkEntries_noop
    (rec : FS.t → path → Cleaner → FS.t * Cleaner * outcome)
    (chartsDir : path) (files : list (string * bool)) (fs : FS.t) (c : Cleaner) :
  (∀ q c0, (rec fs q c0).1 = (fs, c0)) →
  (walkEntries rec chartsDir files fs c).1 = (fs, c).
Proof.
  intros Hrec. induction files as [|[name isDir] rest IH]; [done|].
  simpl. destruct isDir; [|done].
  pose proof (Hrec (Join chartsDir [name]) c) as Hcall.
  destruct (rec fs (Join chartsDir [name]) c) as [[fs1 c1] [|e|]];
    cbn [fst] in Hcall; injection Hcall as -> ->; done.
Qed.

Lemma processChart_noop (fuel : nat) (fs : FS.t) (chartPath : path) (c : Cleaner) :
  noFileDeps fs → (processChart fuel fs chartPath c).1 = (fs, c).
Proof.
  intros Hno. revert chartPath c.
  induction fuel as [|fuel IH]; intros chartPath c; [done|].
  simpl. destruct (FS.IsNotExist _); [done|].
  pose proof (cleanupFileDependencies_noop fs chartPath c Hno) as Hdeps.
  destruct (cleanupFileDependencies fs chartPath c) as [[fs1 c1] [|e|]];
    cbn [fst] in Hdeps; injection Hdeps as -> ->; [|done|done].
  destruct (FS.stat fs (Join chartPath ["charts"])); [|done].
  destruct (FS.readDir fs (Join chartPath ["charts"])) as [files|e]; [|done].
  by apply walkEntries_noop.
Qed.

End cleanup_noop.

(** X13. When no manifest of the tree declares a dependency whose
    repository starts with [file:], cleanup removes nothing and records
    nothing, whatever the mode. *)
Theorem cleanup_without_file_dependencies (fs : FS.t) (o : Cleanup.Options) :
  noFileDeps fs →
  (Cleanup.Run fs o).1.1 = fs ∧ Cleanup.deletedPaths (Cleanup.Run fs o).1.2 = [].
Proof.
  intros Hno. unfold Cleanup.Run, Cleanup.Cleanup.
  by rewrite (processChart_noop _ _ _ _ Hno).
Qed.

Lemma cleanup_without_file_dependencies_witness :
  (Cleanup.Run distinctTree (cleanupOptions ["r"] false)).1.1 = distinctTree ∧
  Cleanup.deletedPaths (Cleanup.Run distinctTree (cleanupOptions ["r"] false)).1.2 = [].
Proof.
  apply (cleanup_without_file_dependencies distinctTree (cleanupOptions ["r"] false)).
  apply noFileDepsb_noFileDeps. vm_compute. reflexivity.
Defined.

(** ** The path a [file:] repository refers to *)

Section repository_paths.
Import Filepath Cleanup.

Lemma substring_all (s : string) : String.substring 0 (String.length s) s = s.
Proof. induction s as [|a s IH]; simpl; [done|]. by rewrite IH. Qed.

Lemma prefix_second_slash (x : string) (a : ascii) (s : string) :
  hasSlash x = false → String.prefix (String a (String "/" s)) x = false.
Proof.
  destruct x as [|b [|c r]]; cbn [String.prefix hasSlash]; try done.
  - intros _. by destruct (Ascii.ascii_dec a b).
  - intros [_ [Hc _]%orb_false_elim]%orb_false_elim.
    destruct (Ascii.ascii_dec a b); [|done].
    destruct (Ascii.ascii_dec "/" c) as [Heq|]; [|done].
    subst c. by rewrite Ascii.eqb_refl in Hc.
Qed.

Lemma prefix_first_slash (x : string) (s : string) :
  hasSlash x = false → String.prefix (String "/" s) x = false.
Proof.
  destruct x as [|b r]; cbn [String.prefix hasSlash]; [done|].
  intros [Hb _]%orb_false_elim.
  destruct (Ascii.ascii_dec "/" b) as [Heq|]; [|done].
  subst b. by rewrite Ascii.eqb_refl in Hb.
Qed.

Lemma prefix_append (pre s : string) :
  String.prefix pre (String.append pre s) = true.
Proof.
  induction pre as [|a pre IH]; [by destruct s|].
  change (String.append (String a pre) s) with (String a (String.append pre s)).
  cbn [String.prefix]. by destruct (Ascii.ascii_dec a a).
Qed.

Lemma prefix_append_same (pre s1 s2 : string) :
  String.prefix (String.append pre s1) (String.append pre s2) = String.prefix s1 s2.
Proof.
  induction pre as [|a pre IH]; [done|].
  change (String.append (String a pre) s1) with (String a (String.append pre s1)).
  change (String.append (String a pre) s2) with (String a (String.append pre s2)).
  cbn [String.prefix]. by destruct (Ascii.ascii_dec a a).
Qed.

Lemma substring_append (pre s : string) :
  String.substring (String.length pre)
    (String.length (String.append pre s) - String.length pre)
    (String.append pre s) = s.
Proof.
  induction pre as [|a pre IH].
  - change (String.append "" s) with s. cbn [String.length].
    by rewrite Nat.sub_0_r, substring_all.
  - change (String.append (String a pre) s) with (String a (String.append pre s)).
    cbn [String.length String.substring Nat.sub]. exact IH.
Qed.

Lemma TrimPrefix_append (pre s : string) : TrimPrefix (String.append pre s) pre = s.
Proof.
  unfold TrimPrefix, HasPrefix. by rewrite prefix_append, substring_append.
Qed.

Lemma TrimPrefix_none (pre s : string) :
  HasPrefix s pre = false → TrimPrefix s pre = s.
Proof. unfold TrimPrefix. by intros ->. Qed.

(** The three steps of [originalDirPathOf] are three [TrimPrefix]. *)
Lemma originalDirPathOf_trims (chartPath : path) (repository : string) :
  originalDirPathOf chartPath repository =
  Join chartPath
    [TrimPrefix (TrimPrefix (TrimPrefix repository "file://") "file:") "./"].
Proof. reflexivity. Qed.

Lemma splitSlash_parent (x : string) :
  hasSlash x = false →
  splitSlash (String "." (String "." (String "/" x))) = [".."; x].
Proof. intros Hx. simpl. by rewrite (splitSlash_no_slash x Hx). Qed.

Lemma prefix_first_other (a b : ascii) (s1 s2 : string) :
  a ≠ b → String.prefix (String a s1) (String b s2) = false.
Proof.
  intros Hab. cbn [String.prefix]. by destruct (Ascii.ascii_dec a b).
Qed.

End repository_paths.

(** X14. The spellings of a local repository are equivalent: for a plain
    directory name x that does not itself start with [file:], the
    repositories [file:x], [file://x], [file:./x] and [file://./x] all
    refer to <chartDir>/x, and [file:../x] to x next to the chart
    directory. The two prefixes are stripped one after the other, so
    [file://file:x] refers to <chartDir>/x as well. *)
Theorem originalDirPathOf_spellings (chartPath : path) (x : string) :
  Filepath.plainName x = true →
  Cleanup.HasPrefix x "file:" = false →
  Cleanup.originalDirPathOf chartPath (String.append "file:" x) = chartPath ++ [x] ∧
  Cleanup.originalDirPathOf chartPath (String.append "file://" x) = chartPath ++ [x] ∧
  Cleanup.originalDirPathOf chartPath (String.append "file:./" x) = chartPath ++ [x] ∧
  Cleanup.originalDirPathOf chartPath (String.append "file://./" x) = chartPath ++ [x] ∧
  Cleanup.originalDirPathOf chartPath (String.append "file://file:" x) = chartPath ++ [x] ∧
  Cleanup.originalDirPathOf chartPath (String.append "file:../" x) =
    Filepath.Dir chartPath ++ [x].
Proof.
  intros Hx Hfile. pose proof Hx as (Hslash & Hne & Hdot & Hdots)%plainName_spec.
  assert (Cleanup.TrimPrefix x "./" = x) as Hbare.
  { apply TrimPrefix_none. unfold Cleanup.HasPrefix.
    by apply prefix_second_slash. }
  assert (Cleanup.TrimPrefix x "file:" = x) as Hx5 by by apply TrimPrefix_none.
  assert (∀ s, Filepath.hasSlash s = false →
               Cleanup.TrimPrefix (String.append "file:" s) "file://" =
               String.append "file:" s) as Hno2.
  { intros s Hs. apply TrimPrefix_none. unfold Cleanup.HasPrefix.
    change "file://" with (String.append "file:" "//").
    rewrite prefix_append_same. by apply prefix_first_slash. }
  rewrite !originalDirPathOf_trims. repeat split.
  - rewrite Hno2 by done.
    by rewrite (TrimPrefix_append "file:" x), Hbare, Join_plain.
  - by rewrite (TrimPrefix_append "file://" x), Hx5, Hbare, Join_plain.
  - change (String.append "file:./" x)
      with (String.append "file:" (String.append "./" x)).
    rewrite (TrimPrefix_none "file://").
    2:{ unfold Cleanup.HasPrefix.
        change "file://" with (String.append "file:" "//").
        rewrite prefix_append_same. by apply prefix_first_other. }
    rewrite (TrimPrefix_append "file:"), (TrimPrefix_append "./").
    by apply Join_plain.
  - change (String.append "file://./" x)
      with (String.append "file://" (String.append "./" x)).
    rewrite (TrimPrefix_append "file://").
    rewrite (TrimPrefix_none "file:").
    2:{ unfold Cleanup.HasPrefix. by apply prefix_first_other. }
    rewrite (TrimPrefix_append "./"). by apply Join_plain.
  - change (String.append "file://file:" x)
      with (String.append "file://" (String.append "file:" x)).
    rewrite (TrimPrefix_append "file://"), (TrimPrefix_append "file:"), Hbare.
    by apply Join_plain.
  - change (String.append "file:../" x)
      with (String.append "file:" (String.append "../" x)).
    rewrite (TrimPrefix_none "file://").
    2:{ unfold Cleanup.HasPrefix.
        change "file://" with (String.append "file:" "//").
        rewrite prefix_append_same. by apply prefix_first_other. }
    rewrite (TrimPrefix_append "file:").
    rewrite (TrimPrefix_none "./").
    2:{ unfold Cleanup.HasPrefix. cbn [String.append String.prefix].
        destruct (Ascii.ascii_dec "." "."); [|done].
        by destruct (Ascii.ascii_dec "/" "."). }
    change (String.append "../" x) with (String "." (String "." (String "/" x))).
    unfold Filepath.Join. cbn [map concat].
    rewrite (splitSlash_parent x Hslash). cbn [app fold_left].
    change (Filepath.cleanStep chartPath "..") with (Filepath.Dir chartPath).
    by rewrite cleanStep_plain.
Qed.

Lemma originalDirPathOf_spellings_witness :
  Cleanup.originalDirPathOf ["A"] "file:localdb" = ["A"; "localdb"] ∧
  Cleanup.originalDirPathOf ["A"] "file://localdb" = ["A"; "localdb"] ∧
  Cleanup.originalDirPathOf ["A"] "file:./localdb" = ["A"; "localdb"] ∧
  Cleanup.originalDirPathOf ["A"] "file://./localdb" = ["A"; "localdb"] ∧
  Cleanup.originalDirPathOf ["A"] "file://file:localdb" = ["A"; "localdb"] ∧
  Cleanup.originalDirPathOf ["A"] "file:../localdb" = ["localdb"].
Proof.
  apply (originalDirPathOf_spellings ["A"] "localdb"); reflexivity.
Defined.

(** ** The earlier deduplicator against the current one *)

Section legacy.
Import Filepath.

Lemma scanParents_spec (parentPath : path) (paths : list Dedup.ChartPath_) :
  Legacy.scanParents parentPath paths = true ↔
  ∃ e, e ∈ paths ∧ Dedup.ParentPath e = parentPath.
Proof.
  induction paths as [|e rest IH]; simpl.
  - split; [done|]. by intros (e & ?%elem_of_nil & _).
  - case_decide as Hpar.
    + split; [|done]. intros _. exists e. split; [by left|done].
    + rewrite IH. split.
      * intros (e' & ? & ?). exists e'. split; [by right|done].
      * intros (e' & [->|?]%elem_of_cons & ?); [done|]. by exists e'.
Qed.

Lemma legacy_condemns (c : path) (l : Legacy.Deduplicator) (dep : Dedup.Dependency)
    (paths : list Dedup.ChartPath_) :
  Legacy.overallDependencies l !! Dedup.Key dep = Some paths →
  (∃ e, e ∈ paths ∧ Dedup.ParentPath e = Dir c) →
  Legacy.registerDependency c l dep =
  Legacy.mkDeduplicator (Legacy.overallDependencies l) (Legacy.currentDependencies l)
    (Legacy.deleteDependencies l ++ [Dedup.depPathOf c dep])
    (Legacy.verbose l) (Legacy.dryRun l) (Legacy.showDeleted l).
Proof.
  intros Hk Hpar%scanParents_spec. unfold Legacy.registerDependency.
  by rewrite Hk, Hpar.
Qed.

Lemma legacy_keeps (c : path) (l : Legacy.Deduplicator) (dep : Dedup.Dependency) :
  (∀ e, e ∈ default [] (Legacy.overallDependencies l !! Dedup.Key dep) →
        Dedup.ParentPath e ≠ Dir c) →
  Legacy.registerDependency c l dep =
  Legacy.mkDeduplicator
    (<[Dedup.Key dep :=
         default [] (Legacy.overallDependencies l !! Dedup.Key dep) ++
         [Dedup.mkChartPath (Dedup.depPathOf c dep) (Dir c)]]>
       (Legacy.overallDependencies l))
    (Legacy.currentDependencies l ++ [Dedup.depPathOf c dep])
    (Legacy.deleteDependencies l)
    (Legacy.verbose l) (Legacy.dryRun l) (Legacy.showDeleted l).
Proof.
  intros Hno. unfold Legacy.registerDependency.
  destruct (Legacy.overallDependencies l !! Dedup.Key dep) as [paths|]; [|done].
  simpl in Hno.
  destruct (Legacy.scanParents (Dir c) paths) eqn:Hscan; [|done].
  apply scanParents_spec in Hscan as (e & He & Hpar). by destruct (Hno e He).
Qed.

End legacy.

(** X15. The deduplicator of main.go and the current one, holding the same
    registry, kept list and deletion set, handle a dependency alike as long
    as no occurrence registered under its key has its path. They differ
    when one has: if an occurrence registered under the key also has the
    parent directory of the chart, the earlier code condemns the path
    (which is registered), the current code keeps it. *)
Theorem legacy_registerDependency_compared (l : Legacy.Deduplicator)
    (d : Dedup.Deduplicator) (c : path) (dep : Dedup.Dependency) :
  sameBooks l d →
  ((∀ e, e ∈ registered d (Dedup.Key dep) → Dedup.Path e ≠ Dedup.depPathOf c dep) →
   sameBooks (Legacy.registerDependency c l dep) (Dedup.registerDependency c d dep)) ∧
  ((∃ e, e ∈ registered d (Dedup.Key dep) ∧ Dedup.Path e = Dedup.depPathOf c dep) →
   (∃ e, e ∈ registered d (Dedup.Key dep) ∧ Dedup.ParentPath e = Filepath.Dir c) →
   Legacy.deleteDependencies (Legacy.registerDependency c l dep) =
     Legacy.deleteDependencies l ++ [Dedup.depPathOf c dep] ∧
   Dedup.deleteDependencies (Dedup.registerDependency c d dep) =
     Dedup.deleteDependencies d).
Proof.
  intros (Hreg & Hcur & Hdel). split.
  - intros Hfresh.
    destruct (registerDependency_cases c d dep)
      as [(_ & Hpar & ->)|[[(e & He & Hp)|Hno] ->]].
    + unfold registered in Hpar. rewrite <- Hreg in Hpar.
      destruct (Legacy.overallDependencies l !! Dedup.Key dep) as [paths|] eqn:Hk.
      2:{ by destruct Hpar as (e & ?%elem_of_nil & _). }
      rewrite (legacy_condemns c l dep paths Hk Hpar).
      split; [done|]. split; [done|]. simpl. by rewrite Hdel.
    + by destruct (Hfresh e He).
    + unfold registered in *. rewrite <- Hreg in Hno.
      rewrite (legacy_keeps c l dep Hno).
      split; [simpl; by rewrite Hreg|]. split; [simpl; by rewrite Hcur|done].
  - intros Hsame Hpar. split.
    + unfold registered in Hpar. rewrite <- Hreg in Hpar.
      destruct (Legacy.overallDependencies l !! Dedup.Key dep) as [paths|] eqn:Hk.
      2:{ by destruct Hpar as (e & ?%elem_of_nil & _). }
      by rewrite (legacy_condemns c l dep paths Hk Hpar).
    + rewrite registerDependency_keep by by left. done.
Qed.

Lemma legacy_registerDependency_compared_witness :
  let x := Dedup.mkDependency "x" "1" in
  let l := Legacy.registerDependency ["r"] (Legacy.NewDeduplicator false true false) x in
  let d := Dedup.registerDependency ["r"]
             (Dedup.NewDeduplicator (dedupOptions ["r"] true)) x in
  Legacy.deleteDependencies (Legacy.registerDependency ["r"] l x) =
    Legacy.deleteDependencies l ++ [["r"; "charts"; "x"]] ∧
  Dedup.deleteDependencies (Dedup.registerDependency ["r"] d x) =
    Dedup.deleteDependencies d.
Proof.
  intros x l d.
  destruct (legacy_registerDependency_compared l d ["r"] x) as [_ Hdiff].
  - repeat split; vm_compute; reflexivity.
  - apply Hdiff.
    + exists (Dedup.mkChartPath ["r"; "charts"; "x"] []). split; [|reflexivity].
      vm_compute. left.
    + exists (Dedup.mkChartPath ["r"; "charts"; "x"] []). split; [|reflexivity].
      vm_compute. left.
Defined.

(** ** The kept list and the registry *)

Section kept_and_registered.
Import Filepath Dedup.

Lemma replay_kept_registered (o : Options) (evs : list event) (p : path) :
  p ∈ currentDependencies (replay evs (NewDeduplicator o)) ↔
  ∃ k e, e ∈ registered (replay evs (NewDeduplicator o)) k ∧ Path e = p.
Proof.
  revert p. induction evs as [|ev evs IH] using rev_ind; intros p.
  { split; [by intros ?%elem_of_nil|]. by intros (k & e & ?%elem_of_nil & _). }
  rewrite replay_snoc. destruct ev as [q|c dep]; [apply IH|]. simpl.
  destruct (registerDependency_cases c (replay evs (NewDeduplicator o)) dep)
    as [(_ & _ & ->)|[_ ->]]; [apply IH|].
  simpl. rewrite elem_of_app, IH, list_elem_of_singleton. split.
  - intros [(k & e & He & Hp)|Heq]; [|subst p].
    + exists k, e. split; [|done]. rewrite registered_keep.
      case_decide; [subst k; apply elem_of_app; by left|done].
    + exists (Key dep), (mkChartPath (depPathOf c dep) (Dir c)). split; [|done].
      rewrite registered_keep, decide_True by done. apply elem_of_app. right. by left.
  - intros (k & e & He & Hp). rewrite registered_keep in He.
    case_decide as Hk; [|left; by eauto].
    subst k. apply elem_of_app in He as [He|Heq%list_elem_of_singleton];
      [left; by eauto|subst e; by right].
Qed.

End kept_and_registered.

(** X16. The kept list and the registry are kept in step: after a run a
    path is in the kept list exactly when some key has a registered
    occurrence with that path. *)
Theorem dedup_kept_iff_registered (fs : FS.t) (o : Dedup.Options) (root p : path) :
  let d' := (Dedup.DeduplicateChart fs (Dedup.NewDeduplicator o) root).1.2 in
  p ∈ Dedup.currentDependencies d' ↔
  ∃ k e, e ∈ registered d' k ∧ Dedup.Path e = p.
Proof.
  intros d'. destruct (DeduplicateChart_replay fs o root) as [Hrep _].
  fold d' in Hrep. rewrite Hrep. apply replay_kept_registered.
Qed.

(** ** Cleanup records a removed directory once *)

Section cleanup_nodup.
Import Filepath Cleanup.

Lemma newPaths_unique (c : Cleaner) (c' : Cleaner) (l l' : list path) :
  deletedPaths c' = deletedPaths c ++ l → deletedPaths c' = deletedPaths c ++ l' →
  l = l'.
Proof. intros -> Heq. by apply app_inv_head in Heq. Qed.

Lemma nodup_step (fs fs1 : FS.t) (c c1 : Cleaner) (r : FS.t * Cleaner * outcome)
    (l1 l2 : list path) :
  DryRun (opts c) = false → opts c1 = opts c →
  recordSpec fs c (fs1, c1, Done) → recordSpec fs1 c1 r →
  deletedPaths c1 = deletedPaths c ++ l1 → deletedPaths r.1.2 = deletedPaths c1 ++ l2 →
  NoDup l1 → NoDup l2 → NoDup (l1 ++ l2).
Proof.
  intros Hdry Ho (l1' & Hl1' & _ & Hgone1) (l2' & Hl2' & Hex2 & _) Hl1 Hl2 Hn1 Hn2.
  simpl in *.
  assert (l1' = l1) as -> by by eapply newPaths_unique.
  assert (l2' = l2) as -> by by eapply newPaths_unique.
  apply NoDup_app. split; [done|]. split; [|done].
  intros p Hp1 Hp2. destruct (Hgone1 Hdry p Hp1) as [_ Hgone].
  specialize (Hex2 p Hp2). congruence.
Qed.

Lemma cleanupDeps_nodup (chartPath : path) (deps : list FS.YamlDep) (fs : FS.t)
    (c : Cleaner) :
  DryRun (opts c) = false →
  ∃ l, deletedPaths (cleanupDeps chartPath deps fs c).1.2 = deletedPaths c ++ l ∧
       NoDup l.
Proof.
  revert fs c. induction deps as [|dep deps IH]; intros fs c Hdry.
  { exists []. split; [by rewrite app_nil_r|constructor]. }
  rewrite cleanupDeps_cons.
  destruct (candidate fs chartPath dep) as [p|] eqn:Hcand; [|by apply IH].
  rewrite Hdry. cbn [negb].
  pose proof (cleanupDeps_record chartPath [dep] fs c) as Hone.
  rewrite cleanupDeps_cons, Hcand, Hdry in Hone. cbn [negb cleanupDeps] in Hone.
  destruct (FS.removeAll fs p) as [fs1 [e|]] eqn:Hrm.
  { exists []. split; [by rewrite app_nil_r|constructor]. }
  destruct (IH fs1 (append c p) Hdry) as (l & Hl & Hnodup).
  exists ([p] ++ l). split; [by rewrite Hl, app_assoc|].
  eapply (nodup_step fs fs1 c (append c p) (cleanupDeps chartPath deps fs1 (append c p)));
    [done|done|exact Hone|apply cleanupDeps_record|done|done|
     by apply NoDup_singleton|done].
Qed.

Lemma walkEntries_nodup
    (rec : FS.t → path → Cleaner → FS.t * Cleaner * outcome)
    (chartsDir : path) (files : list (string * bool)) (fs : FS.t) (c : Cleaner) :
  (∀ fs0 q c0, cleanupSpec fs0 c0 (rec fs0 q c0)) →
  (∀ fs0 q c0, prunes (rec fs0 q c0).1.1 fs0) →
  (∀ fs0 q c0, recordSpec fs0 c0 (rec fs0 q c0)) →
  (∀ fs0 q c0, DryRun (opts c0) = false →
     ∃ l, deletedPaths (rec fs0 q c0).1.2 = deletedPaths c0 ++ l ∧ NoDup l) →
  DryRun (opts c) = false →
  ∃ l, deletedPaths (walkEntries rec chartsDir files fs c).1.2 = deletedPaths c ++ l ∧
       NoDup l.
Proof.
  intros Hspec Hprunes Hrecord Hrec. revert fs c.
  induction files as [|[name isDir] rest IH]; intros fs c Hdry.
  { exists []. split; [by rewrite app_nil_r|constructor]. }
  simpl. destruct isDir; [|by apply IH].
  pose proof (Hrec fs (Join chartsDir [name]) c Hdry) as (l1 & Hl1 & Hn1).
  pose proof (Hrecord fs (Join chartsDir [name]) c) as Hrec1.
  pose proof (Hspec fs (Join chartsDir [name]) c) as (_ & Ho1 & _).
  destruct (rec fs (Join chartsDir [name]) c) as [[fs1 c1] [|e|]];
    cbn [fst snd] in *; [|by eauto|by eauto].
  assert (DryRun (opts c1) = false) as Hdry1 by congruence.
  destruct (IH fs1 c1 Hdry1) as (l2 & Hl2 & Hn2).
  exists (l1 ++ l2). split; [by rewrite Hl2, Hl1, app_assoc|].
  eapply (nodup_step fs fs1 c c1 (walkEntries rec chartsDir rest fs1 c1));
    [done|done|done| |done|done|done|done].
  by apply walkEntries_record.
Qed.

Lemma processChart_nodup (fuel : nat) (fs : FS.t) (chartPath : path) (c : Cleaner) :
  DryRun (opts c) = false →
  ∃ l, deletedPaths (processChart fuel fs chartPath c).1.2 = deletedPaths c ++ l ∧
       NoDup l.
Proof.
  revert fs chartPath c. induction fuel as [|fuel IH]; intros fs chartPath c Hdry.
  { exists []. split; [by rewrite app_nil_r|constructor]. }
  simpl. destruct (FS.IsNotExist _);
    [exists []; split; [by rewrite app_nil_r|constructor]|].
  assert (∃ l, deletedPaths (cleanupFileDependencies fs chartPath c).1.2 =
               deletedPaths c ++ l ∧ NoDup l) as (l1 & Hl1 & Hn1).
  { unfold cleanupFileDependencies.
    destruct (FS.readYaml fs _) as [deps|[]];
      try (exists []; split; [by rewrite app_nil_r|constructor]).
    by apply cleanupDeps_nodup. }
  pose proof (cleanupFileDependencies_record fs chartPath c) as Hrec1.
  pose proof (cleanupFileDependencies_spec fs chartPath c) as (_ & Ho1 & _).
  destruct (cleanupFileDependencies fs chartPath c) as [[fs1 c1] [|e|]];
    cbn [fst snd] in *; [|by eauto|by eauto].
  assert (DryRun (opts c1) = false) as Hdry1 by congruence.
  assert (∀ r, recordSpec fs1 c1 r →
               (∃ l, deletedPaths r.1.2 = deletedPaths c1 ++ l ∧ NoDup l) →
               ∃ l, deletedPaths r.1.2 = deletedPaths c ++ l ∧ NoDup l) as Hstep.
  { intros r Hr (l2 & Hl2 & Hn2). exists (l1 ++ l2).
    split; [by rewrite Hl2, Hl1, app_assoc|].
    by eapply (nodup_step fs fs1 c c1 r). }
  destruct (FS.stat fs1 (Join chartPath ["charts"])).
  2:{ apply Hstep; [apply recordSpec_refl|].
      exists []. split; [by rewrite app_nil_r|constructor]. }
  destruct (FS.readDir fs1 (Join chartPath ["charts"])) as [files|e].
  2:{ apply Hstep; [apply recordSpec_refl|].
      exists []. split; [by rewrite app_nil_r|constructor]. }
  apply Hstep.
  - apply walkEntries_record; [intros fs0 q c0; apply processChart_spec| |].
    + intros fs0 q c0. apply processChart_prunes.
    + intros fs0 q c0. apply processChart_record.
  - apply walkEntries_nodup; [intros fs0 q c0; apply processChart_spec| | | |done].
    + intros fs0 q c0. apply processChart_prunes.
    + intros fs0 q c0. apply processChart_record.
    + intros fs0 q c0. apply IH.
Qed.

End cleanup_nodup.

(** X17. A cleanup run that is not a dry run records no path twice: once a
    directory is removed, a later dependency that refers to it finds
    nothing. (A dry run can record a path more than once.) *)
Theorem cleanup_records_once (fs : FS.t) (o : Cleanup.Options) :
  Cleanup.DryRun o = false →
  NoDup (Cleanup.deletedPaths (Cleanup.Run fs o).1.2).
Proof.
  intros Hdry. unfold Cleanup.Run, Cleanup.Cleanup.
  destruct (processChart_nodup (Cleanup.fuelFor fs) fs
              (Cleanup.ChartPath (Cleanup.opts (Cleanup.NewCleaner o)))
              (Cleanup.NewCleaner o) Hdry) as (l & Hl & Hnodup).
  by rewrite Hl.
Qed.

Lemma cleanup_records_once_witness :
  NoDup (Cleanup.deletedPaths
           (Cleanup.Run repeatedSourceTree (cleanupOptions ["r"] false)).1.2).
Proof.
  apply (cleanup_records_once repeatedSourceTree (cleanupOptions ["r"] false)).
  reflexivity.
Defined.

(** ** Paths below a regular file *)

Section below_file.
Import Filepath.

Lemma statErr_ENOTDIR (fs : FS.t) (p : path) :
  FS.statErr fs p = Some FS.ENOTDIR ↔ FS.belowFile fs p = true.
Proof.
  unfold FS.statErr, FS.resolve. destruct (FS.belowFile fs p); [done|].
  destruct (FS.nodes fs !! p); split; done.
Qed.

Lemma stat_below_file (fs : FS.t) (p k : path) :
  FS.belowFile fs p = true → FS.stat fs (p ++ k) = None.
Proof.
  intros Hb. unfold FS.stat, FS.resolve. by rewrite (belowFile_app _ _ k Hb).
Qed.

End below_file.

(** X18. [cleanup.Run] on a chart path that is a regular file or lies below
    one: [os.Stat] on the manifest fails, but not with not-exist, so the
    chart is not skipped; reading the manifest fails, and the run returns
    that error, having removed and recorded nothing. *)
Theorem cleanup_Run_root_not_directory (fs : FS.t) (o : Cleanup.Options) :
  let m := Filepath.Join (Cleanup.ChartPath o) ["Chart.yaml"] in
  FS.statErr fs m = Some FS.ENOTDIR →
  Cleanup.Run fs o =
    (fs, Cleanup.NewCleaner o,
     Failed (EWrap "failed to read Chart.yaml" (EPath "open" m))).
Proof.
  intros m Hm. unfold Cleanup.Run, Cleanup.Cleanup, Cleanup.fuelFor.
  cbn [Cleanup.processChart Cleanup.opts Cleanup.NewCleaner].
  fold m. rewrite Hm. cbn [FS.IsNotExist].
  unfold Cleanup.cleanupFileDependencies, FS.readYaml. fold m.
  apply statErr_ENOTDIR in Hm. unfold FS.resolve. by rewrite Hm.
Qed.

Lemma cleanup_Run_root_not_directory_witness :
  Cleanup.Run belowFileTree (cleanupOptions ["r"; "Chart.yaml"] false) =
    (belowFileTree, Cleanup.NewCleaner (cleanupOptions ["r"; "Chart.yaml"] false),
     Failed (EWrap "failed to read Chart.yaml"
               (EPath "open" ["r"; "Chart.yaml"; "Chart.yaml"]))).
Proof.
  apply (cleanup_Run_root_not_directory belowFileTree
           (cleanupOptions ["r"; "Chart.yaml"] false)).
  vm_compute. reflexivity.
Defined.

(** X19. [dedup.Run] rejects only a root for which [os.Stat] answers that
    it does not exist. With a root below a regular file the call fails
    otherwise, the run goes on, finds neither manifest nor charts
    directory, and returns nil with the file system as it was. *)
Theorem dedup_Run_root_below_file (fs : FS.t) (o : Dedup.Options) :
  FS.statErr fs (Dedup.ChartPath o) = Some FS.ENOTDIR →
  Dedup.Run fs o = (fs, Some None).
Proof.
  intros Hroot. unfold Dedup.Run. rewrite Hroot. cbn [FS.IsNotExist].
  apply statErr_ENOTDIR in Hroot.
  set (o' := match Dedup.OutputDir o with None => _ | Some _ => _ end).
  assert (Dedup.ChartPath o' = Dedup.ChartPath o) as Hpath
    by (subst o'; by destruct (Dedup.OutputDir o)).
  rewrite Hpath.
  unfold Dedup.DeduplicateChart, Dedup.fuelFor.
  cbn [Dedup.processDependencies].
  rewrite Join_manifest, Join_charts, !stat_below_file by done.
  cbn [Dedup.opts Dedup.record Dedup.NewDeduplicator Dedup.deleteDependencies
       Dedup.removePaths].
  unfold Dedup.packageChart.
  destruct (negb (Dedup.DryRun o')); by destruct (Dedup.Package o' && _).
Qed.

Lemma dedup_Run_root_below_file_witness :
  Dedup.Run belowFileTree (dedupOptions ["r"; "Chart.yaml"; "x"] false) =
    (belowFileTree, Some None).
Proof.
  apply (dedup_Run_root_below_file belowFileTree
           (dedupOptions ["r"; "Chart.yaml"; "x"] false)).
  vm_compute. reflexivity.
Defined.

(** The manifest of [belowFileTree] names r/Chart.yaml/x: [os.Stat] fails
    on it with ENOTDIR; a dry run records the path, a run that is not a dry
    run fails in removing it. *)
Lemma cleanup_target_below_file :
  let dry := Cleanup.Run belowFileTree (cleanupOptions ["r"] true) in
  let real := Cleanup.Run belowFileTree (cleanupOptions ["r"] false) in
  FS.statErr belowFileTree ["r"; "Chart.yaml"; "x"] = Some FS.ENOTDIR ∧
  dry.2 = Done ∧
  Cleanup.deletedPaths dry.1.2 = [["r"; "Chart.yaml"; "x"]] ∧
  real = (belowFileTree, Cleanup.NewCleaner (cleanupOptions ["r"] false),
          Failed (EWrapPath "failed to remove directory" ["r"; "Chart.yaml"; "x"]
                    (EPath "unlinkat" ["r"; "Chart.yaml"; "x"]))).
Proof. repeat split; vm_compute; reflexivity. Qed.

(** * The first occurrence in depth-first pre-order *)

(** ** The pre-order of a chart tree *)

Section preorder_facts.
Import Filepath Dedup.

Lemma childOf_names_NoDup (p : path) (l : list (path * FS.node)) :
  NoDup l.*1 → NoDup (omap (FS.childOf p) l).*1.
Proof.
  induction l as [|e l IH]; simpl; [constructor|].
  intros [Hnot Hnd]%NoDup_cons.
  destruct (FS.childOf p e) as [[x b]|] eqn:Hc; [|by apply IH].
  simpl. apply NoDup_cons. split; [|by apply IH].
  intros ([y b'] & Heq & Hin)%list_elem_of_fmap. simpl in Heq. subst y.
  apply list_elem_of_omap in Hin as (e' & He' & Hc').
  apply childOf_Some in Hc as [Hc _]. apply childOf_Some in Hc' as [Hc' _].
  apply Hnot. apply list_elem_of_fmap. exists e'. split; [congruence|done].
Qed.

(** [os.ReadDir] lists no name twice. *)
Lemma readDir_names_NoDup (fs : FS.t) (p : path) (es : list (string * bool)) :
  FS.readDir fs p = Ok es → NoDup es.*1.
Proof.
  unfold FS.readDir. destruct (FS.resolve fs p) as [[|]|]; try done.
  intros [= <-]. rewrite merge_sort_Permutation.
  apply childOf_names_NoDup, NoDup_fst_map_to_list.
Qed.



Lemma chartEntries_readDir (fs : FS.t) (p : path) (es : list (string * bool)) :
  FS.readDir fs (Join p ["charts"]) = Ok es → chartEntries fs p = es.
Proof. unfold chartEntries. by intros ->. Qed.

Lemma readDir_plain (fs : FS.t) (p : path) (es : list (string * bool))
    (x : string) (b : bool) :
  FS.valid fs → FS.readDir fs p = Ok es → (x, b) ∈ es → plainName x = true.
Proof.
  intros Hv Hdir Hx. apply (elem_of_readDir _ _ _ _ _ Hdir) in Hx as (n & Hn & _).
  eapply valid_entry_name; [done|]. by eexists.
Qed.



Lemma prefix_same_length {A : Type} (a b t : list A) :
  a `prefix_of` t → b `prefix_of` t → length a = length b → a = b.
Proof.
  intros Ha Hb Hlen.
  destruct (prefix_weak_total _ _ _ Ha Hb) as [H|H].
  - apply prefix_length_eq; [done|lia].
  - symmetry. apply prefix_length_eq; [done|lia].
Qed.

(** Two entries of a directory with a common descendant are the same. *)
Lemma entries_apart (cd : path) (x y : string) (t : path) :
  (cd ++ [x]) `prefix_of` t → (cd ++ [y]) `prefix_of` t → x = y.
Proof.
  intros Hx Hy.
  assert (cd ++ [x] = cd ++ [y]) as Heq.
  { eapply prefix_same_length; [done|done|]. by rewrite !length_app. }
  apply app_inv_head in Heq. by injection Heq.
Qed.

Lemma prefix_cut {A : Type} (t a b : list A) :
  t `prefix_of` a ++ b → (length t ≤ length a)%nat → t `prefix_of` a.
Proof.
  intros Ht Hlen.
  destruct (prefix_weak_total _ _ _ Ht (prefix_app_r a a b (reflexivity a))) as [H|H];
    [done|].
  assert (a = t) as -> by (apply prefix_length_eq; [done|lia]). done.
Qed.




Lemma flat_map_ext_elem {A B : Type} (f g : A → list B) (l : list A) :
  (∀ x, x ∈ l → f x = g x) → flat_map f l = flat_map g l.
Proof.
  induction l as [|a l IH]; intros Hfg; [done|]. cbn [flat_map].
  rewrite Hfg by by left. rewrite IH; [done|]. intros x Hx. apply Hfg. by right.
Qed.

(** More recursion depth than the depth of the tree adds nothing to the
    pre-order. *)
Lemma preorder_fuel (fs : FS.t) (fuel : nat) (p : path) :
  FS.valid fs → (0 < fuel)%nat → (FS.depth fs < length p + fuel)%nat →
  preorder (S fuel) fs p = preorder fuel fs p.
Proof.
  intros Hv. revert p. induction fuel as [|fuel IH]; intros p Hpos Hfuel; [lia|].
  cbn [preorder]. f_equal. apply flat_map_ext_elem. intros [x b] Hx.
  cbn [fst snd]. destruct b; [|done].
  unfold chartEntries in Hx.
  destruct (FS.readDir fs (Join p ["charts"])) as [es|e] eqn:Hdir;
    [|by apply elem_of_nil in Hx].
  pose proof (readDir_plain _ _ _ _ _ Hv Hdir Hx) as Hname.
  apply (elem_of_readDir _ _ _ _ _ Hdir) in Hx as (n & Hn & _).
  assert (length (Join p ["charts"] ++ [x]) ≤ FS.depth fs)%nat as Hlen.
  { apply depth_bound. by eexists. }
  rewrite Join_plain by done. rewrite Join_charts in *.
  rewrite !length_app in Hlen. simpl in Hlen.
  apply IH; [lia|rewrite !length_app; simpl; lia].
Qed.

End preorder_facts.

(** ** The traversal handles the charts in depth-first pre-order *)

Section dedup_preorder.
Import Filepath Dedup.

Lemma declared_Ok (fs : FS.t) (p : path) (n : FS.node) (deps : list Dependency) :
  FS.stat fs (Join p ["Chart.yaml"]) = Some n →
  readChartYaml fs (Join p ["Chart.yaml"]) = Ok deps →
  declared fs p = deps.
Proof. unfold declared. by intros -> ->. Qed.

Lemma declared_Err (fs : FS.t) (p : path) (n : FS.node) (e : error) :
  FS.stat fs (Join p ["Chart.yaml"]) = Some n →
  readChartYaml fs (Join p ["Chart.yaml"]) = Err e →
  declared fs p = [].
Proof. unfold declared. by intros -> ->. Qed.

Lemma declared_None (fs : FS.t) (p : path) :
  FS.stat fs (Join p ["Chart.yaml"]) = None → declared fs p = [].
Proof. unfold declared. by intros ->. Qed.

(** A declared dependency is one of a manifest that parses. *)
Lemma declared_read (fs : FS.t) (c : path) (dep : Dependency) :
  dep ∈ declared fs c →
  ∃ deps, readChartYaml fs (Join c ["Chart.yaml"]) = Ok deps ∧ dep ∈ deps.
Proof.
  unfold declared. destruct (FS.stat fs _); [|by intros ?%elem_of_nil].
  destruct (readChartYaml fs _) as [deps|e]; [by eauto|by intros ?%elem_of_nil].
Qed.

Lemma declared_plain (fs : FS.t) (c : path) (dep : Dependency) :
  plainDeps fs → dep ∈ declared fs c → plainName (Name dep) = true.
Proof.
  intros Hplain (deps & Hread & Hdep)%declared_read.
  by eapply declared_name_plain.
Qed.



Lemma walkEntries_preorder (fs : FS.t) (fuel : nat)
    (rec : path → Deduplicator → Deduplicator * outcome)
    (chartsDir : path) (entries : list (string * bool))
    (d d' : Deduplicator) (out : outcome) :
  (∀ q d0 d1 o, rec q d0 = (d1, o) →
     ∃ vs, vs `sublist_of` preorder fuel fs q ∧
           d1 = replay (flat_map (block fs) vs) d0) →
  walkEntries rec chartsDir entries d = (d', out) →
  ∃ vs, vs `sublist_of`
          flat_map (λ e : string * bool,
                      if e.2 then preorder fuel fs (Join chartsDir [e.1]) else [])
                   entries ∧
        d' = replay (flat_map (block fs) vs) d.
Proof.
  intros Hrec. revert d.
  induction entries as [|[name isDir] rest IH]; intros d; cbn [walkEntries flat_map].
  - intros [= <- <-]. by exists [].
  - cbn [fst snd]. destruct isDir; [|by apply IH].
    case_bool_decide.
    { intros (vs & Hsub & ->)%IH. exists vs. split; [|done].
      by apply sublist_inserts_l. }
    destruct (rec (Join chartsDir [name]) d) as [d1 o] eqn:Hcall.
    apply Hrec in Hcall as (vs1 & Hsub1 & ->).
    destruct o.
    + intros (vs2 & Hsub2 & ->)%IH. exists (vs1 ++ vs2).
      split; [by apply sublist_app|]. by rewrite flat_map_app, replay_app.
    + intros [= <- <-]. exists vs1. split; [|done]. by apply sublist_inserts_r.
    + intros [= <- <-]. exists vs1. split; [|done]. by apply sublist_inserts_r.
Qed.

(** What a call of the traversal does is what entering, one after the
    other, some of the directories of the pre-order does, in the order of
    the pre-order. *)
Lemma processDependencies_preorder (fuel : nat) (fs : FS.t) (p : path)
    (d d' : Deduplicator) (out : outcome) :
  processDependencies fuel fs p d = (d', out) →
  ∃ vs, vs `sublist_of` preorder fuel fs p ∧
        d' = replay (flat_map (block fs) vs) d.
Proof.
  revert p d d' out. induction fuel as [|fuel IH]; intros p d d' out.
  { intros [= <- <-]. by exists []. }
  cbn [processDependencies preorder].
  assert (∀ d1 o,
    (match FS.stat fs (Join p ["charts"]) with
     | Some _ =>
         match FS.readDir fs (Join p ["charts"]) with
         | Ok entries =>
             walkEntries (processDependencies fuel fs) (Join p ["charts"]) entries
               (replay (block fs p) d)
         | Err e => (replay (block fs p) d, Failed e)
         end
     | None => (replay (block fs p) d, Done)
     end) = (d1, o) →
    ∃ vs, vs `sublist_of`
            p :: flat_map (λ e : string * bool,
                     if e.2 then preorder fuel fs (Join (Join p ["charts"]) [e.1])
                     else []) (chartEntries fs p) ∧
          d1 = replay (flat_map (block fs) vs) d) as Hrest.
  { intros d1 o Hwalk.
    assert (∃ vs, vs `sublist_of`
              flat_map (λ e : string * bool,
                     if e.2 then preorder fuel fs (Join (Join p ["charts"]) [e.1])
                     else []) (chartEntries fs p) ∧
              d1 = replay (flat_map (block fs) vs) (replay (block fs p) d))
      as (vs & Hsub & ->).
    { destruct (FS.stat fs (Join p ["charts"])).
      - destruct (FS.readDir fs (Join p ["charts"])) as [entries|e] eqn:Hdir.
        + rewrite (chartEntries_readDir _ _ _ Hdir).
          eapply walkEntries_preorder; [|exact Hwalk].
          intros q d0 d2 o0. apply IH.
        + injection Hwalk as <- <-. exists []. split; [apply sublist_nil_l|done].
      - injection Hwalk as <- <-. exists []. split; [apply sublist_nil_l|done]. }
    exists (p :: vs). split; [by apply sublist_skip|].
    cbn [flat_map]. by rewrite replay_app. }
  destruct (FS.stat fs (Join p ["Chart.yaml"])) as [n|] eqn:Hstat.
  - destruct (readChartYaml fs (Join p ["Chart.yaml"])) as [deps|e] eqn:Hread.
    + rewrite fold_registerDependency. intros Hrun. eapply Hrest.
      unfold block. rewrite (declared_Ok _ _ _ _ Hstat Hread). exact Hrun.
    + intros [= <- <-]. exists [p]. split.
      * apply sublist_skip, sublist_nil_l.
      * cbn [flat_map]. unfold block. rewrite (declared_Err _ _ _ _ Hstat Hread).
        done.
  - intros Hrun. eapply Hrest. unfold block. rewrite (declared_None _ _ Hstat).
    exact Hrun.
Qed.

End dedup_preorder.

(** ** What is entered is not condemned *)

Section dedup_safe.
Import Filepath Dedup.

Lemma condemned_from_events (evs : list event) (d : Deduplicator) (t : path) :
  t ∈ deleteDependencies (replay evs d) →
  t ∈ deleteDependencies d ∨
  ∃ c dep, Occurrence c dep ∈ evs ∧ t = depPathOf c dep.
Proof.
  induction evs as [|ev evs IH] using rev_ind; [by left|].
  rewrite replay_snoc.
  assert (t ∈ deleteDependencies (replay evs d) →
          t ∈ deleteDependencies d ∨
          ∃ c dep, Occurrence c dep ∈ evs ++ [ev] ∧ t = depPathOf c dep) as Hold.
  { intros [?|(c & dep & Hin & ->)]%IH; [by left|]. right. exists c, dep.
    split; [|done]. apply elem_of_app. by left. }
  destruct ev as [q|c dep]; simpl; [done|].
  destruct (registerDependency_cases c (replay evs d) dep)
    as [(_ & _ & ->)|[_ ->]]; [|done].
  simpl. intros [?|Heq%list_elem_of_singleton]%elem_of_app; [by auto|]. subst t.
  right. exists c, dep. split; [|done]. apply elem_of_app. right. by left.
Qed.

Lemma incomparable_below (t p k : path) :
  incomparable t p → incomparable t (p ++ k).
Proof.
  intros [Htp Hpt]. split.
  - intros Ht. destruct (decide (length t ≤ length p)%nat).
    + apply Htp. by eapply prefix_cut.
    + apply Hpt.
      destruct (prefix_weak_total _ _ _ Ht (prefix_app_r p p k (reflexivity p)))
        as [H|H]; [|done].
      apply prefix_length in H. lia.
  - intros Ht. apply Hpt. etrans; [|exact Ht]. by apply prefix_app_r.
Qed.

Lemma incomparable_same_length (t q : path) :
  length t = length q → t ≠ q → incomparable t q.
Proof.
  intros Hlen Hne. split; intros H.
  - apply Hne. apply prefix_length_eq; [done|lia].
  - apply Hne. symmetry. apply prefix_length_eq; [done|lia].
Qed.

Lemma walkEntries_safe
    (rec : path → Deduplicator → Deduplicator * outcome)
    (chartsDir : path) (entries : list (string * bool))
    (d d' : Deduplicator) (out : outcome) :
  (∀ x b, (x, b) ∈ entries → plainName x = true) →
  NoDup entries.*1 →
  (∀ q d0 d1 o, rec q d0 = (d1, o) →
     (∀ t, t ∈ deleteDependencies d0 → incomparable t q) → safeSpec q d0 d1) →
  (∀ t x b, t ∈ deleteDependencies d → (x, b) ∈ entries →
            t = chartsDir ++ [x] ∨ incomparable t (chartsDir ++ [x])) →
  walkEntries rec chartsDir entries d = (d', out) →
  ∃ evs, d' = replay evs d ∧
    (∀ q, Visit q ∈ evs →
          ∃ x b, (x, b) ∈ entries ∧ (chartsDir ++ [x]) `prefix_of` q ∧
                 Nat.even (length q) = Nat.even (S (length chartsDir))) ∧
    (∀ t, t ∈ deleteDependencies d' →
          t ∈ deleteDependencies d ∨
          ∃ x b, (x, b) ∈ entries ∧ (chartsDir ++ [x]) `prefix_of` t ∧
                 t ≠ chartsDir ++ [x]) ∧
    (∀ q t, Visit q ∈ evs → t ∈ deleteDependencies d' → ¬ t `prefix_of` q).
Proof.
  intros Hplain Hnd Hrec. revert d.
  induction entries as [|[name isDir] rest IH]; intros d Hpre; cbn [walkEntries].
  { intros [= <- <-]. exists []. split; [done|]. split; [by intros q ?%elem_of_nil|].
    split; [by left|by intros q t ?%elem_of_nil]. }
  rewrite fmap_cons in Hnd. apply NoDup_cons in Hnd as [Hname Hnd]. simpl in Hname.
  assert (∀ x b, (x, b) ∈ rest → plainName x = true) as Hplain'
    by (intros x b Hx; eapply Hplain; by right).
  assert (∀ d0,
    (∀ t x b, t ∈ deleteDependencies d0 → (x, b) ∈ rest →
              t = chartsDir ++ [x] ∨ incomparable t (chartsDir ++ [x])) →
    walkEntries rec chartsDir rest d0 = (d', out) →
    ∃ evs, d' = replay evs d0 ∧
      (∀ q, Visit q ∈ evs →
            ∃ x b, (x, b) ∈ (name, isDir) :: rest ∧ (chartsDir ++ [x]) `prefix_of` q ∧
                   Nat.even (length q) = Nat.even (S (length chartsDir))) ∧
      (∀ t, t ∈ deleteDependencies d' →
            t ∈ deleteDependencies d0 ∨
            ∃ x b, (x, b) ∈ rest ∧ (chartsDir ++ [x]) `prefix_of` t ∧
                   t ≠ chartsDir ++ [x]) ∧
      (∀ q t, Visit q ∈ evs → t ∈ deleteDependencies d' → ¬ t `prefix_of` q))
    as Hskip.
  { intros d0 Hpre0 Hwalk.
    destruct (IH Hplain' Hnd d0 Hpre0 Hwalk) as (evs & -> & Hvis & Hcond & Hpost).
    exists evs. split; [done|]. split; [|done].
    intros q Hq. destruct (Hvis q Hq) as (x & b & Hx & ?). exists x, b.
    split; [by right|done]. }
  assert (∀ t x b, t ∈ deleteDependencies d → (x, b) ∈ rest →
            t = chartsDir ++ [x] ∨ incomparable t (chartsDir ++ [x])) as Hpre'
    by (intros t x b Ht Hx; eapply Hpre; [done|by right]).
  assert (
    (∀ t, t ∈ deleteDependencies d' →
          t ∈ deleteDependencies d ∨
          ∃ x b, (x, b) ∈ rest ∧ (chartsDir ++ [x]) `prefix_of` t ∧
                 t ≠ chartsDir ++ [x]) →
    (∀ t, t ∈ deleteDependencies d' →
          t ∈ deleteDependencies d ∨
          ∃ x b, (x, b) ∈ (name, isDir) :: rest ∧ (chartsDir ++ [x]) `prefix_of` t ∧
                 t ≠ chartsDir ++ [x])) as Hlift.
  { intros Hc t Ht. destruct (Hc t Ht) as [?|(x & b & Hx & ?)]; [by left|].
    right. exists x, b. split; [by right|done]. }
  destruct isDir.
  2:{ intros Hwalk. destruct (Hskip d Hpre' Hwalk) as (evs & -> & Hvis & Hcond & Hpost).
      exists evs. split; [done|]. split; [done|]. split; [by apply Hlift|done]. }
  rewrite Join_plain by (eapply Hplain; by left).
  case_bool_decide as Hin.
  { intros Hwalk. destruct (Hskip d Hpre' Hwalk) as (evs & -> & Hvis & Hcond & Hpost).
    exists evs. split; [done|]. split; [done|]. split; [by apply Hlift|done]. }
  destruct (rec (chartsDir ++ [name]) d) as [d1 o] eqn:Hcall.
  apply Hrec in Hcall as (evs1 & -> & Hvis1 & Hcond1 & Hpost1).
  2:{ intros t Ht. destruct (Hpre t name true Ht) as [->|?]; [by left|done|done]. }
  assert (∀ q, Visit q ∈ evs1 →
            ∃ x b, (x, b) ∈ (name, true) :: rest ∧ (chartsDir ++ [x]) `prefix_of` q ∧
                   Nat.even (length q) = Nat.even (S (length chartsDir))) as Hvis1'.
  { intros q Hq. destruct (Hvis1 q Hq) as [Hpq Hev]. exists name, true.
    split; [by left|]. split; [done|].
    rewrite Hev, length_app. simpl. by rewrite Nat.add_1_r. }
  assert (∀ t, t ∈ deleteDependencies (replay evs1 d) →
            t ∈ deleteDependencies d ∨
            ∃ x b, (x, b) ∈ (name, true) :: rest ∧ (chartsDir ++ [x]) `prefix_of` t ∧
                   t ≠ chartsDir ++ [x]) as Hcond1'.
  { intros t Ht. destruct (Hcond1 t Ht) as [?|[? ?]]; [by left|].
    right. exists name, true. split; [by left|done]. }
  destruct o.
  - intros Hwalk.
    destruct (Hskip (replay evs1 d)) as (evs2 & -> & Hvis2 & Hcond2 & Hpost2);
      [|exact Hwalk|].
    { intros t y b Ht Hy. destruct (Hcond1 t Ht) as [Hold|[Hst Hne]].
      - by eapply Hpre'.
      - right. split; intros Hty.
        + assert ((chartsDir ++ [name]) `prefix_of` chartsDir ++ [y]) as H
            by by etrans.
          pose proof (entries_apart _ _ _ _ H (reflexivity _)) as ->.
          apply Hname. apply list_elem_of_fmap. by exists (y, b).
        + pose proof (entries_apart _ _ _ _ Hst Hty) as ->.
          apply Hname. apply list_elem_of_fmap. by exists (y, b). }
    exists (evs1 ++ evs2). split; [by rewrite replay_app|]. split; [|split].
    + intros q [Hq|Hq]%elem_of_app; [by apply Hvis1'|by apply Hvis2].
    + intros t Ht. destruct (Hcond2 t Ht) as [Hmid|(y & b & Hy & ?)].
      * by apply Hcond1'.
      * right. exists y, b. split; [by right|done].
    + intros q t [Hq|Hq]%elem_of_app Ht; [|by apply Hpost2].
      destruct (Hcond2 t Ht) as [Hmid|(y & b & Hy & Hyt & _)];
        [by apply Hpost1|].
      intros Htq. destruct (Hvis1 q Hq) as [Hsq _].
      assert ((chartsDir ++ [y]) `prefix_of` q) as Hyq by by etrans.
      pose proof (entries_apart _ _ _ _ Hsq Hyq) as ->.
      apply Hname. apply list_elem_of_fmap. by exists (y, b).
  - intros [= <- <-]. exists evs1. by repeat split.
  - intros [= <- <-]. exists evs1. by repeat split.
Qed.


Lemma depPathOf_plain (fs : FS.t) (c : path) (dep : Dependency) :
  plainDeps fs → dep ∈ declared fs c →
  depPathOf c dep = c ++ ["charts"; Name dep].
Proof.
  intros Hplain Hdep. unfold depPathOf. apply Join_charts_plain.
  by eapply declared_plain.
Qed.

(** What entering a chart directory condemns lies in its charts directory. *)
Lemma block_condemns (fs : FS.t) (p : path) (d : Deduplicator) (t : path) :
  plainDeps fs →
  t ∈ deleteDependencies (replay (block fs p) d) →
  t ∈ deleteDependencies d ∨ ∃ n, t = p ++ ["charts"; n].
Proof.
  intros Hplain [?|(c & dep & Hin & ->)]%condemned_from_events; [by left|].
  right. unfold block in Hin.
  apply elem_of_cons in Hin as [[=]|(dep' & Heq & Hd)%elem_of_map].
  injection Heq as Hc Hdep. subst c dep.
  exists (Name dep'). by eapply depPathOf_plain.
Qed.

Lemma Visit_in_block (fs : FS.t) (p q : path) : Visit q ∈ block fs p ↔ q = p.
Proof.
  unfold block. split.
  - intros [[= ->]|(dep & [=] & _)%elem_of_map]%elem_of_cons. done.
  - intros ->. by left.
Qed.

Lemma below_not_above (p t : path) : p `prefix_of` t → t ≠ p → ¬ t `prefix_of` p.
Proof. intros Hpt Hne Htp. apply Hne. by apply (anti_symm prefix). Qed.

(** A call of the traversal on a directory that is not at, above or below a
    condemned path keeps [safeSpec]. *)
Lemma processDependencies_safe (fuel : nat) (fs : FS.t) (p : path)
    (d d' : Deduplicator) (out : outcome) :
  FS.valid fs → plainDeps fs →
  processDependencies fuel fs p d = (d', out) →
  (∀ t, t ∈ deleteDependencies d → incomparable t p) →
  safeSpec p d d'.
Proof.
  intros Hvalid Hplain. revert p d d' out.
  induction fuel as [|fuel IH]; intros p d d' out.
  { intros [= <- <-] _. exists []. split; [done|].
    split; [by intros q ?%elem_of_nil|]. split; [by left|by intros q t ?%elem_of_nil]. }
  intros Hrun Hpre.
  assert (∀ d1 o,
    (match FS.stat fs (Join p ["charts"]) with
     | Some _ =>
         match FS.readDir fs (Join p ["charts"]) with
         | Ok entries =>
             walkEntries (processDependencies fuel fs) (Join p ["charts"]) entries
               (replay (block fs p) d)
         | Err e => (replay (block fs p) d, Failed e)
         end
     | None => (replay (block fs p) d, Done)
     end) = (d1, o) → safeSpec p d d1) as Hrest.
  { intros d1 o Hwalk.
    assert (∀ t, t ∈ deleteDependencies (replay (block fs p) d) →
              t ∈ deleteDependencies d ∨ (p `prefix_of` t ∧ t ≠ p)) as Hcond0.
    { intros t [?|[n ->]]%block_condemns; [by left| |done]. right.
      split; [by apply prefix_app_r|]. intros Heq.
      apply (f_equal length) in Heq. rewrite length_app in Heq. simpl in Heq. lia. }
    assert (safeSpec p d (replay (block fs p) d)) as Hleaf.
    { exists (block fs p). split; [done|]. split; [|split; [done|]].
      - by intros q ->%Visit_in_block.
      - intros q t ->%Visit_in_block Ht.
        destruct (Hcond0 t Ht) as [Hold|[Hb Hne]]; [by apply Hpre|].
        by apply below_not_above. }
    destruct (FS.stat fs (Join p ["charts"])); [|by injection Hwalk as <- <-].
    destruct (FS.readDir fs (Join p ["charts"])) as [entries|e] eqn:Hdir;
      [|by injection Hwalk as <- <-].
    rewrite Join_charts in *.
    eapply walkEntries_safe in Hwalk as (evs1 & -> & Hvis1 & Hcond1 & Hpost1).
    - assert (∀ t, t ∈ deleteDependencies (replay evs1 (replay (block fs p) d)) →
                t ∈ deleteDependencies d ∨ (p `prefix_of` t ∧ t ≠ p)) as Hcond.
      { intros t Ht. destruct (Hcond1 t Ht) as [Hmid|(x & b & Hx & Hxt & _)];
          [by apply Hcond0|].
        right. split.
        - etrans; [|exact Hxt]. rewrite <- app_assoc. by apply prefix_app_r.
        - intros ->. apply prefix_length in Hxt. rewrite !length_app in Hxt.
          simpl in Hxt. lia. }
      exists (block fs p ++ evs1). split; [by rewrite replay_app|].
      split; [|split; [done|]].
      + intros q [->%Visit_in_block|Hq]%elem_of_app; [done|].
        destruct (Hvis1 q Hq) as (x & b & Hx & Hxq & Hev). split.
        * etrans; [|exact Hxq]. rewrite <- app_assoc. by apply prefix_app_r.
        * rewrite Hev, length_app. simpl. by rewrite Nat.add_1_r.
      + intros q t [->%Visit_in_block|Hq]%elem_of_app Ht; [|by eapply Hpost1].
        destruct (Hcond t Ht) as [Hold|[Hb Hne]]; [by apply Hpre|].
        by apply below_not_above.
    - intros x b Hx. by eapply readDir_plain.
    - by eapply readDir_names_NoDup.
    - intros q d0 d2 o0. apply IH.
    - intros t x b Ht Hx.
      destruct (block_condemns _ _ _ _ Hplain Ht) as [Hold|[nm ->]].
      + right. rewrite <- app_assoc. apply incomparable_below. by apply Hpre.
      + destruct (decide (nm = x)) as [->|Hne]; [left; by rewrite <- app_assoc|].
        right. apply incomparable_same_length.
        * rewrite !length_app. simpl. lia.
        * rewrite <- app_assoc. intros Heq%app_inv_head. simpl in Heq.
          congruence. }
  revert Hrun. cbn [processDependencies].
  destruct (FS.stat fs (Join p ["Chart.yaml"])) as [n|] eqn:Hstat.
  - destruct (readChartYaml fs (Join p ["Chart.yaml"])) as [deps|e] eqn:Hread.
    + rewrite fold_registerDependency. intros Hrun. eapply Hrest.
      unfold block. rewrite (declared_Ok _ _ _ _ Hstat Hread). exact Hrun.
    + intros [= <- <-]. exists [Visit p]. split; [done|]. split; [|split; [by left|]].
      * by intros q [= ->]%list_elem_of_singleton.
      * intros q t [= ->]%list_elem_of_singleton Ht. by apply Hpre.
  - intros Hrun. eapply Hrest. unfold block. rewrite (declared_None _ _ Hstat).
    exact Hrun.
Qed.

End dedup_safe.

(** ** The first occurrence in pre-order is the one that stays *)

Section first_in_preorder.
Import Filepath Dedup.





Lemma removePaths_elsewhere (fs : FS.t) (l : list path) (q : path) :
  (∀ t, t ∈ l → ¬ t `prefix_of` q) →
  FS.nodes (removePaths fs l).1 !! q = FS.nodes fs !! q.
Proof.
  revert fs. induction l as [|p l IH]; intros fs Hno; [done|].
  cbn [removePaths].
  pose proof (removeAll_elsewhere fs p q) as Hp.
  destruct (FS.removeAll fs p) as [fs1 [e|]]; cbn [fst] in *.
  - apply Hp, Hno. by left.
  - rewrite IH by (intros t Ht; apply Hno; by right).
    apply Hp, Hno. by left.
Qed.

(** The removal loop leaves what is not at or below a condemned path. *)
Lemma removePaths_keeps (fs : FS.t) (l : list path) (q : path) :
  (∀ t, t ∈ l → ¬ t `prefix_of` q) →
  FS.stat (removePaths fs l).1 q = FS.stat fs q.
Proof.
  intros Hno. apply stat_ext. intros a Ha. apply removePaths_elsewhere.
  intros t Ht Hta. apply (Hno t Ht). by etrans.
Qed.

Lemma DeduplicateChart_keeps (fs : FS.t) (d : Deduplicator) (root q : path) :
  (∀ t, t ∈ deleteDependencies (DeduplicateChart fs d root).1.2 → ¬ t `prefix_of` q) →
  FS.stat (DeduplicateChart fs d root).1.1 q = FS.stat fs q.
Proof.
  intros Hno. destruct (DeduplicateChart_traversal fs d root) as (out & _ & _ & ->).
  destruct out; [|done|done]. destruct (negb _); [|done].
  by apply removePaths_keeps.
Qed.


End first_in_preorder.




(** X20. The deduplicator handles the chart directories in depth-first
    pre-order: the history of a run is what entering, one after the other,
    some of the directories of the pre-order of the tree records, in the
    order of the pre-order (a directory is left out when it is skipped as
    condemned, lies below one that is, or comes after a failure). *)
Theorem dedup_history_in_preorder (fs : FS.t) (o : Dedup.Options) (root : path) :
  let d' := (Dedup.DeduplicateChart fs (Dedup.NewDeduplicator o) root).1.2 in
  ∃ vs, vs `sublist_of` preorder (Dedup.fuelFor fs) fs root ∧
        Dedup.history d' = flat_map (block fs) vs.
Proof.
  intros d'.
  destruct (DeduplicateChart_traversal fs (Dedup.NewDeduplicator o) root)
    as (out & Hrun & _).
  destruct (processDependencies_preorder _ _ _ _ _ _ Hrun) as (vs & Hsub & Hd).
  exists vs. split; [done|]. fold d' in Hd. rewrite Hd, history_replay. done.
Qed.

(** X21. When directory entries and dependency names are names of directory
    entries, no directory that the traversal has entered lies at or below a
    path that is condemned when the run ends; so [os.Stat] on an entered
    directory gives after the run what it gave before. *)
Theorem dedup_entered_survives (fs : FS.t) (o : Dedup.Options) (root q : path) :
  FS.valid fs → plainDeps fs →
  let run := Dedup.DeduplicateChart fs (Dedup.NewDeduplicator o) root in
  Dedup.Visit q ∈ Dedup.history run.1.2 →
  (∀ t, t ∈ Dedup.deleteDependencies run.1.2 → ¬ t `prefix_of` q) ∧
  FS.stat run.1.1 q = FS.stat fs q.
Proof.
  intros Hvalid Hplain run Hq.
  assert (∀ t, t ∈ Dedup.deleteDependencies run.1.2 → ¬ t `prefix_of` q) as Hsafe.
  { destruct (DeduplicateChart_traversal fs (Dedup.NewDeduplicator o) root)
      as (out & Hrun & _).
    fold run in Hrun.
    destruct (processDependencies_safe _ _ _ _ _ _ Hvalid Hplain Hrun)
      as (evs & Hevs & _ & _ & Hpost).
    { by intros t ?%elem_of_nil. }
    rewrite Hevs, history_replay in Hq. simpl in Hq.
    intros t Ht. by apply (Hpost q t). }
  split; [done|]. by apply DeduplicateChart_keeps.
Qed.

Lemma dedup_entered_survives_witness :
  let run := Dedup.DeduplicateChart siblingsTree
               (Dedup.NewDeduplicator (dedupOptions ["r"] false)) ["r"] in
  (∀ t, t ∈ Dedup.deleteDependencies run.1.2 →
        ¬ t `prefix_of` ["r"; "charts"; "a"; "charts"; "x"]) ∧
  FS.stat run.1.1 ["r"; "charts"; "a"; "charts"; "x"] =
  FS.stat siblingsTree ["r"; "charts"; "a"; "charts"; "x"].
Proof.
  apply (dedup_entered_survives siblingsTree (dedupOptions ["r"] false) ["r"]
           ["r"; "charts"; "a"; "charts"; "x"]).
  - apply validb_valid. vm_compute. reflexivity.
  - apply plainDepsb_plainDeps. vm_compute. reflexivity.
  - apply (bool_decide_unpack _). vm_compute. exact I.
Defined.
